(** * Postfix [verify(8)] and [proxymap(8)]: a shallow embedding

    Sources: [src/postfix/src/verify/verify.c] (the address verification
    server) and [src/unnamed/part_002] (the lookup table proxy server).

    The two daemons are embedded as pure functions over explicit state:
    - C strings are [string]s (the characters before the terminating NUL);
    - [int] and [long] are [Z], with the LP64 ranges and the conversions
      between them written out;
    - the address verification table ([DICT *verify_map]) is a
      [gmap string string];
    - hash tables ([HTABLE]) are association lists, because [htable_enter]
      does not look for an existing key;
    - a request handler maps the incoming request and the state to the new
      state and the trace of what it did (replies, table writes, probes).

    Logging ([msg_info], [msg_warn]) has no effect on state or replies and
    is left out.  What [attr_scan] reads, what [time] returns and what
    becomes of a probe message are arguments of the handlers.  Constants of
    headers that are not among the sources are fields of type classes, so
    every result holds for any values of them that satisfy the stated side
    conditions; functions of the Postfix libraries that are not among the
    sources are modelled from the specification and marked as such. *)

From Stdlib Require Import ZArith Lia Ascii String.
From Stdlib Require Import Decimal DecimalString DecimalPos DecimalZ.
From stdpp Require Import base tactics option list gmap strings.

Local Open Scope Z_scope.

(* ===================================================================== *)
(** * Part I: definitions *)
(* ===================================================================== *)

(** ** C integers *)

Definition INT_MIN : Z := - 2 ^ 31.
Definition INT_MAX : Z := 2 ^ 31 - 1.
Definition LONG_MIN : Z := - 2 ^ 63.
Definition LONG_MAX : Z := 2 ^ 63 - 1.

Definition is_int (z : Z) : Prop := INT_MIN <= z <= INT_MAX.
Definition is_long (z : Z) : Prop := LONG_MIN <= z <= LONG_MAX.

(** Two's complement reduction to a signed [bits]-bit value. *)
Definition wrap_signed (bits : Z) (z : Z) : Z :=
  (z + 2 ^ (bits - 1)) mod 2 ^ bits - 2 ^ (bits - 1).

Definition to_int (z : Z) : Z := wrap_signed 32 z.
Definition to_long (z : Z) : Z := wrap_signed 64 z.

(** [long] addition and subtraction as the machine performs them. *)
Definition long_add (a b : Z) : Z := to_long (a + b).
Definition long_sub (a b : Z) : Z := to_long (a - b).

(** ** C library: character classes, [strtol], [atoi], [atol] *)

Definition isspace (c : ascii) : bool :=
  match c with
  | " " | "009" | "010" | "011" | "012" | "013" => true
  | _ => false
  end%char.

Definition isdigit (c : ascii) : bool :=
  match c with
  | "0" | "1" | "2" | "3" | "4" | "5" | "6" | "7" | "8" | "9" => true
  | _ => false
  end%char.

Definition digit_value (c : ascii) : Z := Z.of_N (N_of_ascii c) - 48.

Fixpoint skip_isspace (s : string) : string :=
  match s with
  | String c s' => if isspace c then skip_isspace s' else s
  | EmptyString => EmptyString
  end.

(** The digits consumed by [strtol], most significant first. *)
Fixpoint strtol_digits (acc : Z) (s : string) : Z :=
  match s with
  | String c s' =>
      if isdigit c then strtol_digits (10 * acc + digit_value c) s' else acc
  | EmptyString => acc
  end.

(** [strtol(nptr, 0, 10)]: white space, an optional sign, decimal digits;
    the result saturates at [LONG_MIN] and [LONG_MAX]. *)
Definition strtol (nptr : string) : Z :=
  match skip_isspace nptr with
  | String c s' =>
      if Ascii.eqb c "-"%char then Z.max LONG_MIN (- strtol_digits 0 s')
      else if Ascii.eqb c "+"%char then Z.min LONG_MAX (strtol_digits 0 s')
      else Z.min LONG_MAX (strtol_digits 0 (String c s'))
  | EmptyString => 0
  end.

Definition atol (nptr : string) : Z := strtol nptr.
Definition atoi (nptr : string) : Z := to_int (strtol nptr).

(** ** C library: [printf] conversions *)

(** [%d] and [%ld]. *)
Definition fmt_d (z : Z) : string := NilEmpty.string_of_int (Z.to_int z).
Definition fmt_ld (z : Z) : string := fmt_d z.

Definition octal_digit (z : Z) : ascii := ascii_of_N (Z.to_N (48 + z mod 8)).

Fixpoint octal_digits (fuel : nat) (z : Z) (acc : string) : string :=
  match fuel with
  | O => acc
  | S fuel' =>
      let acc' := String (octal_digit z) acc in
      if z / 8 =? 0 then acc' else octal_digits fuel' (z / 8) acc'
  end.

(** [%o] takes its [int] argument as [unsigned int]: at most 11 digits. *)
Definition fmt_o (z : Z) : string := octal_digits 11 (z mod 2 ^ 32) EmptyString.

(** ** C library: [strchr], [strncmp] against a literal, pointer advance *)

(** [strchr(s, c)]: the suffix of [s] that starts at the first [c]. *)
Fixpoint strchr (s : string) (c : ascii) : option string :=
  match s with
  | String a s' => if Ascii.eqb a c then Some s else strchr s' c
  | EmptyString => None
  end.

(** [strncmp(s, lit, strlen(lit)) == 0]. *)
Definition has_prefix (lit s : string) : bool := String.prefix lit s.

(** [s += n], for [n] at most the length of [s]. *)
Fixpoint advance (n : nat) (s : string) : string :=
  match n, s with
  | S n', String _ s' => advance n' s'
  | _, _ => s
  end.

(** ** Postfix utility library: [split_at] *)

(** Modelled from the spec: [split_at] of the utility library is not among
    the sources ("the codec splits only on the first three colons", one
    call for each).  [split_at(string, delimiter)] cuts [string] at the
    first [delimiter]: the result is what is left in [string] and what the
    returned pointer designates, or [None] for the null pointer. *)
Fixpoint split_at (s : string) (delimiter : ascii) : option (string * string) :=
  match s with
  | String c s' =>
      if Ascii.eqb c delimiter then Some (EmptyString, s')
      else match split_at s' delimiter with
           | Some (head, rest) => Some (String c head, rest)
           | None => None
           end
  | EmptyString => None
  end.

(** ** Header constants

    [deliver_request.h], [verify_clnt.h] and [mail_proto.h] are not among
    the sources; their constants are taken as parameters. *)

Class deliver_request_h := {
  DEL_RCPT_STAT_OK : Z;
  DEL_RCPT_STAT_DEFER : Z;
  DEL_RCPT_STAT_BOUNCE : Z;
  DEL_RCPT_STAT_TODO : Z
}.

Class verify_clnt_h := {
  VRFY_STAT_OK : Z;
  VRFY_STAT_FAIL : Z;
  VRFY_STAT_BAD : Z;
  VRFY_REQ_QUERY : string;
  VRFY_REQ_UPDATE : string
}.

Class mail_proto_h := {
  MAIL_ATTR_STATUS : string;
  MAIL_ATTR_ADDR_STATUS : string;
  MAIL_ATTR_WHY : string;
  MAIL_ATTR_FLAGS : string;
  MAIL_ATTR_VALUE : string
}.

(** The recipient status codes are four different [int]s. *)
Definition rcpt_stat_codes `{deliver_request_h} : list Z :=
  [DEL_RCPT_STAT_OK; DEL_RCPT_STAT_DEFER; DEL_RCPT_STAT_BOUNCE;
   DEL_RCPT_STAT_TODO].

Definition rcpt_stat_wf `{deliver_request_h} : Prop :=
  NoDup rcpt_stat_codes ∧ Forall is_int rcpt_stat_codes.

(** ** What a request handler does to the outside world *)

Inductive attr :=
  | ATTR_NUM (name : string) (value : Z)
  | ATTR_STR (name : string) (value : string).

Inductive event :=
  | Reply (attrs : list attr)             (* attr_print(client_stream, ...) *)
  | Flush                                 (* vstream_fflush(client_stream) *)
  | DictPut (key value : string)          (* dict_put(verify_map, ...) *)
  | DictDel (key : string)                (* dict_del(verify_map, ...) *)
  | Probe (sender rcpt : string) (queued : bool)
                                          (* post_mail_fopen + post_mail_fclose *)
  | DictOpen (type_name : string) (open_flags dict_flags : Z).
                                          (* dict_open(...) *)

(** ** verify.c: configuration, state, requests *)

Record verify_params := {
  var_verify_pos_exp : Z;
  var_verify_pos_try : Z;
  var_verify_neg_exp : Z;
  var_verify_neg_try : Z;
  var_verify_sender : string;
  var_verify_neg_cache : Z
}.

(** [dict_get], [dict_put] (the table is opened with
    [DICT_FLAG_DUP_REPLACE]) and [dict_del] on [verify_map]. *)
Definition dict_get (verify_map : gmap string string) (key : string)
  : option string := verify_map !! key.
Definition dict_put (verify_map : gmap string string) (key value : string)
  : gmap string string := <[key := value]> verify_map.
Definition dict_del (verify_map : gmap string string) (key : string)
  : gmap string string := delete key verify_map.

(** What [attr_scan] hands to the handlers: its return value for the
    request name, the name, its return value for the request's arguments,
    and the arguments.  An argument is meaningful only when the scan that
    delivers it returned the expected count. *)
Record client_request := {
  rq_scan_request : Z;
  rq_request : string;
  rq_scan_args : Z;
  rq_addr : string;
  rq_addr_status : Z;
  rq_text : string
}.

(** The outcome of the probe submission: whether [post_mail_fopen]
    returned a stream, and what [post_mail_fclose] returned. *)
Record post_mail := {
  post_mail_fopen : bool;
  post_mail_fclose : Z
}.

Definition post_mail_queued (post : post_mail) : bool :=
  post_mail_fopen post && (post_mail_fclose post =? 0).

(** ** verify.c: the entry codec *)

(** [#define STATUS_FROM_RAW_ENTRY(e) atoi(e)] *)
Definition STATUS_FROM_RAW_ENTRY (e : string) : Z := atoi e.

(** [vstring_sprintf(buf, "%d:%ld:%ld:%s", status, probed, updated, text)] *)
Definition verify_make_entry (status probed updated : Z) (text : string)
  : string :=
  fmt_d status +:+ ":" +:+ fmt_ld probed +:+ ":" +:+ fmt_ld updated
    +:+ ":" +:+ text.

(** The result arguments of [verify_parse_entry] are pointers. *)
Inductive out_ptr :=
  | NULL
  | ADDR_OF (variable : string).

Definition non_null (p : out_ptr) : bool :=
  match p with NULL => false | ADDR_OF _ => true end.

Inductive parse_result :=
  | PARSE_OK (status probed updated : Z) (text : string)  (* return (0) *)
  | PARSE_BAD                                             (* return (-1) *)
  | PARSE_UB.                         (* a store through a null pointer *)

Definition is_rcpt_stat `{deliver_request_h} (status : Z) : bool :=
  (status =? DEL_RCPT_STAT_OK) || (status =? DEL_RCPT_STAT_DEFER)
  || (status =? DEL_RCPT_STAT_BOUNCE) || (status =? DEL_RCPT_STAT_TODO).

(** [verify_parse_entry], in the order C evaluates it: the three
    [split_at] calls of the condition (the third result is stored through
    [text] before it is tested), the three conversions, then the test of
    the status and of the pointers [probed] and [updated]. *)
Definition verify_parse_entry `{deliver_request_h}
    (buf : string) (status probed updated text : out_ptr) : parse_result :=
  match split_at buf ":" with
  | None => PARSE_BAD
  | Some (buf, probed_text) =>
      match split_at probed_text ":" with
      | None => PARSE_BAD
      | Some (probed_text, updated_text) =>
          if negb (non_null text) then PARSE_UB
          else match split_at updated_text ":" with
               | None => PARSE_BAD
               | Some (updated_text, text_val) =>
                   if negb (non_null probed && non_null updated
                            && non_null status) then PARSE_UB
                   else
                     let probed_val := atol probed_text in
                     let updated_val := atol updated_text in
                     let status_val := atoi buf in
                     if is_rcpt_stat status_val
                        && (non_null probed || non_null updated)
                     then PARSE_OK status_val probed_val updated_val text_val
                     else PARSE_BAD
               end
      end
  end.

(** [verify_stat2name]: a null result is [None]. *)
Definition verify_stat2name `{deliver_request_h} (addr_status : Z)
  : option string :=
  if addr_status =? DEL_RCPT_STAT_OK then Some "deliverable"
  else if addr_status =? DEL_RCPT_STAT_DEFER then Some "undeliverable"
  else if addr_status =? DEL_RCPT_STAT_BOUNCE then Some "undeliverable"
  else None.

(** ** verify.c: the request handlers *)

Section verify_handlers.
Context `{deliver_request_h, verify_clnt_h, mail_proto_h}.
Variable params : verify_params.

(** [verify_update_service]; [now] is what [time()] returns. *)
Definition verify_update_service (now : Z) (rq : client_request)
    (verify_map : gmap string string)
  : gmap string string * list event :=
  if rq_scan_args rq =? 3 then
    match verify_stat2name (rq_addr_status rq) with
    | None =>
        (verify_map, [Reply [ATTR_NUM MAIL_ATTR_STATUS VRFY_STAT_BAD]])
    | Some status_name =>
        if (rq_addr_status rq =? DEL_RCPT_STAT_OK)
           || match dict_get verify_map (rq_addr rq) with
              | None => true
              | Some raw_data =>
                  negb (STATUS_FROM_RAW_ENTRY raw_data =? DEL_RCPT_STAT_OK)
              end
        then
          let probed := 0 in
          let updated := now in
          let buf :=
            verify_make_entry (rq_addr_status rq) probed updated
              (rq_text rq) in
          (dict_put verify_map (rq_addr rq) buf,
           [DictPut (rq_addr rq) buf;
            Reply [ATTR_NUM MAIL_ATTR_STATUS VRFY_STAT_OK]])
        else
          (verify_map, [Reply [ATTR_NUM MAIL_ATTR_STATUS VRFY_STAT_OK]])
    end
  else (verify_map, []).

Definition POSITIVE_ENTRY_EXPIRED (now addr_status updated : Z) : bool :=
  (addr_status =? DEL_RCPT_STAT_OK)
  && (long_add updated (var_verify_pos_exp params) <? now).
Definition NEGATIVE_ENTRY_EXPIRED (now addr_status updated : Z) : bool :=
  negb (addr_status =? DEL_RCPT_STAT_OK)
  && (long_add updated (var_verify_neg_exp params) <? now).
Definition PROBE_TTL : Z := 1000.

Definition POSITIVE_REFRESH_NEEDED (now addr_status updated : Z) : bool :=
  (addr_status =? DEL_RCPT_STAT_OK)
  && (long_add updated (var_verify_pos_try params) <? now).
Definition NEGATIVE_REFRESH_NEEDED (now addr_status updated : Z) : bool :=
  negb (addr_status =? DEL_RCPT_STAT_OK)
  && (long_add updated (var_verify_neg_try params) <? now).

(** The local variables [addr_status], [probed], [updated], [text] of
    [verify_query_service]. *)
Record record := {
  addr_status : Z;
  probed : Z;
  updated : Z;
  text : string
}.

Definition default_record : record :=
  {| addr_status := DEL_RCPT_STAT_TODO; probed := 0; updated := 0;
     text := "Address verification in progress" |}.

(** The condition of the first [if] of [verify_query_service]: the entry
    is not found, or malformed, or it is safe to probe and the entry has
    expired.  [verify_parse_entry] gets the addresses of the locals. *)
Definition query_miss (now : Z) (raw_data : option string)
  : bool * record :=
  match raw_data with
  | None => (true, default_record)
  | Some raw =>
      match verify_parse_entry raw (ADDR_OF "addr_status")
              (ADDR_OF "probed") (ADDR_OF "updated") (ADDR_OF "text") with
      | PARSE_OK st pr up tx =>
          ((long_sub now pr >? PROBE_TTL)
           && (POSITIVE_ENTRY_EXPIRED now st up
               || NEGATIVE_ENTRY_EXPIRED now st up),
           {| addr_status := st; probed := pr; updated := up; text := tx |})
      | PARSE_BAD | PARSE_UB => (true, default_record)
      end
  end.

(** Lines 339-353: produce the record the reply is made of, and purge. *)
Definition verify_query_lookup (now : Z) (addr : string)
    (verify_map : gmap string string)
  : record * gmap string string * list event :=
  let raw_data := dict_get verify_map addr in
  let '(miss, parsed) := query_miss now raw_data in
  if miss then
    if bool_decide (raw_data ≠ None) && (var_verify_neg_cache params =? 0)
    then (default_record, dict_del verify_map addr, [DictDel addr])
    else (default_record, verify_map, [])
  else (parsed, verify_map, []).

Definition refresh_needed (now : Z) (r : record) : bool :=
  (long_sub now (probed r) >? PROBE_TTL)
  && (POSITIVE_REFRESH_NEEDED now (addr_status r) (updated r)
      || NEGATIVE_REFRESH_NEEDED now (addr_status r) (updated r)).

(** Lines 384-403: send a probe, and record that it is under way. *)
Definition verify_query_refresh (now : Z) (post : post_mail)
    (addr : string) (r : record) (verify_map : gmap string string)
  : gmap string string * list event :=
  if refresh_needed now r then
    let sender :=
      if String.eqb (var_verify_sender params) "<>" then ""
      else var_verify_sender params in
    if post_mail_queued post
       && (negb (updated r =? 0) || negb (var_verify_neg_cache params =? 0))
    then
      let put_buf :=
        verify_make_entry (addr_status r) now (updated r) (text r) in
      (dict_put verify_map addr put_buf,
       [Probe sender addr (post_mail_queued post); DictPut addr put_buf])
    else (verify_map, [Probe sender addr (post_mail_queued post)])
  else (verify_map, []).

(** [verify_query_service] *)
Definition verify_query_service (now : Z) (post : post_mail)
    (rq : client_request) (verify_map : gmap string string)
  : gmap string string * list event :=
  if rq_scan_args rq =? 1 then
    let '(r, map1, purge) :=
      verify_query_lookup now (rq_addr rq) verify_map in
    let reply :=
      Reply [ATTR_NUM MAIL_ATTR_STATUS VRFY_STAT_OK;
             ATTR_NUM MAIL_ATTR_ADDR_STATUS (addr_status r);
             ATTR_STR MAIL_ATTR_WHY (text r)] in
    let '(map2, refresh) :=
      verify_query_refresh now post (rq_addr rq) r map1 in
    (map2, purge ++ reply :: refresh)
  else (verify_map, []).

(** [verify_service], called with no command-line argument. *)
Definition verify_service (now : Z) (post : post_mail)
    (rq : client_request) (verify_map : gmap string string)
  : gmap string string * list event :=
  let '(verify_map', trace) :=
    if rq_scan_request rq =? 1 then
      if String.eqb (rq_request rq) VRFY_REQ_UPDATE then
        verify_update_service now rq verify_map
      else if String.eqb (rq_request rq) VRFY_REQ_QUERY then
        verify_query_service now post rq verify_map
      else (verify_map, [Reply [ATTR_NUM MAIL_ATTR_STATUS VRFY_STAT_BAD]])
    else (verify_map, []) in
  (verify_map', trace ++ [Flush]).

End verify_handlers.

(** ** proxymap.c: constants, tables, requests *)

(** [dict_proxy.h] is not among the sources; its constants are taken as
    parameters. *)
Class dict_proxy_h := {
  DICT_TYPE_PROXY : string;
  PROXY_REQ_OPEN : string;
  PROXY_REQ_LOOKUP : string;
  PROXY_STAT_OK : Z;
  PROXY_STAT_NOKEY : Z;
  PROXY_STAT_RETRY : Z;
  PROXY_STAT_BAD : Z;
  PROXY_STAT_DENY : Z
}.

(** [O_RDONLY] of [<fcntl.h>]. *)
Definition O_RDONLY : Z := 0.

(** Modelled from the spec: [htable.c] is not among the sources.  The
    allow-list is "a set" and the handle cache a table "keyed by string";
    [htable_locate] gives the entry stored under a key, if any, and
    [htable_enter] adds an entry without looking for the key, so the table
    is kept as the list of its entries. *)
Fixpoint htable_locate {V} (table : list (string * V)) (key : string)
  : option (string * V) :=
  match table with
  | [] => None
  | entry :: table' =>
      if String.eqb entry.1 key then Some entry else htable_locate table' key
  end.

(** Modelled from the spec: [htable_enter] of [htable.c], which adds an
    entry ("insert the canonical type:name into a set"; the caller looks
    the key up first: "duplicates ignored"). *)
Definition htable_enter {V} (table : list (string * V)) (key : string)
    (value : V) : list (string * V) :=
  (key, value) :: table.

(** The number of entries a table holds under a key. *)
Definition htable_count {V} (table : list (string * V)) (key : string) : nat :=
  length (filter (λ entry, entry.1 = key) table).

(** An open table, as far as the proxy looks at it: the [flags] member,
    and for each key what [dict_get] returns and leaves in [dict_errno]. *)
Record DICT := {
  dict_flags : Z;
  dict_value : string → option string;
  dict_errno : string → Z
}.

(** Modelled from the spec: [dict_handle] and [dict_register] of [dict.c]
    are not among the sources.  "Look up the handle cache. On hit, reuse
    the handle. On miss, open the table [...] and register the handle under
    the composite key." *)
Definition dict_handle (dict_table : list (string * DICT)) (dict_name : string)
  : option DICT :=
  snd <$> htable_locate dict_table dict_name.

(** Modelled from the spec: [dict_register] of [dict.c], "register the
    handle under the composite key"; a key that is registered keeps its
    handle. *)
Definition dict_register (dict_table : list (string * DICT))
    (dict_name : string) (dict_info : DICT) : list (string * DICT) :=
  match htable_locate dict_table dict_name with
  | Some _ => dict_table
  | None => htable_enter dict_table dict_name dict_info
  end.

(** The proxy's process state: the pre-approved list of maps and the
    table of open handles. *)
Record proxy_state := {
  proxy_read_maps : list (string * unit);
  dict_table : list (string * DICT)
}.

Record proxy_request := {
  prq_scan_request : Z;
  prq_request : string;
  prq_scan_args : Z;
  prq_map : string;
  prq_flags : Z;
  prq_key : string
}.

Inductive find_result :=
  | FIND_ERROR (stat : Z)      (* PROXY_MAP_FIND_ERROR_RETURN(stat) *)
  | FIND_PANIC                 (* msg_panic: dict_open null result *)
  | FIND_DICT (dict : DICT).   (* return (dict) *)

(** Whether [c] is one of the characters of [sep]. *)
Definition is_sep (sep : string) (c : ascii) : bool :=
  bool_decide (is_Some (strchr sep c)).

Fixpoint skip_sep (sep s : string) : string :=
  match s with
  | String c s' => if is_sep sep c then skip_sep sep s' else s
  | EmptyString => EmptyString
  end.

Fixpoint cut_token (sep s : string) : string * string :=
  match s with
  | String c s' =>
      if is_sep sep c then (EmptyString, s')
      else let '(token, rest) := cut_token sep s' in (String c token, rest)
  | EmptyString => (EmptyString, EmptyString)
  end.

(** Modelled from the spec: [mystrtok] of the utility library is not among
    the sources.  "Tokenize [proxy_read_maps] on whitespace": skip the
    leading separators ([skip_sep]); the token runs up to the next
    separator, which is consumed ([cut_token]); the result is the token
    and the new value of [*src], or [None] at the end of the string. *)
Definition mystrtok (src sep : string) : option (string * string) :=
  match skip_sep sep src with
  | EmptyString => None
  | start => Some (cut_token sep start)
  end.

(** ** proxymap.c: the allow-list, the handle cache, the handlers *)

Section proxymap_handlers.
Context `{dict_proxy_h, mail_proto_h}.
(** [dict_open(type_name, open_flags, dict_flags)] of the dictionary
    library; [None] is the null result. *)
Variable dict_open : string → Z → Z → option DICT.

Definition PROXY_COLON : string := DICT_TYPE_PROXY +:+ ":".
Definition PROXY_COLON_LEN : nat := String.length PROXY_COLON.
Definition READ_OPEN_FLAGS : Z := O_RDONLY.

(** [while (strncmp(s, PROXY_COLON, PROXY_COLON_LEN) == 0)
       s += PROXY_COLON_LEN;]
    Every round moves [s] forward, so [String.length s] rounds are
    enough ([skip_proxy_colon_fuel] below). *)
Fixpoint skip_proxy_colon (fuel : nat) (s : string) : string :=
  match fuel with
  | O => s
  | S fuel' =>
      if has_prefix PROXY_COLON s
      then skip_proxy_colon fuel' (advance PROXY_COLON_LEN s)
      else s
  end.

Definition canonical_map_name (map_type_name : string) : string :=
  skip_proxy_colon (String.length map_type_name) map_type_name.

(** [proxy_map_find] *)
Definition proxy_map_find (map_type_name : string) (request_flags : Z)
    (st : proxy_state) : find_result * proxy_state * list event :=
  let map_type_name := canonical_map_name map_type_name in
  match strchr map_type_name ":" with
  | None => (FIND_ERROR PROXY_STAT_BAD, st, [])
  | Some _ =>
      match htable_locate (proxy_read_maps st) map_type_name with
      | None => (FIND_ERROR PROXY_STAT_DENY, st, [])
      | Some _ =>
          let map_type_name_flags :=
            map_type_name +:+ ":" +:+ fmt_o request_flags in
          let '(dict, opened) :=
            match dict_handle (dict_table st) map_type_name_flags with
            | Some dict => (Some dict, [])
            | None =>
                (dict_open map_type_name READ_OPEN_FLAGS request_flags,
                 [DictOpen map_type_name READ_OPEN_FLAGS request_flags])
            end in
          match dict with
          | None => (FIND_PANIC, st, opened)
          | Some dict =>
              (FIND_DICT dict,
               {| proxy_read_maps := proxy_read_maps st;
                  dict_table :=
                    dict_register (dict_table st) map_type_name_flags dict |},
               opened)
          end
      end
  end.

(** [proxymap_lookup_service]; the state is [None] once the process has
    panicked. *)
Definition proxymap_lookup_service (rq : proxy_request) (st : proxy_state)
  : option proxy_state * list event :=
  let reply reply_status reply_value :=
    Reply [ATTR_NUM MAIL_ATTR_STATUS reply_status;
           ATTR_STR MAIL_ATTR_VALUE reply_value] in
  if negb (prq_scan_args rq =? 3) then
    (Some st, [reply PROXY_STAT_BAD ""])
  else
    match proxy_map_find (prq_map rq) (prq_flags rq) st with
    | (FIND_ERROR reply_status, st', trace) =>
        (Some st', trace ++ [reply reply_status ""])
    | (FIND_PANIC, _, trace) => (None, trace)
    | (FIND_DICT dict, st', trace) =>
        match dict_value dict (prq_key rq) with
        | Some reply_value =>
            (Some st', trace ++ [reply PROXY_STAT_OK reply_value])
        | None =>
            if dict_errno dict (prq_key rq) =? 0
            then (Some st', trace ++ [reply PROXY_STAT_NOKEY ""])
            else (Some st', trace ++ [reply PROXY_STAT_RETRY ""])
        end
    end.

(** [proxymap_open_service] *)
Definition proxymap_open_service (rq : proxy_request) (st : proxy_state)
  : option proxy_state * list event :=
  let reply reply_status reply_flags :=
    Reply [ATTR_NUM MAIL_ATTR_STATUS reply_status;
           ATTR_NUM MAIL_ATTR_FLAGS reply_flags] in
  if negb (prq_scan_args rq =? 2) then
    (Some st, [reply PROXY_STAT_BAD 0])
  else
    match proxy_map_find (prq_map rq) (prq_flags rq) st with
    | (FIND_ERROR reply_status, st', trace) =>
        (Some st', trace ++ [reply reply_status 0])
    | (FIND_PANIC, _, trace) => (None, trace)
    | (FIND_DICT dict, st', trace) =>
        (Some st', trace ++ [reply PROXY_STAT_OK (dict_flags dict)])
    end.

(** [proxymap_service], called with no command-line argument. *)
Definition proxymap_service (rq : proxy_request) (st : proxy_state)
  : option proxy_state * list event :=
  let '(st', trace) :=
    if prq_scan_request rq =? 1 then
      if String.eqb (prq_request rq) PROXY_REQ_LOOKUP then
        proxymap_lookup_service rq st
      else if String.eqb (prq_request rq) PROXY_REQ_OPEN then
        proxymap_open_service rq st
      else (Some st, [Reply [ATTR_NUM MAIL_ATTR_STATUS PROXY_STAT_BAD]])
    else (Some st, []) in
  match st' with
  | Some _ => (st', trace ++ [Flush])
  | None => (None, trace)
  end.

(** The body of the [while] loop of [post_jail_init], for one token. *)
Definition approve (type_name : string) (table : list (string * unit))
  : list (string * unit) :=
  if negb (has_prefix PROXY_COLON type_name) then table
  else
    let type_name :=
      let type_name := advance PROXY_COLON_LEN type_name in
      skip_proxy_colon (String.length type_name) type_name in
    if bool_decide (is_Some (strchr type_name ":"))
       && bool_decide (htable_locate table type_name = None)
    then htable_enter table type_name ()
    else table.

(** [while ((type_name = mystrtok(&bp, sep)) != 0) ...]: every call of
    [mystrtok] moves [bp] forward, so [String.length bp] rounds are
    enough ([approve_tokens_fuel] below). *)
Fixpoint approve_tokens (fuel : nat) (bp sep : string)
    (table : list (string * unit)) : list (string * unit) :=
  match fuel with
  | O => table
  | S fuel' =>
      match mystrtok bp sep with
      | None => table
      | Some (type_name, bp') =>
          approve_tokens fuel' bp' sep (approve type_name table)
      end
  end.

(** [post_jail_init]: the list of pre-approved tables built from
    [var_proxy_read_maps]. *)
Definition post_jail_init (var_proxy_read_maps : string)
  : proxy_state :=
  let sep := String " " (String "009" (String "013" (String "010" ""))) in
  {| proxy_read_maps :=
       approve_tokens (String.length var_proxy_read_maps)
         var_proxy_read_maps sep [];
     dict_table := [] |}.

End proxymap_handlers.

(** ** The header values of the Postfix distribution

    Used to run the handlers on concrete requests. *)

Definition postfix_deliver_request_h : deliver_request_h :=
  {| DEL_RCPT_STAT_OK := 0; DEL_RCPT_STAT_DEFER := 1;
     DEL_RCPT_STAT_BOUNCE := 2; DEL_RCPT_STAT_TODO := 3 |}.

Definition postfix_verify_clnt_h : verify_clnt_h :=
  {| VRFY_STAT_OK := 0; VRFY_STAT_FAIL := -1; VRFY_STAT_BAD := -2;
     VRFY_REQ_QUERY := "query"; VRFY_REQ_UPDATE := "update" |}.

Definition postfix_mail_proto_h : mail_proto_h :=
  {| MAIL_ATTR_STATUS := "status"; MAIL_ATTR_ADDR_STATUS := "recipient_status";
     MAIL_ATTR_WHY := "reason"; MAIL_ATTR_FLAGS := "flags";
     MAIL_ATTR_VALUE := "value" |}.

Definition postfix_dict_proxy_h : dict_proxy_h :=
  {| DICT_TYPE_PROXY := "proxy"; PROXY_REQ_OPEN := "open";
     PROXY_REQ_LOOKUP := "lookup"; PROXY_STAT_OK := 0; PROXY_STAT_NOKEY := 1;
     PROXY_STAT_RETRY := 2; PROXY_STAT_BAD := 3; PROXY_STAT_DENY := 4 |}.

(** ** Notions the statements below are phrased with *)

(** A string at which [strtol] stops reading digits. *)
Definition ends_number (s : string) : Prop :=
  match s with
  | String c _ => isdigit c = false
  | EmptyString => True
  end.

(** A text [strtol] finds no number in: it begins with something other
    than white space, a sign, or a digit. *)
Definition non_numeric (s : string) : Prop :=
  match s with
  | String c _ =>
      isspace c = false ∧ isdigit c = false
      ∧ Ascii.eqb c "-" = false ∧ Ascii.eqb c "+" = false
  | EmptyString => True
  end.

Fixpoint count_char (c : ascii) (s : string) : nat :=
  match s with
  | String a s' => (if Ascii.eqb a c then 1 else 0) + count_char c s'
  | EmptyString => 0
  end.

(** The text of an entry before its first colon. *)
Definition leading_field (raw : string) : string :=
  match split_at raw ":" with
  | Some (field, _) => field
  | None => raw
  end.

(** ** Requests served one after another *)

Section verify_runs.
Context `{deliver_request_h, verify_clnt_h, mail_proto_h}.
Variable params : verify_params.

(** UPDATE requests, each with the time it is served at. *)
Fixpoint verify_updates (rqs : list (Z * client_request))
    (verify_map : gmap string string)
  : gmap string string * list event :=
  match rqs with
  | [] => (verify_map, [])
  | (now, rq) :: rqs' =>
      let '(map1, trace1) := verify_update_service now rq verify_map in
      let '(map2, trace2) := verify_updates rqs' map1 in
      (map2, trace1 ++ trace2)
  end.

(** Two QUERY requests for the same address, with no other request in
    between: the final table and the trace of each. *)
Definition verify_two_queries (now1 : Z) (post1 : post_mail)
    (now2 : Z) (post2 : post_mail) (rq : client_request)
    (verify_map : gmap string string)
  : gmap string string * list event * list event :=
  let '(map1, trace1) :=
    verify_query_service params now1 post1 rq verify_map in
  let '(map2, trace2) :=
    verify_query_service params now2 post2 rq map1 in
  (map2, trace1, trace2).

End verify_runs.

(** The probe submissions of a trace (sender, recipient, whether the
    message was queued), and those that were queued. *)
Definition probes (trace : list event) : list (string * string * bool) :=
  omap (λ e, match e with Probe s r q => Some (s, r, q) | _ => None end) trace.

Definition queued_probes (trace : list event) : list (string * string * bool) :=
  filter (λ p, p.2 = true) (probes trace).

(** The replies of a trace. *)
Definition replies (trace : list event) : list (list attr) :=
  omap (λ e, match e with Reply attrs => Some attrs | _ => None end) trace.

(** The table writes of a trace. *)
Definition dict_puts (trace : list event) : list (string * string) :=
  omap (λ e, match e with DictPut k v => Some (k, v) | _ => None end) trace.

Definition dict_dels (trace : list event) : list string :=
  omap (λ e, match e with DictDel k => Some k | _ => None end) trace.

Definition dict_opens (trace : list event) : list (string * Z * Z) :=
  omap (λ e, match e with DictOpen n o f => Some (n, o, f) | _ => None end)
    trace.

(** ** Tables and requests to run the handlers on *)

(** One address, known to be deliverable since time 110. *)
Definition map_with_ok : gmap string string :=
  {[ "u@x" := "0:0:110:250 ok" ]}.

Definition update_rq (addr : string) (addr_status : Z) (text : string)
  : client_request :=
  {| rq_scan_request := 1; rq_request := "update"; rq_scan_args := 3;
     rq_addr := addr; rq_addr_status := addr_status; rq_text := text |}.

Definition query_rq (addr : string) : client_request :=
  {| rq_scan_request := 1; rq_request := "query"; rq_scan_args := 1;
     rq_addr := addr; rq_addr_status := 0; rq_text := "" |}.

Definition post_ok : post_mail :=
  {| post_mail_fopen := true; post_mail_fclose := 0 |}.

Definition post_failed : post_mail :=
  {| post_mail_fopen := false; post_mail_fclose := 0 |}.

(** Expiry after 31 days and 3 days, refresh after 7 days and 3 hours,
    the null sender. *)
Definition params_with (neg_cache : Z) : verify_params :=
  {| var_verify_pos_exp := 2678400; var_verify_pos_try := 604800;
     var_verify_neg_exp := 259200; var_verify_neg_try := 10800;
     var_verify_sender := "<>"; var_verify_neg_cache := neg_cache |}.

(** ** The three ways a QUERY finds no usable entry *)

Section verify_notions.
Context `{deliver_request_h}.
Variable params : verify_params.

(** The stored entry as [verify_query_service] parses it. *)
Definition parse_stored (raw : string) : parse_result :=
  verify_parse_entry raw (ADDR_OF "addr_status") (ADDR_OF "probed")
    (ADDR_OF "updated") (ADDR_OF "text").

(** It is safe to probe, and the positive or negative expiry has passed. *)
Definition entry_stale (now status probed updated : Z) : Prop :=
  long_sub now probed > PROBE_TTL
  ∧ (status = DEL_RCPT_STAT_OK
     ∧ long_add updated (var_verify_pos_exp params) < now
     ∨ status ≠ DEL_RCPT_STAT_OK
       ∧ long_add updated (var_verify_neg_exp params) < now).

(** Absent, unparseable, or stale. *)
Definition query_misses (now : Z) (raw_data : option string) : Prop :=
  raw_data = None
  ∨ (∃ raw, raw_data = Some raw ∧ parse_stored raw = PARSE_BAD)
  ∨ (∃ raw status probed updated text,
       raw_data = Some raw
       ∧ parse_stored raw = PARSE_OK status probed updated text
       ∧ entry_stale now status probed updated).

End verify_notions.

(** ** Proxy requests and tables to run the handlers on *)

Section proxymap_runs.
Context `{dict_proxy_h, mail_proto_h}.
Variable dict_open : string → Z → Z → option DICT.

(** [n] times [PROXY_COLON], then [type_name]. *)
Fixpoint proxy_prefixes (n : nat) (type_name : string) : string :=
  match n with
  | O => type_name
  | S n' => PROXY_COLON +:+ proxy_prefixes n' type_name
  end.

(** Every approved name has an inner colon, is canonical, and is listed
    once. *)
Definition allow_list_wf (table : list (string * unit)) : Prop :=
  NoDup table.*1
  ∧ ∀ name, name ∈ table.*1 →
      is_Some (strchr name ":") ∧ has_prefix PROXY_COLON name = false.

(** The key of the handle cache: ["%s:%o"]. *)
Definition handle_key (map_type_name : string) (request_flags : Z)
  : string :=
  canonical_map_name map_type_name +:+ ":" +:+ fmt_o request_flags.

(** The handle [proxy_map_find] ends up with: the cached one, else what
    [dict_open] returns. *)
Definition handle_for (st : proxy_state) (canon : string)
    (request_flags : Z) : option DICT :=
  match dict_handle (dict_table st)
          (canon +:+ ":" +:+ fmt_o request_flags) with
  | Some dict => Some dict
  | None => dict_open canon READ_OPEN_FLAGS request_flags
  end.

(** The same OPEN request served twice; the second trace is empty when
    the process did not survive the first. *)
Definition proxymap_two_opens (rq : proxy_request) (st : proxy_state)
  : option proxy_state * list event * list event :=
  match proxymap_open_service dict_open rq st with
  | (Some st1, trace1) =>
      let '(st2, trace2) := proxymap_open_service dict_open rq st1 in
      (st2, trace1, trace2)
  | (None, trace1) => (None, trace1, [])
  end.

End proxymap_runs.

(** The allow-list as the set of its keys. *)
Definition approved (st : proxy_state) : list string :=
  (proxy_read_maps st).*1.

Definition open_rq (map : string) (flags : Z) : proxy_request :=
  {| prq_scan_request := 1; prq_request := "open"; prq_scan_args := 2;
     prq_map := map; prq_flags := flags; prq_key := "" |}.

Definition lookup_rq (map : string) (flags : Z) (key : string)
  : proxy_request :=
  {| prq_scan_request := 1; prq_request := "lookup"; prq_scan_args := 3;
     prq_map := map; prq_flags := flags; prq_key := key |}.

(** A table that maps "k" to "v", and a [dict_open] that knows it as
    hash:/etc/a. *)
Definition dict_a : DICT :=
  {| dict_flags := 16;
     dict_value := λ key, if String.eqb key "k" then Some "v" else None;
     dict_errno := λ _, 0 |}.

Definition dict_open_a (type_name : string) (open_flags dict_flags : Z)
  : option DICT :=
  if String.eqb type_name "hash:/etc/a" then Some dict_a else None.

(** Requests cut short: the second argument of UPDATE and the argument of
    QUERY are missing. *)
Definition short_update_rq : client_request :=
  {| rq_scan_request := 1; rq_request := "update"; rq_scan_args := 1;
     rq_addr := "u@x"; rq_addr_status := 0; rq_text := "" |}.

Definition short_query_rq : client_request :=
  {| rq_scan_request := 1; rq_request := "query"; rq_scan_args := 0;
     rq_addr := ""; rq_addr_status := 0; rq_text := "" |}.

(** A [proxy_read_maps] setting that approves two tables, one of them
    behind two "proxy:" prefixes, and names a third without approving it. *)
Definition read_maps_a : string :=
  "proxy:unix:passwd.byname hash:/etc/b  proxy:proxy:hash:/etc/a".

(** Whether the proxy knows the name of a request. *)
Definition rq_known `{dict_proxy_h} (rq : proxy_request) : bool :=
  String.eqb (prq_request rq) PROXY_REQ_LOOKUP
  || String.eqb (prq_request rq) PROXY_REQ_OPEN.

(** ** Further notions: tables the verifier can read *)

Section verify_invariants.
Context `{deliver_request_h}.

(** An entry that parses, whose status TODO comes with no update time. *)
Definition entry_wf (raw : string) : Prop :=
  ∃ status probed updated text,
    parse_stored raw = PARSE_OK status probed updated text
    ∧ (status = DEL_RCPT_STAT_TODO → updated = 0).

Definition table_wf (verify_map : gmap string string) : Prop :=
  ∀ key raw, dict_get verify_map key = Some raw → entry_wf raw.

End verify_invariants.

(** The keys a trace writes or deletes. *)
Definition touched_keys (trace : list event) : list string :=
  (dict_puts trace).*1 ++ dict_dels trace.

Definition flushes (trace : list event) : list unit :=
  omap (λ e, match e with Flush => Some () | _ => None end) trace.

(** ** Further notions: octal numbers, tokens of a setting *)

(** The number a string of octal digits stands for. *)
Fixpoint octal_value (acc : Z) (s : string) : Z :=
  match s with
  | String c s' => octal_value (8 * acc + digit_value c) s'
  | EmptyString => acc
  end.

(** The separators of [post_jail_init]: [" \t\r\n"]. *)
Definition read_maps_sep : string :=
  String " " (String "009" (String "013" (String "010" ""))).

(** The tokens [mystrtok] returns, call after call. *)
Fixpoint mystrtok_all (fuel : nat) (bp sep : string) : list string :=
  match fuel with
  | O => []
  | S fuel' =>
      match mystrtok bp sep with
      | None => []
      | Some (token, bp') => token :: mystrtok_all fuel' bp' sep
      end
  end.

Definition read_maps_tokens (var_proxy_read_maps : string) : list string :=
  mystrtok_all (String.length var_proxy_read_maps) var_proxy_read_maps
    read_maps_sep.

Section proxymap_more_runs.
Context `{dict_proxy_h, mail_proto_h}.
Variable dict_open : string → Z → Z → option DICT.

(** An OPEN request, then a LOOKUP request; the second trace is empty when
    the process did not survive the first. *)
Definition proxymap_open_then_lookup (rq1 rq2 : proxy_request)
    (st : proxy_state) : option proxy_state * list event * list event :=
  match proxymap_open_service dict_open rq1 st with
  | (Some st1, trace1) =>
      let '(st2, trace2) := proxymap_lookup_service dict_open rq2 st1 in
      (st2, trace1, trace2)
  | (None, trace1) => (None, trace1, [])
  end.

End proxymap_more_runs.

(** The state the proxy is in after it has opened hash:/etc/a with flags 0
    from the setting [read_maps_a]. *)
Definition state_a_opened : proxy_state :=
  {| proxy_read_maps :=
       proxy_read_maps (@post_jail_init postfix_dict_proxy_h read_maps_a);
     dict_table := [("hash:/etc/a:0", dict_a)] |}.

Section proxymap_setting_notions.
Context `{dict_proxy_h}.

(** What one round of the loop of [post_jail_init] approves. *)
Definition approves (type_name name : string) : Prop :=
  has_prefix PROXY_COLON type_name = true
  ∧ canonical_map_name type_name = name
  ∧ is_Some (strchr name ":").

End proxymap_setting_notions.

(** ** deliver_flock.c: lock an open file for mail delivery *)

(** The operation codes of [myflock.h], which is not among the sources. *)
Class myflock_h := {
  MYFLOCK_OP_EXCLUSIVE : Z;
  MYFLOCK_OP_NOWAIT : Z
}.

(** Conversion to [unsigned int], as for the argument of [sleep]. *)
Definition to_uint (z : Z) : Z := z mod 2 ^ 32.

(** What [deliver_flock] does to the world, in order; [Sleep] carries the
    [unsigned int] that [sleep] is called with. *)
Inductive flock_event :=
  | Sleep (seconds : Z)
  | Myflock (fd lock_style operation : Z)
  | Vsprintf (vp : out_ptr) (format : string).

(** How the [for] loop is left. *)
Inductive flock_loop_end :=
  | LOCKED                            (* return (0) *)
  | GAVE_UP                           (* break *)
  | OUT_OF_FUEL.

Section deliver_flock_c.
Context `{myflock_h}.
Variables var_flock_tries var_flock_delay : Z.
(** What the call of [myflock] in round [i] returns. *)
Variable myflock : Z → Z.

(** [for (i = 0; ; i++) { ... }], from round [i] on.  The loop is left at
    [var_flock_tries] rounds at the latest, so [var_flock_tries] rounds
    and one more test are enough ([deliver_flock_loop_first] and
    [deliver_flock_loop_never] below). *)
Fixpoint deliver_flock_loop (fuel : nat) (fd lock_style i : Z)
  : flock_loop_end * list flock_event :=
  match fuel with
  | O => (OUT_OF_FUEL, [])
  | S fuel' =>
      if i >=? var_flock_tries then (GAVE_UP, [])
      else
        let slept :=
          if i >? 0 then [Sleep (to_uint var_flock_delay)] else [] in
        let called :=
          [Myflock fd lock_style
             (Z.lor MYFLOCK_OP_EXCLUSIVE MYFLOCK_OP_NOWAIT)] in
        if myflock i =? 0 then (LOCKED, slept ++ called)
        else
          let '(how, trace) :=
            deliver_flock_loop fuel' fd lock_style (to_int (i + 1)) in
          (how, slept ++ called ++ trace)
  end.

(** [deliver_flock(fd, lock_style, why)]: the result, [None] when the
    loop is cut short, and what was done. *)
Definition deliver_flock (fd lock_style : Z) (why : out_ptr)
  : option Z * list flock_event :=
  match deliver_flock_loop (S (Z.to_nat var_flock_tries)) fd lock_style 0 with
  | (LOCKED, trace) => (Some 0, trace)
  | (GAVE_UP, trace) =>
      (Some (-1),
       trace ++
       if non_null why
       then [Vsprintf why "unable to lock for exclusive access: %m"]
       else [])
  | (OUT_OF_FUEL, trace) => (None, trace)
  end.

(** One attempt to lock. *)
Definition flock_call (fd lock_style : Z) : flock_event :=
  Myflock fd lock_style (Z.lor MYFLOCK_OP_EXCLUSIVE MYFLOCK_OP_NOWAIT).

(** [n] attempts to lock, with a pause of [var_flock_delay] seconds,
    taken as [unsigned int], before each but the first. *)
Definition flock_attempts (n : nat) (fd lock_style : Z) : list flock_event :=
  match n with
  | O => []
  | S n' =>
      flock_call fd lock_style
      :: concat (replicate n'
                   [Sleep (to_uint var_flock_delay);
                    flock_call fd lock_style])
  end.

End deliver_flock_c.

(** The locking attempts and the pauses of a trace. *)
Definition myflock_calls (trace : list flock_event) : list (Z * Z * Z) :=
  omap (λ e, match e with Myflock fd s op => Some (fd, s, op) | _ => None end)
    trace.

Definition sleeps (trace : list flock_event) : list Z :=
  omap (λ e, match e with Sleep seconds => Some seconds | _ => None end)
    trace.

(** ** virtual8_maps_find.c: lookups for the virtual delivery agent *)

(** [strrchr(s, c)]: the suffix of [s] that starts at the last [c]. *)
Fixpoint strrchr (s : string) (c : ascii) : option string :=
  match s with
  | String a s' =>
      match strrchr s' c with
      | Some found => Some found
      | None => if Ascii.eqb a c then Some s else None
      end
  | EmptyString => None
  end.

Section virtual8_maps_find_c.
(** [DICT_FLAG_FIXED] of [dict.h], which is not among the sources. *)
Variable DICT_FLAG_FIXED : Z.
Variable var_rcpt_delim : string.
(** [strip_addr(full, 0, delim)] of [strip_addr.c], which is not
    among the sources: a copy of the address without its extension, or
    [None] for the null pointer. *)
Variable strip_addr : string → ascii → option string.
(** [maps_find(maps, key, flags)] for the [maps] at hand: the result,
    [None] for the null pointer, and what the call leaves in
    [dict_errno]. *)
Variable maps_find : string → Z → option string * Z.

(** [result != 0 || dict_errno != 0] *)
Definition decided (found : option string * Z) : bool :=
  bool_decide (found.1 ≠ None) || negb (found.2 =? 0).

(** [virtual8_maps_find(maps, recipient)]: the result, the value of
    [dict_errno] on return, and the keys looked up, in order.
    [*var_rcpt_delim] is the first character of the setting, and 0 when
    the setting is empty. *)
Definition virtual8_maps_find (recipient : string)
  : option string * Z * list string :=
  let full_then_domain (looked : list string) :=
    let found := maps_find recipient DICT_FLAG_FIXED in
    if decided found then (found.1, found.2, looked ++ [recipient])
    else
      match strrchr recipient "@" with
      | None => (None, found.2, looked ++ [recipient])
      | Some ratsign =>
          let found := maps_find ratsign DICT_FLAG_FIXED in
          (found.1, found.2, looked ++ [recipient; ratsign])
      end in
  match
    match var_rcpt_delim with
    | String delim _ => strip_addr recipient delim
    | EmptyString => None
    end
  with
  | Some bare =>
      let found := maps_find bare DICT_FLAG_FIXED in
      if decided found then (found.1, found.2, [bare])
      else full_then_domain [bare]
  | None => full_then_domain []
  end.

(** The keys that a recipient can be found under: the address without
    its extension, the address, the part from the last "@" on. *)
Definition candidates (recipient : string) : list string :=
  option_list
    match var_rcpt_delim with
    | String delim _ => strip_addr recipient delim
    | EmptyString => None
    end
  ++ [recipient] ++ option_list (strrchr recipient "@").

(** Look the keys up in order, up to the first lookup that finds a value
    or fails. *)
Fixpoint maps_find_first (keys : list string)
  : option string * Z * list string :=
  match keys with
  | [] => (None, 0, [])
  | key :: keys' =>
      let found := maps_find key DICT_FLAG_FIXED in
      if decided found then (found.1, found.2, [key])
      else
        let '(result, dict_errno, looked) := maps_find_first keys' in
        (result, dict_errno, key :: looked)
  end.

End virtual8_maps_find_c.

(** Tables to run the lookups on: no recipient delimiter is set, and the
    maps hold a catch-all for example.com only. *)
Definition postfix_myflock_h : myflock_h :=
  {| MYFLOCK_OP_EXCLUSIVE := 2; MYFLOCK_OP_NOWAIT := 4 |}.

Definition strip_addr_off (full : string) (delim : ascii) : option string :=
  None.

Definition maps_find_a (key : string) (flags : Z) : option string * Z :=
  if String.eqb key "@example.com" then (Some "example.com/", 0)
  else (None, 0).

(** A lock that is free at the third attempt, and one that is never. *)
Definition myflock_third (i : Z) : Z := if i =? 2 then 0 else -1.
Definition myflock_never (i : Z) : Z := -1.

(* ===================================================================== *)
(** * Part II: properties *)
(* ===================================================================== *)

(** ** Strings *)

Lemma app_String (c : ascii) (s t : string) :
  String c s +:+ t = String c (s +:+ t).
Proof. reflexivity. Qed.

Lemma app_char (c : ascii) (s : string) : String c "" +:+ s = String c s.
Proof. reflexivity. Qed.

Lemma app_assoc_s (s t u : string) : (s +:+ t) +:+ u = s +:+ t +:+ u.
Proof. induction s as [|c s IH]; [done | by rewrite !app_String, IH]. Qed.

Lemma app_empty_r (s : string) : s +:+ "" = s.
Proof. induction s as [|c s IH]; [done | by rewrite app_String, IH]. Qed.

Lemma length_app_s (s t : string) :
  String.length (s +:+ t) = (String.length s + String.length t)%nat.
Proof.
  induction s as [|c s IH]; [done |]. rewrite app_String. simpl. by rewrite IH.
Qed.

Lemma has_prefix_app (p s : string) : has_prefix p (p +:+ s) = true.
Proof.
  unfold has_prefix. induction p as [|c p IH]; [by destruct s |].
  rewrite app_String. simpl. by destruct (ascii_dec c c).
Qed.

Lemma has_prefix_inv (p s : string) :
  has_prefix p s = true → s = p +:+ advance (String.length p) s.
Proof.
  unfold has_prefix. revert s. induction p as [|c p IH]; intros s Hp.
  - by destruct s.
  - destruct s as [|a s]; simpl in Hp; [done |].
    destruct (ascii_dec c a) as [->|]; [|done].
    rewrite app_String. simpl. f_equal. by apply IH.
Qed.

Lemma advance_app (p s : string) : advance (String.length p) (p +:+ s) = s.
Proof. induction p as [|c p IH]; [by destruct s | by rewrite app_String]. Qed.

(** ** [split_at] and [strchr] *)

Lemma split_at_app (head rest : string) (c : ascii) :
  strchr head c = None →
  split_at (head +:+ String c rest) c = Some (head, rest).
Proof.
  induction head as [|a head IH]; simpl; intros Hc.
  - change ("" +:+ String c rest) with (String c rest). simpl.
    by rewrite Ascii.eqb_refl.
  - destruct (Ascii.eqb a c); [done |]. by rewrite IH.
Qed.

Lemma split_at_inv (s head rest : string) (c : ascii) :
  split_at s c = Some (head, rest) →
  s = head +:+ String c rest ∧ strchr head c = None.
Proof.
  revert head. induction s as [|a s IH]; simpl; intros head Hs; [done |].
  destruct (Ascii.eqb a c) eqn:Hac.
  - apply Ascii.eqb_eq in Hac as ->. by simplify_eq.
  - destruct (split_at s c) as [[h t]|]; simplify_eq.
    destruct (IH h eq_refl) as [-> Hh]. simpl. by rewrite Hac.
Qed.

Lemma split_at_None (s : string) (c : ascii) :
  split_at s c = None ↔ strchr s c = None.
Proof.
  induction s as [|a s IH]; simpl; [done |].
  destruct (Ascii.eqb a c); [done |].
  destruct (split_at s c) as [[h t]|]; [|tauto].
  split; [done |]. intros Hs. by apply IH in Hs.
Qed.

(** ** C integers *)

Lemma to_int_id (z : Z) : is_int z → to_int z = z.
Proof.
  unfold is_int, INT_MIN, INT_MAX, to_int, wrap_signed. intros Hz.
  rewrite Z.mod_small; lia.
Qed.

Lemma to_long_id (z : Z) : is_long z → to_long z = z.
Proof.
  unfold is_long, LONG_MIN, LONG_MAX, to_long, wrap_signed. intros Hz.
  rewrite Z.mod_small; lia.
Qed.

Lemma to_int_is_int (z : Z) : is_int (to_int z).
Proof.
  unfold is_int, INT_MIN, INT_MAX, to_int, wrap_signed.
  pose proof (Z.mod_pos_bound (z + 2 ^ (32 - 1)) (2 ^ 32)). lia.
Qed.

Lemma to_long_is_long (z : Z) : is_long (to_long z).
Proof.
  unfold is_long, LONG_MIN, LONG_MAX, to_long, wrap_signed.
  pose proof (Z.mod_pos_bound (z + 2 ^ (64 - 1)) (2 ^ 64)). lia.
Qed.

Lemma is_int_is_long (z : Z) : is_int z → is_long z.
Proof. unfold is_int, is_long, INT_MIN, INT_MAX, LONG_MIN, LONG_MAX. lia. Qed.

(** ** [strtol] reads back what [%d] and [%ld] print *)

Lemma isdigit_not_space_sign (c : ascii) :
  isdigit c = true →
  isspace c = false ∧ Ascii.eqb c "-" = false ∧ Ascii.eqb c "+" = false.
Proof. destruct c as [[] [] [] [] [] [] [] []]; done. Qed.

Lemma strtol_digits_stop (acc : Z) (s : string) :
  ends_number s → strtol_digits acc s = acc.
Proof. destruct s as [|c s]; simpl; [done | by intros ->]. Qed.

Lemma strtol_digits_uint (d d' : uint) (rest : string) :
  strtol_digits (Z.of_N (Unsigned.of_lu d'))
    (NilEmpty.string_of_uint d +:+ rest)
  = strtol_digits (Z.of_N (Unsigned.of_lu (Decimal.revapp d d'))) rest.
Proof.
  revert d'. induction d as [|d IH|d IH|d IH|d IH|d IH|d IH|d IH|d IH|d IH|d IH];
    intros d'; [done | ..];
    simpl NilEmpty.string_of_uint; rewrite app_String;
    simpl strtol_digits; simpl Decimal.revapp; rewrite <- IH; f_equal;
    simpl Unsigned.of_lu; unfold digit_value; simpl N_of_ascii; lia.
Qed.

Lemma strtol_digits_to_uint (p : positive) (rest : string) :
  ends_number rest →
  strtol_digits 0 (NilEmpty.string_of_uint (Pos.to_uint p) +:+ rest)
  = Z.pos p.
Proof.
  intros Hrest.
  change 0 with (Z.of_N (Unsigned.of_lu Nil)).
  rewrite strtol_digits_uint, strtol_digits_stop by done.
  change (Decimal.revapp (Pos.to_uint p) Nil) with (Decimal.rev (Pos.to_uint p)).
  by rewrite <- Unsigned.of_uint_alt, Unsigned.of_to.
Qed.

Lemma string_of_uint_head (d : uint) :
  d ≠ Nil →
  ∃ c s, NilEmpty.string_of_uint d = String c s ∧ isdigit c = true.
Proof. destruct d; [done | simpl; eauto..]. Qed.

Lemma skip_isspace_stop (c : ascii) (s : string) :
  isspace c = false → skip_isspace (String c s) = String c s.
Proof. simpl. by intros ->. Qed.

Lemma strtol_fmt_d (z : Z) (rest : string) :
  is_long z → ends_number rest → strtol (fmt_d z +:+ rest) = z.
Proof.
  unfold is_long, LONG_MIN, LONG_MAX. intros Hz Hrest.
  unfold strtol, fmt_d. destruct z as [|p|p]; simpl Z.to_int.
  - simpl. rewrite strtol_digits_stop by done. done.
  - pose proof (strtol_digits_to_uint p rest Hrest) as Hp.
    destruct (string_of_uint_head (Pos.to_uint p)) as (c & s & Hs & Hc);
      [apply Unsigned.to_uint_nonnil |].
    simpl NilEmpty.string_of_int. rewrite Hs in *. rewrite app_String in *.
    destruct (isdigit_not_space_sign c Hc) as (Hsp & Hm & Hpl).
    rewrite skip_isspace_stop, Hm, Hpl, Hp by done. unfold LONG_MAX. lia.
  - pose proof (strtol_digits_to_uint p rest Hrest) as Hp.
    simpl NilEmpty.string_of_int. rewrite app_String.
    rewrite skip_isspace_stop by done. change ("-" =? "-")%char with true.
    cbv iota. rewrite Hp. unfold LONG_MIN. lia.
Qed.

Lemma atol_fmt_ld (z : Z) (rest : string) :
  is_long z → ends_number rest → atol (fmt_ld z +:+ rest) = z.
Proof. apply strtol_fmt_d. Qed.

Lemma atoi_fmt_d (z : Z) (rest : string) :
  is_int z → ends_number rest → atoi (fmt_d z +:+ rest) = z.
Proof.
  intros Hz Hrest. unfold atoi.
  rewrite strtol_fmt_d by auto using is_int_is_long. by apply to_int_id.
Qed.

(** What [%d] prints holds no colon. *)
Lemma strchr_string_of_uint (d : uint) :
  strchr (NilEmpty.string_of_uint d) ":" = None.
Proof. induction d; simpl; done. Qed.

Lemma strchr_fmt_d (z : Z) : strchr (fmt_d z) ":" = None.
Proof.
  unfold fmt_d. destruct z; simpl; auto using strchr_string_of_uint.
Qed.

(** ** The entry codec of verify.c *)

Section codec.
Context `{deliver_request_h}.

Lemma atoi_fmt_d_exact (z : Z) : is_int z → atoi (fmt_d z) = z.
Proof.
  intros Hz. rewrite <- (app_empty_r (fmt_d z)). by apply atoi_fmt_d.
Qed.

Lemma atol_fmt_ld_exact (z : Z) : is_long z → atol (fmt_ld z) = z.
Proof.
  intros Hz. rewrite <- (app_empty_r (fmt_ld z)). by apply atol_fmt_ld.
Qed.

(** The fields [verify_parse_entry] cuts an entry into. *)
Lemma verify_parse_entry_fields (f0 f1 f2 rest : string)
    (status probed updated text : out_ptr) :
  strchr f0 ":" = None → strchr f1 ":" = None → strchr f2 ":" = None →
  non_null status = true → non_null probed = true →
  non_null updated = true → non_null text = true →
  verify_parse_entry (f0 +:+ ":" +:+ f1 +:+ ":" +:+ f2 +:+ ":" +:+ rest)
    status probed updated text
  = if is_rcpt_stat (atoi f0)
    then PARSE_OK (atoi f0) (atol f1) (atol f2) rest
    else PARSE_BAD.
Proof.
  intros H0 H1 H2 Hs Hp Hu Ht. unfold verify_parse_entry.
  rewrite !app_char, !split_at_app by done.
  rewrite Hs, Hp, Hu, Ht. simpl. by rewrite andb_true_r.
Qed.

(** C6: an entry written by [verify_make_entry] is read back by
    [verify_parse_entry] as it was written, whatever the text holds (a
    colon, a newline, nothing): the entry is cut at its first three colons
    only.  The status is one of the four codes; status, probed and updated
    are values of their C types, [int] and [long]. *)
Theorem verify_entry_roundtrip (status probed updated : Z) (text : string)
    (status_p probed_p updated_p text_p : out_ptr) :
  is_rcpt_stat status = true →
  is_int status → is_long probed → is_long updated →
  non_null status_p = true → non_null probed_p = true →
  non_null updated_p = true → non_null text_p = true →
  verify_parse_entry (verify_make_entry status probed updated text)
    status_p probed_p updated_p text_p
  = PARSE_OK status probed updated text.
Proof.
  intros Hcode Hs Hp Hu ????. unfold verify_make_entry.
  rewrite verify_parse_entry_fields by auto using strchr_fmt_d.
  rewrite atoi_fmt_d_exact, !atol_fmt_ld_exact by done.
  by rewrite Hcode.
Qed.

End codec.

Section codec_examples.
#[local] Existing Instance postfix_deliver_request_h.

Lemma verify_entry_roundtrip_witness :
  is_rcpt_stat 0 = true ∧ is_int 0 ∧ is_long 0 ∧ is_long 110 ∧
  verify_parse_entry
    (verify_make_entry 0 0 110 "250 2.1.5 Ok: queued as 4F1D2:relay")
    (ADDR_OF "addr_status") (ADDR_OF "probed") (ADDR_OF "updated")
    (ADDR_OF "text")
  = PARSE_OK 0 0 110 "250 2.1.5 Ok: queued as 4F1D2:relay".
Proof.
  assert (Hi : is_int 0) by (unfold is_int, INT_MIN, INT_MAX; lia).
  assert (Hl0 : is_long 0) by (unfold is_long, LONG_MIN, LONG_MAX; lia).
  assert (Hl : is_long 110) by (unfold is_long, LONG_MIN, LONG_MAX; lia).
  split; [reflexivity |]. do 3 (split; [assumption |]).
  apply (verify_entry_roundtrip 0 0 110); (assumption || reflexivity).
Defined.

End codec_examples.

(** ** [strtol] stops at a colon *)

Lemma skip_isspace_app (h t : string) (c : ascii) :
  isspace c = false →
  skip_isspace (h +:+ String c t) = skip_isspace h +:+ String c t.
Proof.
  intros Hc. induction h as [|a h IH].
  - change ("" +:+ String c t) with (String c t). simpl. by rewrite Hc.
  - rewrite app_String. simpl. destruct (isspace a); [done |].
    by rewrite app_String.
Qed.

Lemma strtol_digits_app (acc : Z) (h t : string) (c : ascii) :
  isdigit c = false →
  strtol_digits acc (h +:+ String c t) = strtol_digits acc h.
Proof.
  intros Hc. revert acc. induction h as [|a h IH]; intros acc.
  - change ("" +:+ String c t) with (String c t). simpl. by rewrite Hc.
  - rewrite app_String. simpl. by destruct (isdigit a).
Qed.

Lemma strtol_app (h t : string) (c : ascii) :
  non_numeric (String c t) → strtol (h +:+ String c t) = strtol h.
Proof.
  intros (Hsp & Hd & Hm & Hp). unfold strtol.
  rewrite skip_isspace_app by done.
  destruct (skip_isspace h) as [|a s].
  - change ("" +:+ String c t) with (String c t). cbv beta iota.
    rewrite Hm, Hp. simpl. by rewrite Hd.
  - rewrite app_String. cbv beta iota.
    rewrite (strtol_digits_app 0 s) by done.
    by rewrite <- (app_String a s), strtol_digits_app.
Qed.

Lemma strtol_non_numeric (s : string) : non_numeric s → strtol s = 0.
Proof.
  destruct s as [|c s]; [done |]. intros (Hsp & Hd & Hm & Hp).
  unfold strtol. rewrite skip_isspace_stop, Hm, Hp by done.
  simpl. by rewrite Hd.
Qed.

Lemma atoi_leading_field (raw : string) : atoi (leading_field raw) = atoi raw.
Proof.
  unfold leading_field. destruct (split_at raw ":") as [[f0 rest]|] eqn:Hs;
    [|done].
  apply split_at_inv in Hs as [-> _]. unfold atoi. by rewrite strtol_app.
Qed.

Lemma count_char_split (c : ascii) (s : string) (n : nat) :
  count_char c s = S n →
  ∃ head rest, split_at s c = Some (head, rest) ∧ count_char c rest = n.
Proof.
  induction s as [|a s IH]; simpl; [done |].
  destruct (Ascii.eqb a c); simpl.
  - intros [= <-]. eauto.
  - intros Hn. destruct (IH Hn) as (h & t & -> & Ht). eauto.
Qed.

Lemma three_colons (raw : string) :
  (3 ≤ count_char ":" raw)%nat →
  ∃ f0 f1 f2 text,
    raw = f0 +:+ ":" +:+ f1 +:+ ":" +:+ f2 +:+ ":" +:+ text
    ∧ strchr f0 ":" = None ∧ strchr f1 ":" = None ∧ strchr f2 ":" = None.
Proof.
  intros Hn.
  destruct (count_char ":" raw) as [|n0] eqn:H0; [lia |].
  destruct (count_char_split _ _ _ H0) as (f0 & r0 & Hs0 & H1).
  destruct n0 as [|n1]; [lia |].
  destruct (count_char_split _ _ _ H1) as (f1 & r1 & Hs1 & H2).
  destruct n1 as [|n2]; [lia |].
  destruct (count_char_split _ _ _ H2) as (f2 & r2 & Hs2 & _).
  apply split_at_inv in Hs0 as [-> ?], Hs1 as [-> ?], Hs2 as [-> ?].
  by exists f0, f1, f2, r2.
Qed.

(** ** What [verify_parse_entry] accepts *)

Section parse_guard.
Context `{deliver_request_h}.

(** With the addresses of variables for result arguments, the parser
    never stores through a null pointer. *)
Lemma verify_parse_entry_defined (raw : string)
    (status probed updated text : out_ptr) :
  non_null status = true → non_null probed = true →
  non_null updated = true → non_null text = true →
  verify_parse_entry raw status probed updated text ≠ PARSE_UB.
Proof.
  intros Hs Hp Hu Ht. unfold verify_parse_entry.
  rewrite Hs, Hp, Hu, Ht. simpl. by repeat case_match.
Qed.

(** The status of an entry that parses is what the quick test
    [STATUS_FROM_RAW_ENTRY] finds. *)
Lemma STATUS_FROM_RAW_ENTRY_parsed (raw : string)
    (status_p probed_p updated_p text_p : out_ptr)
    (status probed updated : Z) (text : string) :
  verify_parse_entry raw status_p probed_p updated_p text_p
  = PARSE_OK status probed updated text →
  STATUS_FROM_RAW_ENTRY raw = status.
Proof.
  unfold verify_parse_entry, STATUS_FROM_RAW_ENTRY.
  rewrite <- atoi_leading_field. unfold leading_field.
  destruct (split_at raw ":") as [[f0 r0]|]; [|done].
  intros Hparse. repeat case_match; by simplify_eq.
Qed.

(** C9: an entry with at least three colons whose leading field reads as
    one of the four status codes is accepted, whatever stands in the
    probed and updated fields.  The test [(probed || updated)] looks at
    the result pointers, so it rejects nothing: no choice of pointers
    makes the parser return -1 on such an entry.  A probed or updated
    field that holds no number is read as 0. *)
Theorem verify_parse_entry_accepts (raw : string) :
  (3 ≤ count_char ":" raw)%nat →
  is_rcpt_stat (atoi (leading_field raw)) = true →
  ∃ f0 f1 f2 text,
    raw = f0 +:+ ":" +:+ f1 +:+ ":" +:+ f2 +:+ ":" +:+ text
    ∧ (∀ status_p probed_p updated_p text_p,
         non_null status_p = true → non_null probed_p = true →
         non_null updated_p = true → non_null text_p = true →
         verify_parse_entry raw status_p probed_p updated_p text_p
         = PARSE_OK (atoi f0) (atol f1) (atol f2) text)
    ∧ (∀ status_p probed_p updated_p text_p,
         verify_parse_entry raw status_p probed_p updated_p text_p
         ≠ PARSE_BAD)
    ∧ (non_numeric f1 → atol f1 = 0)
    ∧ (non_numeric f2 → atol f2 = 0).
Proof.
  intros Hn Hcode.
  destruct (three_colons raw Hn) as (f0 & f1 & f2 & text & -> & H0 & H1 & H2).
  assert (Hf0 : is_rcpt_stat (atoi f0) = true).
  { rewrite !app_char in Hcode. unfold leading_field in Hcode.
    by rewrite split_at_app in Hcode. }
  exists f0, f1, f2, text. split_and!; [done | | | apply strtol_non_numeric..].
  - intros ???? Hs Hp Hu Ht.
    rewrite verify_parse_entry_fields by done. by rewrite Hf0.
  - intros sp pp up tp. unfold verify_parse_entry.
    rewrite !app_char, !split_at_app by done. rewrite Hf0.
    destruct sp, pp, up, tp; done.
Qed.

End parse_guard.

Section parse_guard_examples.
#[local] Existing Instance postfix_deliver_request_h.

Lemma verify_parse_entry_accepts_witness :
  (3 ≤ count_char ":" "2:never:n/a:550 5.1.1 User unknown")%nat
  ∧ is_rcpt_stat (atoi (leading_field "2:never:n/a:550 5.1.1 User unknown"))
    = true
  ∧ ∃ f0 f1 f2 text,
      "2:never:n/a:550 5.1.1 User unknown"
      = f0 +:+ ":" +:+ f1 +:+ ":" +:+ f2 +:+ ":" +:+ text
      ∧ (∀ status_p probed_p updated_p text_p,
           non_null status_p = true → non_null probed_p = true →
           non_null updated_p = true → non_null text_p = true →
           verify_parse_entry "2:never:n/a:550 5.1.1 User unknown"
             status_p probed_p updated_p text_p
           = PARSE_OK (atoi f0) (atol f1) (atol f2) text)
      ∧ (∀ status_p probed_p updated_p text_p,
           verify_parse_entry "2:never:n/a:550 5.1.1 User unknown"
             status_p probed_p updated_p text_p
           ≠ PARSE_BAD)
      ∧ (non_numeric f1 → atol f1 = 0)
      ∧ (non_numeric f2 → atol f2 = 0).
Proof.
  split; [vm_compute; lia |]. split; [reflexivity |].
  apply (verify_parse_entry_accepts "2:never:n/a:550 5.1.1 User unknown");
    [vm_compute; lia | reflexivity].
Defined.

(** The same entry, run. *)
Example verify_parse_entry_non_numeric :
  verify_parse_entry "2:never:n/a:550 5.1.1 User unknown"
    (ADDR_OF "addr_status") (ADDR_OF "probed") (ADDR_OF "updated")
    (ADDR_OF "text")
  = PARSE_OK 2 0 0 "550 5.1.1 User unknown".
Proof. reflexivity. Qed.

End parse_guard_examples.

(** ** The recipient status codes *)

Section rcpt_stat.
Context `{deliver_request_h}.

Lemma rcpt_stat_distinct :
  rcpt_stat_wf →
  DEL_RCPT_STAT_DEFER ≠ DEL_RCPT_STAT_OK
  ∧ DEL_RCPT_STAT_BOUNCE ≠ DEL_RCPT_STAT_OK
  ∧ DEL_RCPT_STAT_TODO ≠ DEL_RCPT_STAT_OK
  ∧ DEL_RCPT_STAT_TODO ≠ DEL_RCPT_STAT_DEFER
  ∧ DEL_RCPT_STAT_TODO ≠ DEL_RCPT_STAT_BOUNCE.
Proof.
  intros [Hnd _]. unfold rcpt_stat_codes in Hnd.
  apply NoDup_cons in Hnd as [H1 Hnd]. apply NoDup_cons in Hnd as [H2 Hnd].
  apply NoDup_cons in Hnd as [H3 _].
  rewrite !not_elem_of_cons in H1. rewrite !not_elem_of_cons in H2.
  rewrite !not_elem_of_cons in H3. intuition congruence.
Qed.

Lemma rcpt_stat_is_int (status : Z) :
  rcpt_stat_wf → is_rcpt_stat status = true → is_int status.
Proof.
  intros [_ Hint]. unfold rcpt_stat_codes in Hint.
  rewrite !Forall_cons in Hint. unfold is_rcpt_stat.
  rewrite !orb_true_iff, !Z.eqb_eq. intuition congruence.
Qed.

Lemma is_rcpt_stat_TODO : is_rcpt_stat DEL_RCPT_STAT_TODO = true.
Proof. unfold is_rcpt_stat. by rewrite Z.eqb_refl, !orb_true_r. Qed.

End rcpt_stat.

(** ** UPDATE: an OK entry is not replaced by a failed probe *)

Section update.
Context `{deliver_request_h, verify_clnt_h, mail_proto_h}.

(** A failed probe for an address leaves the OK entry of any address in
    place. *)
Lemma verify_update_keeps_ok (now : Z) (rq : client_request)
    (verify_map : gmap string string) (addr raw : string) :
  rq_addr_status rq ≠ DEL_RCPT_STAT_OK →
  dict_get verify_map addr = Some raw →
  STATUS_FROM_RAW_ENTRY raw = DEL_RCPT_STAT_OK →
  dict_get (verify_update_service now rq verify_map).1 addr = Some raw.
Proof.
  intros Hst Hget Hok. unfold verify_update_service.
  destruct (rq_scan_args rq =? 3); [|done].
  destruct (verify_stat2name (rq_addr_status rq)); [|done].
  apply Z.eqb_neq in Hst. rewrite Hst. simpl.
  destruct (decide (rq_addr rq = addr)) as [->|Hne].
  - by rewrite Hget, Hok, Z.eqb_refl.
  - case_match; [|done]. simpl. unfold dict_get, dict_put in *.
    by rewrite lookup_insert_ne.
Qed.

(** C1: for a stored entry whose status is OK, an UPDATE with status
    DEFER or BOUNCE for its address leaves the whole table as it is and
    is answered with status OK; and after any sequence of UPDATE requests
    with status DEFER or BOUNCE the entry is still the very same
    string. *)
Theorem verify_update_protects_ok (verify_map : gmap string string)
    (addr raw : string) (status_p probed_p updated_p text_p : out_ptr)
    (probed updated : Z) (text : string) :
  rcpt_stat_wf →
  dict_get verify_map addr = Some raw →
  verify_parse_entry raw status_p probed_p updated_p text_p
  = PARSE_OK DEL_RCPT_STAT_OK probed updated text →
  (∀ now rq,
     rq_scan_args rq = 3 → rq_addr rq = addr →
     rq_addr_status rq = DEL_RCPT_STAT_DEFER
     ∨ rq_addr_status rq = DEL_RCPT_STAT_BOUNCE →
     verify_update_service now rq verify_map
     = (verify_map, [Reply [ATTR_NUM MAIL_ATTR_STATUS VRFY_STAT_OK]]))
  ∧ (∀ rqs,
       Forall (λ nrq : Z * client_request,
                 rq_addr_status nrq.2 = DEL_RCPT_STAT_DEFER
                 ∨ rq_addr_status nrq.2 = DEL_RCPT_STAT_BOUNCE) rqs →
       dict_get (verify_updates rqs verify_map).1 addr = Some raw).
Proof.
  intros Hwf Hget Hparse.
  destruct (rcpt_stat_distinct Hwf) as (Hd & Hb & _).
  apply STATUS_FROM_RAW_ENTRY_parsed in Hparse as Hok. split.
  - intros now rq Hscan Haddr Hst. unfold verify_update_service.
    rewrite Hscan, Haddr, Hget, Hok. simpl.
    assert ((rq_addr_status rq =? DEL_RCPT_STAT_OK) = false) as ->
      by (apply Z.eqb_neq; destruct Hst; congruence).
    rewrite Z.eqb_refl. simpl. unfold verify_stat2name.
    destruct Hst as [-> | ->]; rewrite ?Z.eqb_refl;
      repeat case_match; done.
  - intros rqs Hrqs. revert verify_map Hget.
    induction Hrqs as [|[now rq] rqs Hst _ IH]; intros verify_map Hget;
      [done |].
    simpl. pose proof (verify_update_keeps_ok now rq verify_map addr raw)
      as Hstep.
    destruct (verify_update_service now rq verify_map) as [map1 trace1].
    specialize (IH map1).
    destruct (verify_updates rqs map1) as [map2 trace2]. simpl in *.
    apply IH, Hstep; [destruct Hst; congruence | done..].
Qed.

End update.

Lemma postfix_rcpt_stat_wf : @rcpt_stat_wf postfix_deliver_request_h.
Proof.
  split.
  - apply (bool_decide_unpack _). by vm_compute.
  - repeat constructor; unfold is_int, INT_MIN, INT_MAX; simpl; lia.
Qed.

Section update_examples.
#[local] Existing Instance postfix_deliver_request_h.
#[local] Existing Instance postfix_verify_clnt_h.
#[local] Existing Instance postfix_mail_proto_h.

Lemma verify_update_protects_ok_witness :
  rcpt_stat_wf
  ∧ dict_get map_with_ok "u@x" = Some "0:0:110:250 ok"
  ∧ verify_parse_entry "0:0:110:250 ok" (ADDR_OF "addr_status")
      (ADDR_OF "probed") (ADDR_OF "updated") (ADDR_OF "text")
    = PARSE_OK DEL_RCPT_STAT_OK 0 110 "250 ok"
  ∧ (∀ now rq,
       rq_scan_args rq = 3 → rq_addr rq = "u@x" →
       rq_addr_status rq = DEL_RCPT_STAT_DEFER
       ∨ rq_addr_status rq = DEL_RCPT_STAT_BOUNCE →
       verify_update_service now rq map_with_ok
       = (map_with_ok, [Reply [ATTR_NUM MAIL_ATTR_STATUS VRFY_STAT_OK]]))
  ∧ (∀ rqs,
       Forall (λ nrq : Z * client_request,
                 rq_addr_status nrq.2 = DEL_RCPT_STAT_DEFER
                 ∨ rq_addr_status nrq.2 = DEL_RCPT_STAT_BOUNCE) rqs →
       dict_get (verify_updates rqs map_with_ok).1 "u@x"
       = Some "0:0:110:250 ok").
Proof.
  split; [exact postfix_rcpt_stat_wf |].
  split; [reflexivity |]. split; [reflexivity |].
  apply (verify_update_protects_ok map_with_ok "u@x" "0:0:110:250 ok"
           (ADDR_OF "addr_status") (ADDR_OF "probed") (ADDR_OF "updated")
           (ADDR_OF "text") 0 110 "250 ok");
    [exact postfix_rcpt_stat_wf | reflexivity | reflexivity].
Defined.

(** Scenario "Sticky OK": a DEFER at time 120 changes nothing. *)
Example sticky_ok :
  verify_update_service 120 (update_rq "u@x" 1 "451 try later") map_with_ok
  = (map_with_ok, [Reply [ATTR_NUM "status" 0]]).
Proof. reflexivity. Qed.

(** Scenario "Probe result applied". *)
Example probe_result_applied :
  verify_update_service 110 (update_rq "u@x" 0 "250 ok") ∅
  = (map_with_ok,
     [DictPut "u@x" "0:0:110:250 ok"; Reply [ATTR_NUM "status" 0]]).
Proof. reflexivity. Qed.

End update_examples.

(** ** Traces *)

Lemma replies_app (t1 t2 : list event) :
  replies (t1 ++ t2) = replies t1 ++ replies t2.
Proof. apply omap_app. Qed.

Lemma probes_app (t1 t2 : list event) :
  probes (t1 ++ t2) = probes t1 ++ probes t2.
Proof. apply omap_app. Qed.

Lemma dict_puts_app (t1 t2 : list event) :
  dict_puts (t1 ++ t2) = dict_puts t1 ++ dict_puts t2.
Proof. apply omap_app. Qed.

Lemma dict_dels_app (t1 t2 : list event) :
  dict_dels (t1 ++ t2) = dict_dels t1 ++ dict_dels t2.
Proof. apply omap_app. Qed.

Lemma replies_cons (e : event) (t : list event) :
  replies (e :: t)
  = match e with Reply attrs => attrs :: replies t | _ => replies t end.
Proof. by destruct e. Qed.

Lemma probes_cons (e : event) (t : list event) :
  probes (e :: t)
  = match e with Probe s r q => (s, r, q) :: probes t | _ => probes t end.
Proof. by destruct e. Qed.

Lemma dict_puts_cons (e : event) (t : list event) :
  dict_puts (e :: t)
  = match e with DictPut k v => (k, v) :: dict_puts t | _ => dict_puts t end.
Proof. by destruct e. Qed.

Lemma dict_dels_cons (e : event) (t : list event) :
  dict_dels (e :: t)
  = match e with DictDel k => k :: dict_dels t | _ => dict_dels t end.
Proof. by destruct e. Qed.

Lemma queued_probes_app (t1 t2 : list event) :
  queued_probes (t1 ++ t2) = queued_probes t1 ++ queued_probes t2.
Proof. unfold queued_probes. by rewrite probes_app, filter_app. Qed.

Lemma queued_probes_reply (attrs : list attr) (t : list event) :
  queued_probes (Reply attrs :: t) = queued_probes t.
Proof. reflexivity. Qed.

(** ** QUERY *)

Section query.
Context `{deliver_request_h, verify_clnt_h, mail_proto_h}.
Variable params : verify_params.

Lemma query_miss_spec (now : Z) (raw_data : option string) :
  (query_miss params now raw_data).1 = true
  ↔ query_misses params now raw_data.
Proof.
  unfold query_miss, query_misses.
  destruct raw_data as [raw|]; [|by intuition].
  fold (parse_stored raw).
  pose proof (verify_parse_entry_defined raw (ADDR_OF "addr_status")
    (ADDR_OF "probed") (ADDR_OF "updated") (ADDR_OF "text")) as Hdef.
  fold (parse_stored raw) in Hdef.
  destruct (parse_stored raw) as [st pr up tx| |] eqn:Hparse; simpl.
  - unfold entry_stale, POSITIVE_ENTRY_EXPIRED, NEGATIVE_ENTRY_EXPIRED.
    rewrite andb_true_iff, orb_true_iff, !andb_true_iff, negb_true_iff,
      Z.gtb_gt, !Z.ltb_lt, Z.eqb_eq, Z.eqb_neq.
    split.
    + intros Hst. right; right. by exists raw, st, pr, up, tx.
    + intros [?|[(r & ? & ?)|(r & s & p & u & t & ? & Hp & Hst)]];
        simplify_eq; [congruence |].
      rewrite Hparse in Hp. by simplify_eq.
  - split; [|done]. intros _. right; left. by exists raw.
  - by destruct Hdef.
Qed.

(** What the lookup step does when the QUERY misses. *)
Lemma verify_query_lookup_miss (now : Z) (addr : string)
    (verify_map : gmap string string) :
  query_misses params now (dict_get verify_map addr) →
  verify_query_lookup params now addr verify_map
  = if bool_decide (dict_get verify_map addr ≠ None)
       && (var_verify_neg_cache params =? 0)
    then (default_record, dict_del verify_map addr, [DictDel addr])
    else (default_record, verify_map, []).
Proof.
  intros Hmiss%query_miss_spec. unfold verify_query_lookup.
  destruct (query_miss params now (dict_get verify_map addr)) as [miss r].
  simpl in Hmiss. by rewrite Hmiss.
Qed.

(** The refresh step writes nothing for a record that was never updated
    when negative caching is off. *)
Lemma verify_query_refresh_default (now : Z) (post : post_mail)
    (addr : string) (verify_map : gmap string string) :
  var_verify_neg_cache params = 0 →
  (verify_query_refresh params now post addr default_record verify_map).1
  = verify_map
  ∧ dict_dels
      (verify_query_refresh params now post addr default_record
         verify_map).2 = []
  ∧ replies
      (verify_query_refresh params now post addr default_record
         verify_map).2 = [].
Proof.
  intros Hneg. unfold verify_query_refresh. rewrite Hneg. simpl.
  rewrite andb_false_r. by case_match.
Qed.

Lemma verify_query_refresh_quiet (now : Z) (post : post_mail)
    (addr : string) (r : record) (verify_map : gmap string string) :
  dict_dels (verify_query_refresh params now post addr r verify_map).2 = []
  ∧ replies (verify_query_refresh params now post addr r verify_map).2 = [].
Proof. unfold verify_query_refresh. by repeat case_match. Qed.

(** C3: when the stored entry is absent, unparseable or stale, the record
    of the QUERY becomes (TODO, 0, 0, "Address verification in progress")
    and the reply reports it; [dict_del] is called for the address exactly
    when a raw entry existed and negative caching is off, and then the
    entry is gone when the request is done.  Staleness is evaluated with
    the [long] arithmetic of the code. *)
Theorem verify_query_miss (now : Z) (post : post_mail)
    (rq : client_request) (verify_map : gmap string string) :
  rq_scan_args rq = 1 →
  query_misses params now (dict_get verify_map (rq_addr rq)) →
  (verify_query_lookup params now (rq_addr rq) verify_map).1.1
  = default_record
  ∧ replies (verify_query_service params now post rq verify_map).2
    = [[ATTR_NUM MAIL_ATTR_STATUS VRFY_STAT_OK;
        ATTR_NUM MAIL_ATTR_ADDR_STATUS DEL_RCPT_STAT_TODO;
        ATTR_STR MAIL_ATTR_WHY "Address verification in progress"]]
  ∧ (rq_addr rq
       ∈ dict_dels (verify_query_service params now post rq verify_map).2
     ↔ is_Some (dict_get verify_map (rq_addr rq))
       ∧ var_verify_neg_cache params = 0)
  ∧ (is_Some (dict_get verify_map (rq_addr rq))
     ∧ var_verify_neg_cache params = 0 →
     (verify_query_service params now post rq verify_map).1
     = dict_del verify_map (rq_addr rq)).
Proof.
  intros Hscan Hmiss. unfold verify_query_service. rewrite Hscan. simpl.
  rewrite (verify_query_lookup_miss _ _ _ Hmiss).
  destruct (dict_get verify_map (rq_addr rq)) as [raw|] eqn:Hraw; simpl;
    [destruct (var_verify_neg_cache params =? 0) eqn:Hneg; simpl |].
  - apply Z.eqb_eq in Hneg.
    destruct (verify_query_refresh_default now post (rq_addr rq)
                (dict_del verify_map (rq_addr rq)) Hneg)
      as (Hmap & Hdel & Hrep).
    destruct (verify_query_refresh params now post (rq_addr rq)
                default_record (dict_del verify_map (rq_addr rq)))
      as [map2 refresh].
    cbn [fst snd] in *. rewrite !replies_cons, !dict_dels_cons, Hdel, Hrep.
    split_and!; [done.. | | done].
    split; [eauto | intros _; set_solver].
  - apply Z.eqb_neq in Hneg.
    destruct (verify_query_refresh_quiet now post (rq_addr rq)
                default_record verify_map) as (Hdel & Hrep).
    destruct (verify_query_refresh params now post (rq_addr rq)
                default_record verify_map) as [map2 refresh].
    cbn [fst snd] in *. rewrite !replies_cons, !dict_dels_cons, Hdel, Hrep.
    split_and!; [done.. | | tauto].
    split; [set_solver | tauto].
  - destruct (verify_query_refresh_quiet now post (rq_addr rq)
                default_record verify_map) as (Hdel & Hrep).
    destruct (verify_query_refresh params now post (rq_addr rq)
                default_record verify_map) as [map2 refresh].
    cbn [fst snd] in *. rewrite !replies_cons, !dict_dels_cons, Hdel, Hrep.
    split_and!; [done.. | | intros [[? ?] _]; done].
    split; [set_solver | intros [[? ?] _]; done].
Qed.

End query.

Section query_reply_and_refresh.
Context `{deliver_request_h, verify_clnt_h, mail_proto_h}.
Variable params : verify_params.

(** C10: a QUERY whose address was scanned gets exactly one reply, and
    its status attribute is [VRFY_STAT_OK], whatever the table holds and
    whatever becomes of the probe; the recipient status and the text are
    those of the record the lookup step produced. *)
Theorem verify_query_status_ok (now : Z) (post : post_mail)
    (rq : client_request) (verify_map : gmap string string) :
  rq_scan_args rq = 1 →
  replies (verify_query_service params now post rq verify_map).2
  = [[ATTR_NUM MAIL_ATTR_STATUS VRFY_STAT_OK;
      ATTR_NUM MAIL_ATTR_ADDR_STATUS
        (addr_status
           (verify_query_lookup params now (rq_addr rq) verify_map).1.1);
      ATTR_STR MAIL_ATTR_WHY
        (text (verify_query_lookup params now (rq_addr rq) verify_map).1.1)]].
Proof.
  intros Hscan. unfold verify_query_service. rewrite Hscan. simpl.
  assert (Hpurge :
    replies (verify_query_lookup params now (rq_addr rq) verify_map).2 = []).
  { unfold verify_query_lookup. by repeat case_match. }
  destruct (verify_query_lookup params now (rq_addr rq) verify_map)
    as [[r map1] purge].
  destruct (verify_query_refresh_quiet params now post (rq_addr rq) r map1)
    as [_ Hrefresh].
  destruct (verify_query_refresh params now post (rq_addr rq) r map1)
    as [map2 refresh].
  cbn [fst snd] in *.
  by rewrite replies_app, replies_cons, Hpurge, Hrefresh.
Qed.

(** The lookup step only deletes. *)
Lemma verify_query_lookup_trace (now : Z) (addr : string)
    (verify_map : gmap string string) :
  probes (verify_query_lookup params now addr verify_map).2 = []
  ∧ dict_puts (verify_query_lookup params now addr verify_map).2 = []
  ∧ replies (verify_query_lookup params now addr verify_map).2 = [].
Proof.
  unfold verify_query_lookup.
  destruct (query_miss params now (dict_get verify_map addr)) as [miss r].
  by repeat case_match.
Qed.

(** The refresh step, for any record it is entered with. *)
Lemma verify_query_refresh_step (now : Z) (post : post_mail)
    (addr : string) (r : record) (verify_map : gmap string string) :
  refresh_needed params now r = true →
  let written :=
    post_mail_queued post = true
    ∧ (updated r ≠ 0 ∨ var_verify_neg_cache params ≠ 0) in
  let put_buf :=
    verify_make_entry (addr_status r) now (updated r) (text r) in
  let result := verify_query_refresh params now post addr r verify_map in
  probes result.2
  = [(if String.eqb (var_verify_sender params) "<>" then ""
      else var_verify_sender params, addr, post_mail_queued post)]
  ∧ (dict_puts result.2 ≠ [] ↔ written)
  ∧ (written →
     dict_puts result.2 = [(addr, put_buf)]
     ∧ result.1 = dict_put verify_map addr put_buf)
  ∧ (¬ written → result.1 = verify_map ∧ dict_puts result.2 = []).
Proof.
  intros Hneeded. simpl. unfold verify_query_refresh. rewrite Hneeded.
  destruct (post_mail_queued post); simpl;
    [destruct (updated r =? 0) eqn:Hup;
     destruct (var_verify_neg_cache params =? 0) eqn:Hneg; simpl |];
    rewrite ?Z.eqb_eq, ?Z.eqb_neq in *;
    rewrite ?dict_puts_cons; change (dict_puts []) with (@nil (string * string));
    intuition congruence.
Qed.

(** C4: a QUERY whose record, as the lookup leaves it, is due for a
    refresh submits one probe, for the address of the request, and
    [verify_query_service] writes the entry (status, now, updated, text)
    back if and only if the probe was queued and the record was updated
    before or negative caching is on; the write is then the only one of the
    request, under the address.  Otherwise, and so whenever the probe
    could not be queued, the table is left as the lookup left it and
    nothing is written. *)
Theorem verify_query_refresh_writes (now : Z) (post : post_mail)
    (rq : client_request) (verify_map : gmap string string) :
  rq_scan_args rq = 1 →
  let looked := verify_query_lookup params now (rq_addr rq) verify_map in
  refresh_needed params now looked.1.1 = true →
  let written :=
    post_mail_queued post = true
    ∧ (updated looked.1.1 ≠ 0 ∨ var_verify_neg_cache params ≠ 0) in
  let put_buf :=
    verify_make_entry (addr_status looked.1.1) now (updated looked.1.1)
      (text looked.1.1) in
  let result := verify_query_service params now post rq verify_map in
  probes result.2
  = [(if String.eqb (var_verify_sender params) "<>" then ""
      else var_verify_sender params, rq_addr rq, post_mail_queued post)]
  ∧ (dict_puts result.2 ≠ [] ↔ written)
  ∧ (written →
     dict_puts result.2 = [(rq_addr rq, put_buf)]
     ∧ result.1 = dict_put looked.1.2 (rq_addr rq) put_buf
     ∧ dict_get result.1 (rq_addr rq) = Some put_buf)
  ∧ (¬ written → result.1 = looked.1.2 ∧ dict_puts result.2 = [])
  ∧ (post_mail_queued post = false →
     result.1 = looked.1.2 ∧ dict_puts result.2 = []).
Proof.
  intros Hscan. cbn zeta. intros Hneeded.
  destruct (verify_query_lookup_trace now (rq_addr rq) verify_map)
    as (Hprobes & Hputs & _).
  unfold verify_query_service. rewrite Hscan. simpl.
  destruct (verify_query_lookup params now (rq_addr rq) verify_map)
    as [[r map1] purge].
  cbn [fst snd] in *.
  destruct (verify_query_refresh_step now post (rq_addr rq) r map1 Hneeded)
    as (Hprobe & Hiff & Hwritten & Hnot).
  destruct (verify_query_refresh params now post (rq_addr rq) r map1)
    as [map2 refresh].
  cbn [fst snd] in *.
  rewrite probes_app, dict_puts_app, probes_cons, dict_puts_cons.
  rewrite Hprobes, Hputs. cbn [app].
  split; [done |]. split; [done |]. split.
  - intros Hw. destruct (Hwritten Hw) as [Hput ->].
    split; [done |]. split; [done |].
    unfold dict_get, dict_put. apply lookup_insert_eq.
  - split; [done |]. intros Hfail. apply Hnot. intros [Hq _]. congruence.
Qed.

End query_reply_and_refresh.

Section query_examples.
#[local] Existing Instance postfix_deliver_request_h.
#[local] Existing Instance postfix_verify_clnt_h.
#[local] Existing Instance postfix_mail_proto_h.

(** The OK entry of time 110 is stale at time 3000000: it is purged (no
    negative caching), the reply says TODO. *)
Lemma verify_query_miss_witness :
  rq_scan_args (query_rq "u@x") = 1
  ∧ query_misses (params_with 0) 3000000 (dict_get map_with_ok "u@x")
  ∧ replies (verify_query_service (params_with 0) 3000000 post_ok
               (query_rq "u@x") map_with_ok).2
    = [[ATTR_NUM "status" 0; ATTR_NUM "recipient_status" 3;
        ATTR_STR "reason" "Address verification in progress"]]
  ∧ (verify_query_service (params_with 0) 3000000 post_ok
       (query_rq "u@x") map_with_ok).1
    = dict_del map_with_ok "u@x".
Proof.
  assert (Hmiss :
    query_misses (params_with 0) 3000000 (dict_get map_with_ok "u@x")).
  { right; right. exists "0:0:110:250 ok", 0, 0, 110, "250 ok".
    split; [reflexivity |]. split; [reflexivity |].
    split; [reflexivity |]. left. split; reflexivity. }
  split; [reflexivity |]. split; [exact Hmiss |].
  destruct (verify_query_miss (params_with 0) 3000000 post_ok
              (query_rq "u@x") map_with_ok eq_refl Hmiss)
    as (_ & Hreply & _ & Hfinal).
  split; [exact Hreply |]. apply Hfinal. split; [eexists |]; reflexivity.
Defined.

Lemma verify_query_status_ok_witness :
  rq_scan_args (query_rq "u@x") = 1
  ∧ replies (verify_query_service (params_with 1) 700000 post_failed
               (query_rq "u@x") map_with_ok).2
    = [[ATTR_NUM "status" 0; ATTR_NUM "recipient_status" 0;
        ATTR_STR "reason" "250 ok"]].
Proof.
  split; [reflexivity |].
  exact (verify_query_status_ok (params_with 1) 700000 post_failed
           (query_rq "u@x") map_with_ok eq_refl).
Defined.

(** Positive refresh: the OK entry of time 110 is due for a new probe at
    time 700000; the probe is queued and the time of it is recorded. *)
Lemma verify_query_refresh_writes_witness :
  rq_scan_args (query_rq "u@x") = 1
  ∧ refresh_needed (params_with 0) 700000
      (verify_query_lookup (params_with 0) 700000 (rq_addr (query_rq "u@x"))
         map_with_ok).1.1
    = true
  ∧ probes
      (verify_query_service (params_with 0) 700000 post_ok (query_rq "u@x")
         map_with_ok).2
    = [("", "u@x", true)]
  ∧ dict_puts
      (verify_query_service (params_with 0) 700000 post_ok (query_rq "u@x")
         map_with_ok).2
    = [("u@x", "0:700000:110:250 ok")]
  ∧ dict_get
      (verify_query_service (params_with 0) 700000 post_ok (query_rq "u@x")
         map_with_ok).1 "u@x"
    = Some "0:700000:110:250 ok".
Proof.
  assert (Hneeded :
    refresh_needed (params_with 0) 700000
      (verify_query_lookup (params_with 0) 700000
         (rq_addr (query_rq "u@x")) map_with_ok).1.1
    = true) by reflexivity.
  split; [reflexivity |]. split; [exact Hneeded |].
  destruct (verify_query_refresh_writes (params_with 0) 700000 post_ok
              (query_rq "u@x") map_with_ok eq_refl Hneeded)
    as (Hprobe & _ & Hwritten & _).
  split; [exact Hprobe |].
  assert (Hw :
    post_mail_queued post_ok = true
    ∧ (updated
         (verify_query_lookup (params_with 0) 700000
            (rq_addr (query_rq "u@x")) map_with_ok).1.1 ≠ 0
       ∨ var_verify_neg_cache (params_with 0) ≠ 0)).
  { split; [reflexivity |]. left. discriminate. }
  destruct (Hwritten Hw) as (Hput & _ & Hget).
  split; [exact Hput | exact Hget].
Defined.

(** Scenario "Cold query", at a time later than [PROBE_TTL] and the
    negative refresh time. *)
Example cold_query :
  verify_query_service (params_with 1) 1000000 post_ok (query_rq "u@x") ∅
  = ({[ "u@x" := "3:1000000:0:Address verification in progress" ]},
     [Reply [ATTR_NUM "status" 0; ATTR_NUM "recipient_status" 3;
             ATTR_STR "reason" "Address verification in progress"];
      Probe "" "u@x" true;
      DictPut "u@x" "3:1000000:0:Address verification in progress"]).
Proof. reflexivity. Qed.

Example cold_query_no_negative_cache :
  verify_query_service (params_with 0) 1000000 post_ok (query_rq "u@x") ∅
  = (∅,
     [Reply [ATTR_NUM "status" 0; ATTR_NUM "recipient_status" 3;
             ATTR_STR "reason" "Address verification in progress"];
      Probe "" "u@x" true]).
Proof. reflexivity. Qed.

End query_examples.

(** ** Two QUERY requests within [PROBE_TTL] *)

Lemma strtol_digits_nonneg (acc : Z) (s : string) :
  0 ≤ acc → 0 ≤ strtol_digits acc s.
Proof.
  revert acc. induction s as [|c s IH]; intros acc Hacc; simpl; [done |].
  destruct (isdigit c) eqn:Hc; [|done]. apply IH.
  assert (0 ≤ digit_value c); [|lia].
  destruct c as [[] [] [] [] [] [] [] []]; by vm_compute.
Qed.

Lemma strtol_is_long (s : string) : is_long (strtol s).
Proof.
  unfold strtol, is_long, LONG_MIN, LONG_MAX.
  destruct (skip_isspace s) as [|c s']; [lia |].
  pose proof (strtol_digits_nonneg 0 s' (Z.le_refl 0)).
  pose proof (strtol_digits_nonneg 0 (String c s') (Z.le_refl 0)).
  repeat case_match; lia.
Qed.

Section two_queries.
Context `{deliver_request_h, verify_clnt_h, mail_proto_h}.
Variable params : verify_params.

(** The entry written by the refresh step, read by the next QUERY. *)
Lemma parse_stored_make_entry (status probed updated : Z) (text : string) :
  is_rcpt_stat status = true →
  is_int status → is_long probed → is_long updated →
  parse_stored (verify_make_entry status probed updated text)
  = PARSE_OK status probed updated text.
Proof.
  intros Hcode Hs Hp Hu. unfold parse_stored, verify_make_entry.
  rewrite verify_parse_entry_fields by auto using strchr_fmt_d.
  rewrite atoi_fmt_d_exact, !atol_fmt_ld_exact by done.
  by rewrite Hcode.
Qed.

(** What a stored entry parses to is a status code and two [long]s. *)
Lemma parse_stored_wf (raw : string) (status probed updated : Z)
    (text : string) :
  parse_stored raw = PARSE_OK status probed updated text →
  is_rcpt_stat status = true ∧ is_int status
  ∧ is_long probed ∧ is_long updated.
Proof.
  unfold parse_stored, verify_parse_entry. intros Hparse.
  repeat case_match; simplify_eq.
  split_and!; [by destruct (is_rcpt_stat _) | apply to_int_is_int
               | apply strtol_is_long..].
Qed.

Lemma verify_query_lookup_wf (now : Z) (addr : string)
    (verify_map : gmap string string) :
  rcpt_stat_wf →
  let r := (verify_query_lookup params now addr verify_map).1.1 in
  is_rcpt_stat (addr_status r) = true ∧ is_int (addr_status r)
  ∧ is_long (updated r).
Proof.
  intros Hwf. unfold verify_query_lookup, query_miss.
  assert (Hdefault :
    is_rcpt_stat (addr_status default_record) = true
    ∧ is_int (addr_status default_record)
    ∧ is_long (updated default_record)).
  { split_and!; [apply is_rcpt_stat_TODO | |
                 unfold is_long, LONG_MIN, LONG_MAX; simpl; lia].
    apply rcpt_stat_is_int; [done | apply is_rcpt_stat_TODO]. }
  destruct (dict_get verify_map addr) as [raw|]; simpl; [|done].
  fold (parse_stored raw).
  destruct (parse_stored raw) as [st pr up tx| |] eqn:Hparse; simpl;
    [|by case_match..].
  apply parse_stored_wf in Hparse as (? & ? & ? & ?).
  by repeat case_match.
Qed.

(** With negative caching the lookup step leaves the table alone. *)
Lemma verify_query_lookup_keeps (now : Z) (addr : string)
    (verify_map : gmap string string) :
  var_verify_neg_cache params ≠ 0 →
  (verify_query_lookup params now addr verify_map).1.2 = verify_map
  ∧ (verify_query_lookup params now addr verify_map).2 = [].
Proof.
  intros Hneg%Z.eqb_neq. unfold verify_query_lookup. rewrite Hneg.
  rewrite andb_false_r. by repeat case_match.
Qed.

(** [verify_query_service] as its two steps. *)
Lemma verify_query_service_steps (now : Z) (post : post_mail)
    (rq : client_request) (verify_map : gmap string string) :
  rq_scan_args rq = 1 →
  let l := verify_query_lookup params now (rq_addr rq) verify_map in
  let f :=
    verify_query_refresh params now post (rq_addr rq) l.1.1 l.1.2 in
  verify_query_service params now post rq verify_map
  = (f.1,
     l.2 ++ Reply [ATTR_NUM MAIL_ATTR_STATUS VRFY_STAT_OK;
                   ATTR_NUM MAIL_ATTR_ADDR_STATUS (addr_status l.1.1);
                   ATTR_STR MAIL_ATTR_WHY (text l.1.1)] :: f.2).
Proof.
  intros Hscan. simpl. unfold verify_query_service. rewrite Hscan. simpl.
  destruct (verify_query_lookup params now (rq_addr rq) verify_map)
    as [[r map1] purge]. simpl.
  by destruct (verify_query_refresh params now post (rq_addr rq) r map1).
Qed.

(** With negative caching a queued probe is always recorded. *)
Lemma verify_query_refresh_cases (now : Z) (post : post_mail)
    (addr : string) (r : record) (verify_map : gmap string string) :
  var_verify_neg_cache params ≠ 0 →
  let result := verify_query_refresh params now post addr r verify_map in
  let put_buf :=
    verify_make_entry (addr_status r) now (updated r) (text r) in
  (result.1 = dict_put verify_map addr put_buf
   ∧ length (queued_probes result.2) = 1%nat)
  ∨ (result.1 = verify_map ∧ queued_probes result.2 = []
     ∧ (length (probes result.2) ≤ 1)%nat).
Proof.
  intros Hneg%Z.eqb_neq. simpl. unfold verify_query_refresh. rewrite Hneg.
  rewrite orb_true_r, andb_true_r.
  destruct (refresh_needed params now r); [|right; simpl; eauto].
  destruct (post_mail_queued post); [left | right]; simpl; eauto.
Qed.

(** A QUERY less than [PROBE_TTL] after a probe was recorded replies
    from the entry and does nothing else. *)
Lemma verify_query_probe_pending (now1 now2 : Z) (post : post_mail)
    (rq : client_request) (verify_map : gmap string string)
    (status updated : Z) (text : string) :
  rq_scan_args rq = 1 →
  is_rcpt_stat status = true → is_int status → is_long updated →
  is_long now1 → now1 ≤ now2 → now2 < now1 + PROBE_TTL →
  dict_get verify_map (rq_addr rq)
  = Some (verify_make_entry status now1 updated text) →
  verify_query_service params now2 post rq verify_map
  = (verify_map,
     [Reply [ATTR_NUM MAIL_ATTR_STATUS VRFY_STAT_OK;
             ATTR_NUM MAIL_ATTR_ADDR_STATUS status;
             ATTR_STR MAIL_ATTR_WHY text]]).
Proof.
  intros Hscan Hcode Hs Hu Hn1 Hle Hlt Hget.
  assert (Hgate : (long_sub now2 now1 >? PROBE_TTL) = false).
  { unfold long_sub. rewrite to_long_id.
    - rewrite Z.gtb_ltb. apply Z.ltb_ge. unfold PROBE_TTL in *. lia.
    - unfold is_long, LONG_MIN, LONG_MAX, PROBE_TTL in *. lia. }
  rewrite verify_query_service_steps by done. simpl.
  unfold verify_query_lookup, query_miss. rewrite Hget.
  fold (parse_stored (verify_make_entry status now1 updated text)).
  rewrite parse_stored_make_entry by done. rewrite Hgate. simpl.
  unfold verify_query_refresh, refresh_needed. simpl. by rewrite Hgate.
Qed.

(** With time stamps that are not negative, what is stale stays stale. *)
Lemma query_misses_later (now1 now2 : Z) (raw_data : option string) :
  0 ≤ now1 → now1 ≤ now2 → is_long now2 →
  (∀ raw status probed updated text,
     raw_data = Some raw →
     parse_stored raw = PARSE_OK status probed updated text →
     0 ≤ probed) →
  query_misses params now1 raw_data → query_misses params now2 raw_data.
Proof.
  intros Hpos Hle Hn2 Hsane
    [?|[?|(raw & st & pr & up & tx & -> & Hparse & Hst)]];
    [by left | by right; left |].
  right; right. exists raw, st, pr, up, tx. split_and!; [done.. |].
  specialize (Hsane raw st pr up tx eq_refl Hparse).
  apply parse_stored_wf in Hparse as (_ & _ & Hpr & _).
  destruct Hst as [Hgate Hexp]. split; [|intuition lia].
  unfold long_sub in *. unfold is_long, LONG_MIN, LONG_MAX in *.
  rewrite to_long_id in Hgate
    by (unfold is_long, LONG_MIN, LONG_MAX; lia).
  rewrite to_long_id by (unfold is_long, LONG_MIN, LONG_MAX; lia). lia.
Qed.

Lemma verify_query_service_queued (now : Z) (post : post_mail)
    (rq : client_request) (verify_map : gmap string string) :
  var_verify_neg_cache params ≠ 0 →
  (length (queued_probes
             (verify_query_service params now post rq verify_map).2)
   ≤ 1)%nat.
Proof.
  intros Hneg. unfold verify_query_service.
  destruct (rq_scan_args rq =? 1); [|simpl; lia].
  destruct (verify_query_lookup_keeps now (rq_addr rq) verify_map Hneg)
    as [_ Hpurge].
  destruct (verify_query_lookup params now (rq_addr rq) verify_map)
    as [[r map1] purge].
  destruct (verify_query_refresh_cases now post (rq_addr rq) r map1 Hneg)
    as [[_ Hq]|(_ & Hq & _)];
    destruct (verify_query_refresh params now post (rq_addr rq) r map1)
      as [map2 refresh];
    cbn [fst snd] in *; subst purge; simpl;
    rewrite queued_probes_reply, Hq; simpl; lia.
Qed.

(** A QUERY submits at most one probe. *)
Lemma verify_query_service_one_probe (now : Z) (post : post_mail)
    (rq : client_request) (verify_map : gmap string string) :
  (length (probes (verify_query_service params now post rq verify_map).2)
   ≤ 1)%nat.
Proof.
  unfold verify_query_service.
  destruct (rq_scan_args rq =? 1); [|simpl; lia].
  destruct (verify_query_lookup_trace params now (rq_addr rq) verify_map)
    as (Hprobes & _ & _).
  destruct (verify_query_lookup params now (rq_addr rq) verify_map)
    as [[r map1] purge].
  cbn [fst snd] in *. unfold verify_query_refresh.
  destruct (refresh_needed params now r);
    [destruct (post_mail_queued post && _) |];
    cbn [fst snd]; rewrite probes_app, !probes_cons, Hprobes; simpl; lia.
Qed.

(** While the subtraction of the probe time does not overflow, what is
    stale stays stale. *)
Lemma query_misses_no_wrap (now1 now2 : Z) (raw_data : option string) :
  now1 ≤ now2 →
  (∀ raw status probed updated text,
     raw_data = Some raw →
     parse_stored raw = PARSE_OK status probed updated text →
     is_long (now1 - probed) ∧ is_long (now2 - probed)) →
  query_misses params now1 raw_data → query_misses params now2 raw_data.
Proof.
  intros Hle Hsane
    [?|[?|(raw & st & pr & up & tx & -> & Hparse & Hst)]];
    [by left | by right; left |].
  right; right. exists raw, st, pr, up, tx. split_and!; [done.. |].
  destruct (Hsane raw st pr up tx eq_refl Hparse) as [Hs1 Hs2].
  destruct Hst as [Hgate Hexp]. split; [|intuition lia].
  unfold long_sub in *. rewrite to_long_id in Hgate by done.
  rewrite to_long_id by done. lia.
Qed.

(** After a miss without negative caching the address has no entry. *)
Lemma verify_query_service_miss_forgets (now : Z) (post : post_mail)
    (rq : client_request) (verify_map : gmap string string) :
  rq_scan_args rq = 1 →
  var_verify_neg_cache params = 0 →
  query_misses params now (dict_get verify_map (rq_addr rq)) →
  dict_get (verify_query_service params now post rq verify_map).1
    (rq_addr rq) = None.
Proof.
  intros Hscan Hneg Hmiss.
  rewrite verify_query_service_steps by done. cbn zeta. cbn [fst snd].
  rewrite (verify_query_lookup_miss params now (rq_addr rq) verify_map Hmiss).
  rewrite Hneg. cbn [Z.eqb]. rewrite andb_true_r.
  destruct (dict_get verify_map (rq_addr rq)) as [raw|] eqn:Hget.
  - rewrite bool_decide_eq_true_2 by done. cbn [fst snd].
    destruct (verify_query_refresh_default params now post (rq_addr rq)
                (dict_del verify_map (rq_addr rq)) Hneg) as [-> _].
    unfold dict_get, dict_del. apply lookup_delete_eq.
  - rewrite bool_decide_eq_false_2 by (by intros []). cbn [fst snd].
    by destruct (verify_query_refresh_default params now post (rq_addr rq)
                   verify_map Hneg) as [-> _].
Qed.

(** The reply of a QUERY that misses. *)
Lemma verify_query_service_miss_reply (now : Z) (post : post_mail)
    (rq : client_request) (verify_map : gmap string string) :
  rq_scan_args rq = 1 →
  query_misses params now (dict_get verify_map (rq_addr rq)) →
  replies (verify_query_service params now post rq verify_map).2
  = [[ATTR_NUM MAIL_ATTR_STATUS VRFY_STAT_OK;
      ATTR_NUM MAIL_ATTR_ADDR_STATUS DEL_RCPT_STAT_TODO;
      ATTR_STR MAIL_ATTR_WHY "Address verification in progress"]].
Proof.
  intros Hscan Hmiss.
  rewrite verify_query_service_steps by done. cbn zeta. cbn [fst snd].
  destruct (verify_query_lookup_trace params now (rq_addr rq) verify_map)
    as (_ & _ & Hreplies).
  pose proof (verify_query_lookup_miss params now (rq_addr rq) verify_map
                Hmiss) as Hlookup.
  assert (Hrecord :
    (verify_query_lookup params now (rq_addr rq) verify_map).1.1
    = default_record) by (rewrite Hlookup; by case_match).
  destruct (verify_query_lookup params now (rq_addr rq) verify_map)
    as [[r map1] purge].
  cbn [fst snd] in *. subst r.
  destruct (verify_query_refresh_quiet params now post (rq_addr rq)
              default_record map1) as [_ Hquiet].
  by rewrite replies_app, replies_cons, Hreplies, Hquiet.
Qed.

(** C2, amended: two QUERY requests for an address, with nothing in
    between.  Refresh bound: when the requests are less than [PROBE_TTL]
    seconds apart and the first records the probe it submits, if any
    (the probe is queued, and the record was updated before or negative
    caching is on), at most one probe is submitted across the two
    requests, and none by the second after one by the first; with
    negative caching on at most one probe is queued in any case.
    TODO transient: when the first request finds no usable entry the
    second replies TODO; without negative caching always, and with it for
    requests less than [PROBE_TTL] seconds apart, provided that for a
    stale entry the subtraction of its probe time does not overflow. *)
Theorem verify_two_queries_one_probe (now1 : Z) (post1 : post_mail)
    (now2 : Z) (post2 : post_mail) (rq : client_request)
    (verify_map : gmap string string) :
  rcpt_stat_wf →
  rq_scan_args rq = 1 →
  let run :=
    verify_two_queries params now1 post1 now2 post2 rq verify_map in
  let raw_data := dict_get verify_map (rq_addr rq) in
  let r1 := (verify_query_lookup params now1 (rq_addr rq) verify_map).1.1 in
  let todo :=
    [[ATTR_NUM MAIL_ATTR_STATUS VRFY_STAT_OK;
      ATTR_NUM MAIL_ATTR_ADDR_STATUS DEL_RCPT_STAT_TODO;
      ATTR_STR MAIL_ATTR_WHY "Address verification in progress"]] in
  (is_long now1 → now1 ≤ now2 → now2 < now1 + PROBE_TTL →
   (refresh_needed params now1 r1 = true →
    post_mail_queued post1 = true
    ∧ (updated r1 ≠ 0 ∨ var_verify_neg_cache params ≠ 0)) →
   (length (probes (run.1.2 ++ run.2)) ≤ 1)%nat
   ∧ (probes run.1.2 ≠ [] → probes run.2 = []))
  ∧ (is_long now1 → now1 ≤ now2 → now2 < now1 + PROBE_TTL →
     var_verify_neg_cache params ≠ 0 →
     (length (queued_probes (run.1.2 ++ run.2)) ≤ 1)%nat
     ∧ (queued_probes run.1.2 ≠ [] → probes run.2 = []))
  ∧ (var_verify_neg_cache params = 0 →
     query_misses params now1 raw_data →
     replies run.2 = todo)
  ∧ (var_verify_neg_cache params ≠ 0 →
     is_long now1 → now1 ≤ now2 → now2 < now1 + PROBE_TTL →
     query_misses params now1 raw_data →
     (∀ raw status probed updated text,
        raw_data = Some raw →
        parse_stored raw = PARSE_OK status probed updated text →
        is_long (now1 - probed) ∧ is_long (now2 - probed)) →
     replies run.2 = todo).
Proof.
  intros Hwf Hscan. cbn zeta.
  unfold verify_two_queries.
  rewrite (verify_query_service_steps now1) by done. cbn zeta.
  destruct (verify_query_lookup_wf now1 (rq_addr rq) verify_map Hwf)
    as (Hcode & Hint & Hup).
  destruct (verify_query_lookup_trace params now1 (rq_addr rq) verify_map)
    as (Hprobes1 & _ & _).
  split; [|split; [|split]].
  - (* the refresh bound *)
    intros Hn1 Hle Hlt Hrecorded.
    destruct (verify_query_lookup params now1 (rq_addr rq) verify_map)
      as [[r map1] purge].
    cbn [fst snd] in *.
    destruct (refresh_needed params now1 r) eqn:Hneeded.
    + destruct (verify_query_refresh_step params now1 post1 (rq_addr rq) r
                  map1 Hneeded) as (Hprobe & _ & Hwritten & _).
      destruct (Hwritten (Hrecorded eq_refl)) as [_ Hput].
      destruct (verify_query_refresh params now1 post1 (rq_addr rq) r map1)
        as [map2 refresh].
      cbn [fst snd] in *. subst map2.
      rewrite (verify_query_probe_pending now1 now2 post2 rq _
                 (addr_status r) (updated r) (text r))
        by (try done; apply lookup_insert_eq).
      cbn [fst snd].
      rewrite !probes_app, !probes_cons, Hprobes1, Hprobe. simpl.
      split; [lia | done].
    + unfold verify_query_refresh. rewrite Hneeded. cbn [fst snd].
      pose proof (verify_query_service_one_probe now2 post2 rq map1) as H2.
      destruct (verify_query_service params now2 post2 rq map1)
        as [map3 trace2].
      cbn [fst snd] in *.
      rewrite !probes_app, !probes_cons, Hprobes1. simpl.
      split; [lia | done].
  - (* with negative caching: queued probes *)
    intros Hn1 Hle Hlt Hneg.
    destruct (verify_query_lookup_keeps now1 (rq_addr rq) verify_map Hneg)
      as [Hmap1 Hpurge].
    destruct (verify_query_lookup params now1 (rq_addr rq) verify_map)
      as [[r map1] purge].
    cbn [fst snd] in *. subst map1 purge.
    destruct (verify_query_refresh_cases now1 post1 (rq_addr rq) r
                verify_map Hneg) as [[Hput Hq]|(Hsame & Hq & Hp)];
      destruct (verify_query_refresh params now1 post1 (rq_addr rq) r
                  verify_map) as [map2 refresh];
      cbn [fst snd] in *; subst map2.
    + rewrite (verify_query_probe_pending now1 now2 post2 rq _
                 (addr_status r) (updated r) (text r))
        by (try done; apply lookup_insert_eq).
      cbn [fst snd app]. split; [|done].
      rewrite queued_probes_reply, queued_probes_app, length_app, Hq.
      simpl. lia.
    + pose proof (verify_query_service_queued now2 post2 rq verify_map Hneg)
        as Hq2.
      destruct (verify_query_service params now2 post2 rq verify_map)
        as [map3 trace2].
      cbn [fst snd app] in *. split.
      * rewrite queued_probes_reply, queued_probes_app, length_app, Hq.
        simpl. lia.
      * by rewrite queued_probes_reply, Hq.
  - (* TODO after a miss, without negative caching *)
    intros Hneg Hmiss.
    pose proof (verify_query_service_miss_forgets now1 post1 rq verify_map
                  Hscan Hneg Hmiss) as Hgone.
    rewrite verify_query_service_steps in Hgone by done.
    cbn zeta in Hgone. cbn [fst snd] in Hgone.
    destruct (verify_query_refresh params now1 post1 (rq_addr rq) _ _)
      as [map2 refresh].
    cbn [fst snd] in *.
    pose proof (verify_query_service_miss_reply now2 post2 rq map2 Hscan)
      as Hreply.
    destruct (verify_query_service params now2 post2 rq map2)
      as [map3 trace2].
    cbn [fst snd] in *. apply Hreply. left. exact Hgone.
  - (* TODO after a miss, with negative caching *)
    intros Hneg Hn1 Hle Hlt Hmiss Hsane.
    destruct (verify_query_lookup_keeps now1 (rq_addr rq) verify_map Hneg)
      as [Hmap1 Hpurge].
    pose proof (verify_query_lookup_miss params now1 (rq_addr rq) verify_map
                  Hmiss) as Hmiss1.
    destruct (verify_query_lookup params now1 (rq_addr rq) verify_map)
      as [[r map1] purge].
    cbn [fst snd] in *. subst map1 purge.
    assert (r = default_record) as -> by (by case_match; simplify_eq).
    destruct (verify_query_refresh_cases now1 post1 (rq_addr rq)
                default_record verify_map Hneg)
      as [[Hput Hq]|(Hsame & Hq & Hp)];
      destruct (verify_query_refresh params now1 post1 (rq_addr rq)
                  default_record verify_map) as [map2 refresh];
      cbn [fst snd] in *; subst map2.
    + by rewrite (verify_query_probe_pending now1 now2 post2 rq _
                    (addr_status default_record) (updated default_record)
                    (text default_record))
        by (try done; apply lookup_insert_eq).
    + pose proof (verify_query_service_miss_reply now2 post2 rq verify_map
                    Hscan) as Hreply.
      destruct (verify_query_service params now2 post2 rq verify_map)
        as [map3 trace2].
      cbn [fst snd] in *. apply Hreply.
      by apply (query_misses_no_wrap now1 now2).
Qed.

End two_queries.

Section two_queries_examples.
#[local] Existing Instance postfix_deliver_request_h.
#[local] Existing Instance postfix_verify_clnt_h.
#[local] Existing Instance postfix_mail_proto_h.

(** Without negative caching the first QUERY for an unknown address
    records nothing, and the second, 500 seconds later, sends a second
    probe.  With negative caching a first probe that cannot be queued is
    not recorded either, and the second QUERY submits another. *)
Lemma verify_two_queries_two_probes :
  var_verify_neg_cache (params_with 0) = 0
  ∧ 1000000 ≤ 1000500 < 1000000 + PROBE_TTL
  ∧ probes
      ((verify_two_queries (params_with 0) 1000000 post_ok 1000500 post_ok
          (query_rq "u@x") ∅).1.2
       ++ (verify_two_queries (params_with 0) 1000000 post_ok 1000500
             post_ok (query_rq "u@x") ∅).2)
    = [("", "u@x", true); ("", "u@x", true)]
  ∧ ¬ (length
         (probes
            ((verify_two_queries (params_with 0) 1000000 post_ok 1000500
                post_ok (query_rq "u@x") ∅).1.2
             ++ (verify_two_queries (params_with 0) 1000000 post_ok
                   1000500 post_ok (query_rq "u@x") ∅).2))
       ≤ 1)%nat
  ∧ var_verify_neg_cache (params_with 1) ≠ 0
  ∧ post_mail_queued post_failed = false
  ∧ probes
      ((verify_two_queries (params_with 1) 1000000 post_failed 1000500
          post_ok (query_rq "u@x") ∅).1.2
       ++ (verify_two_queries (params_with 1) 1000000 post_failed 1000500
             post_ok (query_rq "u@x") ∅).2)
    = [("", "u@x", false); ("", "u@x", true)]
  ∧ ¬ (length
         (probes
            ((verify_two_queries (params_with 1) 1000000 post_failed
                1000500 post_ok (query_rq "u@x") ∅).1.2
             ++ (verify_two_queries (params_with 1) 1000000 post_failed
                   1000500 post_ok (query_rq "u@x") ∅).2))
       ≤ 1)%nat.
Proof.
  split; [reflexivity |]. split; [unfold PROBE_TTL; lia |].
  split; [reflexivity |]. split; [vm_compute; lia |].
  split; [discriminate |]. split; [reflexivity |].
  split; [reflexivity |]. vm_compute. lia.
Qed.

(** Without negative caching: the OK entry of time 110 is refreshed at
    time 700000 and the probe is recorded, so that the QUERY of time
    700500 submits none; and after a QUERY for an unknown address the next
    one replies TODO. *)
Lemma verify_two_queries_one_probe_witness :
  rcpt_stat_wf
  ∧ rq_scan_args (query_rq "u@x") = 1
  ∧ is_long 700000 ∧ 700000 ≤ 700500 ∧ 700500 < 700000 + PROBE_TTL
  ∧ (refresh_needed (params_with 0) 700000
       (verify_query_lookup (params_with 0) 700000
          (rq_addr (query_rq "u@x")) map_with_ok).1.1 = true →
     post_mail_queued post_ok = true
     ∧ (updated
          (verify_query_lookup (params_with 0) 700000
             (rq_addr (query_rq "u@x")) map_with_ok).1.1 ≠ 0
        ∨ var_verify_neg_cache (params_with 0) ≠ 0))
  ∧ (length
       (probes
          ((verify_two_queries (params_with 0) 700000 post_ok 700500
              post_ok (query_rq "u@x") map_with_ok).1.2
           ++ (verify_two_queries (params_with 0) 700000 post_ok 700500
                 post_ok (query_rq "u@x") map_with_ok).2))
     ≤ 1)%nat
  ∧ probes
      (verify_two_queries (params_with 0) 700000 post_ok 700500
         post_ok (query_rq "u@x") map_with_ok).1.2
    = [("", "u@x", true)]
  ∧ var_verify_neg_cache (params_with 0) = 0
  ∧ query_misses (params_with 0) 700000
      (dict_get ∅ (rq_addr (query_rq "u@x")))
  ∧ replies
      (verify_two_queries (params_with 0) 700000 post_ok 700500
         post_ok (query_rq "u@x") ∅).2
    = [[ATTR_NUM "status" 0; ATTR_NUM "recipient_status" 3;
        ATTR_STR "reason" "Address verification in progress"]].
Proof.
  assert (Hlong : is_long 700000)
    by (unfold is_long, LONG_MIN, LONG_MAX; lia).
  assert (Hle : 700000 ≤ 700500) by lia.
  assert (Hlt : 700500 < 700000 + PROBE_TTL) by (unfold PROBE_TTL; lia).
  assert (Hrecorded :
    refresh_needed (params_with 0) 700000
      (verify_query_lookup (params_with 0) 700000
         (rq_addr (query_rq "u@x")) map_with_ok).1.1 = true →
    post_mail_queued post_ok = true
    ∧ (updated
         (verify_query_lookup (params_with 0) 700000
            (rq_addr (query_rq "u@x")) map_with_ok).1.1 ≠ 0
       ∨ var_verify_neg_cache (params_with 0) ≠ 0)).
  { intros _. split; [reflexivity |]. left. discriminate. }
  assert (Hmiss :
    query_misses (params_with 0) 700000
      (dict_get ∅ (rq_addr (query_rq "u@x")))) by (by left).
  split; [exact postfix_rcpt_stat_wf |]. split; [reflexivity |].
  split; [exact Hlong |]. split; [exact Hle |]. split; [exact Hlt |].
  split; [exact Hrecorded |].
  destruct (verify_two_queries_one_probe (params_with 0) 700000 post_ok
              700500 post_ok (query_rq "u@x") map_with_ok
              postfix_rcpt_stat_wf eq_refl) as (Hbound & _).
  destruct (Hbound Hlong Hle Hlt Hrecorded) as [Hone _].
  split; [exact Hone |]. split; [reflexivity |]. split; [reflexivity |].
  split; [exact Hmiss |].
  destruct (verify_two_queries_one_probe (params_with 0) 700000 post_ok
              700500 post_ok (query_rq "u@x") ∅
              postfix_rcpt_stat_wf eq_refl) as (_ & _ & Htodo & _).
  exact (Htodo eq_refl Hmiss).
Defined.

(** With negative caching, and a first probe that cannot be queued: a
    stale entry whose probe time is so far back that the subtraction
    overflows at the second QUERY is no longer stale then, and the second
    reply is the stored status. *)
Example verify_two_queries_overflow :
  query_misses (params_with 1) 1000000
    (dict_get {[ "u@x" := "1:-9223372036853775807:5:450 busy" ]} "u@x")
  ∧ replies
      (verify_two_queries (params_with 1) 1000000 post_failed 1000500
         post_ok (query_rq "u@x")
         {[ "u@x" := "1:-9223372036853775807:5:450 busy" ]}).2
    = [[ATTR_NUM "status" 0; ATTR_NUM "recipient_status" 1;
        ATTR_STR "reason" "450 busy"]].
Proof.
  split; [|reflexivity].
  right; right.
  exists "1:-9223372036853775807:5:450 busy", 1, (-9223372036853775807), 5,
    "450 busy".
  split; [reflexivity |]. split; [reflexivity |].
  split; [reflexivity |]. right. split; [discriminate | reflexivity].
Qed.

(** The same two requests, run: one probe, TODO twice. *)
Example two_queries_negative_cache :
  verify_two_queries (params_with 1) 1000000 post_ok 1000500 post_ok
    (query_rq "u@x") ∅
  = ({[ "u@x" := "3:1000000:0:Address verification in progress" ]},
     [Reply [ATTR_NUM "status" 0; ATTR_NUM "recipient_status" 3;
             ATTR_STR "reason" "Address verification in progress"];
      Probe "" "u@x" true;
      DictPut "u@x" "3:1000000:0:Address verification in progress"],
     [Reply [ATTR_NUM "status" 0; ATTR_NUM "recipient_status" 3;
             ATTR_STR "reason" "Address verification in progress"]]).
Proof. reflexivity. Qed.

End two_queries_examples.

(** ** Requests the verifier does not serve *)

Section bad_requests.
Context `{deliver_request_h, verify_clnt_h, mail_proto_h}.
Variable params : verify_params.

Lemma verify_stat2name_None (addr_status : Z) :
  verify_stat2name addr_status = None
  ↔ addr_status ≠ DEL_RCPT_STAT_OK ∧ addr_status ≠ DEL_RCPT_STAT_DEFER
    ∧ addr_status ≠ DEL_RCPT_STAT_BOUNCE.
Proof.
  unfold verify_stat2name. rewrite <- !Z.eqb_neq.
  repeat case_match; intuition congruence.
Qed.

(** C8, amended: a verifier request with an unknown name, and an UPDATE
    whose status is not OK, DEFER or BOUNCE (TODO for one), are answered
    with status BAD and change nothing.  A request whose attribute scan
    fails - for the request name, or for the arguments of UPDATE or
    QUERY - gets no reply: the handler flushes the stream and returns.
    In every case the handler returns. *)
Theorem verify_service_bad_request (now : Z) (post : post_mail)
    (rq : client_request) (verify_map : gmap string string) :
  rcpt_stat_wf →
  let bad := Reply [ATTR_NUM MAIL_ATTR_STATUS VRFY_STAT_BAD] in
  let result := verify_service params now post rq verify_map in
  (rq_scan_request rq = 1 →
   rq_request rq ≠ VRFY_REQ_UPDATE → rq_request rq ≠ VRFY_REQ_QUERY →
   result = (verify_map, [bad; Flush]))
  ∧ (rq_scan_request rq = 1 → rq_request rq = VRFY_REQ_UPDATE →
     rq_scan_args rq = 3 →
     rq_addr_status rq ≠ DEL_RCPT_STAT_OK
     ∧ rq_addr_status rq ≠ DEL_RCPT_STAT_DEFER
     ∧ rq_addr_status rq ≠ DEL_RCPT_STAT_BOUNCE
     ∨ rq_addr_status rq = DEL_RCPT_STAT_TODO →
     result = (verify_map, [bad; Flush]))
  ∧ (rq_scan_request rq ≠ 1
     ∨ rq_request rq = VRFY_REQ_UPDATE ∧ rq_scan_args rq ≠ 3
     ∨ rq_request rq ≠ VRFY_REQ_UPDATE ∧ rq_request rq = VRFY_REQ_QUERY
       ∧ rq_scan_args rq ≠ 1 →
     result = (verify_map, [Flush])).
Proof.
  intros Hwf. simpl. unfold verify_service. split_and!.
  - intros -> Hu%String.eqb_neq Hq%String.eqb_neq. simpl.
    by rewrite Hu, Hq.
  - intros -> -> Hscan Hst. simpl. rewrite String.eqb_refl.
    unfold verify_update_service. rewrite Hscan. simpl.
    assert (verify_stat2name (rq_addr_status rq) = None) as ->; [|done].
    apply verify_stat2name_None.
    destruct Hst as [?| ->]; [done |].
    destruct (rcpt_stat_distinct Hwf) as (_ & _ & ? & ? & ?). done.
  - intros [Hreq|[[-> Hscan]|(Hu%String.eqb_neq & Hq & Hscan)]].
    + apply Z.eqb_neq in Hreq. by rewrite Hreq.
    + rewrite String.eqb_refl. unfold verify_update_service.
      apply Z.eqb_neq in Hscan. rewrite Hscan.
      by destruct (rq_scan_request rq =? 1).
    + rewrite Hu, Hq, String.eqb_refl. unfold verify_query_service.
      apply Z.eqb_neq in Hscan. rewrite Hscan.
      by destruct (rq_scan_request rq =? 1).
Qed.

End bad_requests.

Section bad_requests_examples.
#[local] Existing Instance postfix_deliver_request_h.
#[local] Existing Instance postfix_verify_clnt_h.
#[local] Existing Instance postfix_mail_proto_h.

(** An UPDATE and a QUERY whose attribute scan fails are not answered
    at all. *)
Lemma verify_service_scan_failure_no_reply :
  rq_scan_args short_update_rq ≠ 3
  ∧ verify_service (params_with 1) 1000000 post_ok short_update_rq ∅
    = (∅, [Flush])
  ∧ rq_scan_args short_query_rq ≠ 1
  ∧ verify_service (params_with 1) 1000000 post_ok short_query_rq ∅
    = (∅, [Flush])
  ∧ ¬ Reply [ATTR_NUM MAIL_ATTR_STATUS VRFY_STAT_BAD]
      ∈ (verify_service (params_with 1) 1000000 post_ok short_update_rq
           ∅).2.
Proof.
  split; [discriminate |]. split; [reflexivity |].
  split; [discriminate |]. split; [reflexivity |].
  change (verify_service (params_with 1) 1000000 post_ok short_update_rq ∅)
    with (∅ : gmap string string, [Flush]).
  simpl. rewrite list_elem_of_singleton. discriminate.
Qed.

Lemma verify_service_bad_request_witness :
  rcpt_stat_wf
  ∧ verify_service (params_with 1) 1000000 post_ok
      (update_rq "u@x" 3 "probing") map_with_ok
    = (map_with_ok, [Reply [ATTR_NUM "status" (-2)]; Flush]).
Proof.
  split; [exact postfix_rcpt_stat_wf |].
  destruct (verify_service_bad_request (params_with 1) 1000000 post_ok
              (update_rq "u@x" 3 "probing") map_with_ok
              postfix_rcpt_stat_wf) as (_ & Hbad & _).
  apply Hbad; [reflexivity.. |]. right. reflexivity.
Defined.

End bad_requests_examples.

(** ** Hash tables *)

Lemma htable_locate_None {V} (table : list (string * V)) (key : string) :
  htable_locate table key = None ↔ key ∉ table.*1.
Proof.
  induction table as [|[k v] table IH]; simpl.
  - split; [intros _; apply not_elem_of_nil | done].
  - rewrite not_elem_of_cons. destruct (String.eqb_spec k key) as [->|Hne].
    + split; [done | by intros [? _]].
    + rewrite IH. split; [by intros ?; split; [congruence |] | by intros [_ ?]].
Qed.

Lemma htable_locate_Some {V} (table : list (string * V)) (key : string) :
  is_Some (htable_locate table key) ↔ key ∈ table.*1.
Proof.
  pose proof (htable_locate_None table key) as Hnone.
  destruct (htable_locate table key) as [entry|].
  - split; [intros _ | by eauto].
    destruct (decide (key ∈ table.*1)) as [|Hnot]; [done |].
    by apply Hnone in Hnot.
  - split; [by intros [? ?] | intros Hin]. by destruct (proj1 Hnone).
Qed.

Lemma htable_count_absent {V} (table : list (string * V)) (key : string) :
  key ∉ table.*1 → htable_count table key = 0%nat.
Proof.
  unfold htable_count. induction table as [|[k v] table IH]; simpl; [done |].
  rewrite not_elem_of_cons. intros [Hne Hnot].
  rewrite filter_cons_False by (simpl; congruence). auto.
Qed.

Lemma htable_count_NoDup {V} (table : list (string * V)) (key : string) :
  NoDup table.*1 → key ∈ table.*1 → htable_count table key = 1%nat.
Proof.
  unfold htable_count. induction table as [|[k v] table IH]; simpl.
  - by intros _ ?%elem_of_nil.
  - intros [Hk Hnd]%NoDup_cons [->|Hin]%elem_of_cons.
    + rewrite filter_cons_True by done. simpl. f_equal.
      by apply htable_count_absent.
    + rewrite filter_cons_False; [auto |]. simpl. by intros ->.
Qed.

(** ** The canonical form of a table name *)

Section canonical.
Context `{dict_proxy_h}.

Lemma PROXY_COLON_LEN_pos : (1 ≤ PROXY_COLON_LEN)%nat.
Proof.
  unfold PROXY_COLON_LEN, PROXY_COLON. rewrite length_app_s. simpl. lia.
Qed.

Lemma has_prefix_PROXY_COLON_empty : has_prefix PROXY_COLON "" = false.
Proof.
  pose proof PROXY_COLON_LEN_pos as Hlen. unfold PROXY_COLON_LEN in Hlen.
  destruct PROXY_COLON; [simpl in Hlen; lia | done].
Qed.

Lemma advance_PROXY_COLON_length (s : string) :
  has_prefix PROXY_COLON s = true →
  (String.length (advance PROXY_COLON_LEN s) < String.length s)%nat.
Proof.
  intros Hp%has_prefix_inv. pose proof PROXY_COLON_LEN_pos.
  rewrite Hp at 2. rewrite length_app_s. fold PROXY_COLON_LEN. lia.
Qed.

(** Any fuel not less than the length of the name is enough. *)
Lemma skip_proxy_colon_fuel (fuel : nat) (s : string) :
  (String.length s ≤ fuel)%nat →
  skip_proxy_colon fuel s = canonical_map_name s.
Proof.
  unfold canonical_map_name.
  enough (Hgen : ∀ fuel1 fuel2 s,
            (String.length s ≤ fuel1)%nat → (String.length s ≤ fuel2)%nat →
            skip_proxy_colon fuel1 s = skip_proxy_colon fuel2 s)
    by (intros ?; by apply Hgen).
  clear fuel s. induction fuel1 as [|fuel1 IH]; intros fuel2 s H1 H2.
  - destruct s; [|simpl in H1; lia].
    destruct fuel2; cbn [skip_proxy_colon]; [done |].
    by rewrite has_prefix_PROXY_COLON_empty.
  - destruct fuel2 as [|fuel2].
    + destruct s; [|simpl in H2; lia]. cbn [skip_proxy_colon].
      by rewrite has_prefix_PROXY_COLON_empty.
    + cbn [skip_proxy_colon].
      destruct (has_prefix PROXY_COLON s) eqn:Hp; [|done].
      pose proof (advance_PROXY_COLON_length s Hp). apply IH; lia.
Qed.

(** The loop ends because the prefix is gone, not for want of fuel. *)
Lemma canonical_map_name_no_prefix (s : string) :
  has_prefix PROXY_COLON (canonical_map_name s) = false.
Proof.
  unfold canonical_map_name.
  enough (Hgen : ∀ fuel s,
            (String.length s ≤ fuel)%nat →
            has_prefix PROXY_COLON (skip_proxy_colon fuel s) = false)
    by (by apply Hgen).
  clear s. induction fuel as [|fuel IH]; intros s Hlen.
  - destruct s; [|simpl in Hlen; lia].
    apply has_prefix_PROXY_COLON_empty.
  - cbn [skip_proxy_colon].
    destruct (has_prefix PROXY_COLON s) eqn:Hp; [|done].
    pose proof (advance_PROXY_COLON_length s Hp). apply IH. lia.
Qed.

Lemma canonical_map_name_id (s : string) :
  has_prefix PROXY_COLON s = false → canonical_map_name s = s.
Proof.
  intros Hp. unfold canonical_map_name.
  destruct (String.length s); cbn [skip_proxy_colon]; [done | by rewrite Hp].
Qed.

Lemma canonical_map_name_strip (s : string) :
  canonical_map_name (PROXY_COLON +:+ s) = canonical_map_name s.
Proof.
  unfold canonical_map_name at 1. rewrite length_app_s.
  pose proof PROXY_COLON_LEN_pos as Hlen. unfold PROXY_COLON_LEN in Hlen.
  destruct (String.length PROXY_COLON) as [|n] eqn:Hn; [lia |].
  cbn [skip_proxy_colon Nat.add]. rewrite has_prefix_app.
  unfold PROXY_COLON_LEN. rewrite advance_app.
  apply skip_proxy_colon_fuel. lia.
Qed.

Lemma canonical_map_name_prefixes (n : nat) (s : string) :
  canonical_map_name (proxy_prefixes n s) = canonical_map_name s.
Proof.
  induction n as [|n IH]; cbn [proxy_prefixes]; [done |].
  by rewrite canonical_map_name_strip.
Qed.

End canonical.

(** ** The allow-list built by [post_jail_init] *)

Lemma skip_sep_length (sep s : string) :
  (String.length (skip_sep sep s) ≤ String.length s)%nat.
Proof.
  induction s as [|c s IH]; simpl; [done |].
  destruct (is_sep sep c); simpl; lia.
Qed.

Lemma cut_token_length (sep s : string) :
  (String.length (cut_token sep s).2 ≤ String.length s)%nat.
Proof.
  induction s as [|c s IH]; simpl; [done |].
  destruct (is_sep sep c); simpl; [lia |].
  destruct (cut_token sep s). simpl in *. lia.
Qed.

Lemma mystrtok_length (src sep token rest : string) :
  mystrtok src sep = Some (token, rest) →
  (String.length rest < String.length src)%nat.
Proof.
  unfold mystrtok. pose proof (skip_sep_length sep src) as Hskip.
  destruct (skip_sep sep src) as [|c start]; [done |].
  intros [= Hcut]. simpl in Hcut, Hskip.
  pose proof (cut_token_length sep start) as Hlen.
  destruct (is_sep sep c); [simplify_eq; lia |].
  destruct (cut_token sep start). simplify_eq. simpl in *. lia.
Qed.

Section allow_list.
Context `{dict_proxy_h}.

Lemma approve_wf (type_name : string) (table : list (string * unit)) :
  allow_list_wf table → allow_list_wf (approve type_name table).
Proof.
  intros [Hnd Hall]. unfold approve.
  destruct (has_prefix PROXY_COLON type_name); simpl; [|done].
  fold (canonical_map_name (advance PROXY_COLON_LEN type_name)).
  set (name := canonical_map_name (advance PROXY_COLON_LEN type_name)).
  destruct (bool_decide (is_Some (strchr name ":"))) eqn:Hcolon; [|done].
  destruct (bool_decide (htable_locate table name = None)) eqn:Hnew;
    [|done].
  apply bool_decide_eq_true in Hcolon, Hnew. simpl.
  apply htable_locate_None in Hnew. split.
  - simpl. by apply NoDup_cons.
  - intros k [->|Hk]%elem_of_cons; [|by apply Hall].
    split; [done | apply canonical_map_name_no_prefix].
Qed.

Lemma approve_tokens_wf (fuel : nat) (bp sep : string)
    (table : list (string * unit)) :
  allow_list_wf table → allow_list_wf (approve_tokens fuel bp sep table).
Proof.
  revert bp table. induction fuel as [|fuel IH]; intros bp table Hwf;
    simpl; [done |].
  destruct (mystrtok bp sep) as [[type_name bp']|]; [|done].
  by apply IH, approve_wf.
Qed.

(** The loop ends at the end of the string, not for want of fuel. *)
Lemma approve_tokens_fuel (fuel : nat) (bp sep : string)
    (table : list (string * unit)) :
  (String.length bp ≤ fuel)%nat →
  approve_tokens fuel bp sep table
  = approve_tokens (String.length bp) bp sep table.
Proof.
  enough (Hgen : ∀ fuel1 fuel2 bp table,
            (String.length bp ≤ fuel1)%nat →
            (String.length bp ≤ fuel2)%nat →
            approve_tokens fuel1 bp sep table
            = approve_tokens fuel2 bp sep table)
    by (intros ?; by apply Hgen).
  clear. induction fuel1 as [|fuel1 IH]; intros fuel2 bp table H1 H2.
  - destruct bp; [|simpl in H1; lia]. by destruct fuel2.
  - destruct fuel2 as [|fuel2].
    + destruct bp; [|simpl in H2; lia]. done.
    + simpl. destruct (mystrtok bp sep) as [[type_name bp']|] eqn:Htok;
        [|done].
      apply mystrtok_length in Htok. apply IH; lia.
Qed.

Lemma post_jail_init_wf (var_proxy_read_maps : string) :
  allow_list_wf (proxy_read_maps (post_jail_init var_proxy_read_maps))
  ∧ dict_table (post_jail_init var_proxy_read_maps) = [].
Proof.
  split; [|done]. apply approve_tokens_wf. split; [constructor |].
  by intros name ?%elem_of_nil.
Qed.

End allow_list.

(** ** The gate of [proxy_map_find] *)

Section proxy_gate.
Context `{dict_proxy_h, mail_proto_h}.
Variable dict_open : string → Z → Z → option DICT.

Lemma proxy_map_find_result (map_type_name : string) (request_flags : Z)
    (st : proxy_state) :
  let canon := canonical_map_name map_type_name in
  (proxy_map_find dict_open map_type_name request_flags st).1.1
  = match strchr canon ":" with
    | None => FIND_ERROR PROXY_STAT_BAD
    | Some _ =>
        match htable_locate (proxy_read_maps st) canon with
        | None => FIND_ERROR PROXY_STAT_DENY
        | Some _ =>
            match handle_for dict_open st canon request_flags with
            | Some dict => FIND_DICT dict
            | None => FIND_PANIC
            end
        end
    end.
Proof.
  simpl. unfold proxy_map_find, handle_for.
  destruct (strchr (canonical_map_name map_type_name) ":"); [|done].
  destruct (htable_locate (proxy_read_maps st) _); [|done].
  destruct (dict_handle (dict_table st) _); [done |].
  by destruct (dict_open _ _ _).
Qed.

(** A request that does not pass the gate changes nothing and opens
    nothing. *)
Lemma proxy_map_find_error (map_type_name : string) (request_flags : Z)
    (st : proxy_state) (stat : Z) :
  (proxy_map_find dict_open map_type_name request_flags st).1.1
  = FIND_ERROR stat →
  proxy_map_find dict_open map_type_name request_flags st
  = (FIND_ERROR stat, st, []).
Proof.
  unfold proxy_map_find.
  destruct (strchr (canonical_map_name map_type_name) ":");
    [|by intros [= ->]].
  destruct (htable_locate (proxy_read_maps st) _); [|by intros [= ->]].
  destruct (dict_handle (dict_table st) _); [done |].
  by destruct (dict_open _ _ _).
Qed.

(** C5: for a table name made of any number of "proxy:" prefixes and a
    name [type_name], [proxy_map_find] decides on the canonical form of
    [type_name] (which is [type_name] itself unless it begins with
    "proxy:"): the request passes if and only if that form is on the
    allow-list built by [post_jail_init]; without an inner colon it is
    refused with [PROXY_STAT_BAD], with one but not on the list with
    [PROXY_STAT_DENY], and OPEN and LOOKUP reply that status. *)
Theorem proxy_map_find_allow_list (var_proxy_read_maps : string)
    (st : proxy_state) (n : nat) (type_name : string) (request_flags : Z) :
  proxy_read_maps st
  = proxy_read_maps (post_jail_init var_proxy_read_maps) →
  let map_type_name := proxy_prefixes n type_name in
  let canon := canonical_map_name type_name in
  let found :=
    (proxy_map_find dict_open map_type_name request_flags st).1.1 in
  canonical_map_name map_type_name = canon
  ∧ (has_prefix PROXY_COLON type_name = false → canon = type_name)
  ∧ ((∀ stat, found ≠ FIND_ERROR stat) ↔ canon ∈ approved st)
  ∧ (strchr canon ":" = None → found = FIND_ERROR PROXY_STAT_BAD)
  ∧ (is_Some (strchr canon ":") → canon ∉ approved st →
     found = FIND_ERROR PROXY_STAT_DENY)
  ∧ (∀ stat rq,
       found = FIND_ERROR stat →
       prq_map rq = map_type_name → prq_flags rq = request_flags →
       (prq_scan_args rq = 2 →
        proxymap_open_service dict_open rq st
        = (Some st, [Reply [ATTR_NUM MAIL_ATTR_STATUS stat;
                            ATTR_NUM MAIL_ATTR_FLAGS 0]]))
       ∧ (prq_scan_args rq = 3 →
          proxymap_lookup_service dict_open rq st
          = (Some st, [Reply [ATTR_NUM MAIL_ATTR_STATUS stat;
                              ATTR_STR MAIL_ATTR_VALUE ""]]))).
Proof.
  intros Hlist. simpl.
  destruct (post_jail_init_wf var_proxy_read_maps) as [[_ Hwf] _].
  rewrite <- Hlist in Hwf. unfold approved.
  rewrite proxy_map_find_result, canonical_map_name_prefixes.
  split_and!.
  - done.
  - apply canonical_map_name_id.
  - split.
    + intros Hpass.
      destruct (strchr (canonical_map_name type_name) ":");
        [|by destruct (Hpass PROXY_STAT_BAD)].
      apply htable_locate_Some.
      destruct (htable_locate (proxy_read_maps st) _);
        [done | by destruct (Hpass PROXY_STAT_DENY)].
    + intros Hin stat. destruct (Hwf _ Hin) as [[suffix ->] _].
      apply htable_locate_Some in Hin as [entry ->].
      by destruct (handle_for dict_open st _ request_flags).
  - by intros ->.
  - intros [suffix ->] Hnot%htable_locate_None. by rewrite Hnot.
  - intros stat rq Hfound Hmap Hflags.
    rewrite <- (canonical_map_name_prefixes n), <- proxy_map_find_result
      in Hfound.
    apply proxy_map_find_error in Hfound.
    unfold proxymap_open_service, proxymap_lookup_service.
    rewrite Hmap, Hflags, Hfound. by split; intros ->.
Qed.

End proxy_gate.

(** ** The handle cache *)

Section handle_reuse.
Context `{dict_proxy_h, mail_proto_h}.
Variable dict_open : string → Z → Z → option DICT.

(** What [proxy_map_find] does with a name that passes the gate. *)
Lemma proxy_map_find_pass (map_type_name : string) (request_flags : Z)
    (st : proxy_state) :
  let canon := canonical_map_name map_type_name in
  let key := handle_key map_type_name request_flags in
  is_Some (strchr canon ":") → canon ∈ approved st →
  proxy_map_find dict_open map_type_name request_flags st
  = match dict_handle (dict_table st) key with
    | Some dict => (FIND_DICT dict, st, [])
    | None =>
        match dict_open canon READ_OPEN_FLAGS request_flags with
        | Some dict =>
            (FIND_DICT dict,
             {| proxy_read_maps := proxy_read_maps st;
                dict_table := htable_enter (dict_table st) key dict |},
             [DictOpen canon READ_OPEN_FLAGS request_flags])
        | None =>
            (FIND_PANIC, st, [DictOpen canon READ_OPEN_FLAGS request_flags])
        end
    end.
Proof.
  simpl. intros [suffix Hcolon] [entry Hin]%htable_locate_Some.
  unfold proxy_map_find, handle_key. rewrite Hcolon, Hin.
  unfold dict_handle, dict_register.
  destruct (htable_locate (dict_table st) _) as [found|]; simpl.
  - by destruct st.
  - by destruct (dict_open _ _ _).
Qed.

Lemma dict_handle_enter (table : list (string * DICT)) (key : string)
    (dict : DICT) :
  dict_handle (htable_enter table key dict) key = Some dict.
Proof.
  unfold dict_handle, htable_enter. simpl. by rewrite String.eqb_refl.
Qed.

Lemma dict_handle_Some (table : list (string * DICT)) (key : string)
    (dict : DICT) :
  dict_handle table key = Some dict → key ∈ table.*1.
Proof.
  unfold dict_handle. intros Hh. apply htable_locate_Some.
  by destruct (htable_locate table key).
Qed.

Lemma dict_handle_None (table : list (string * DICT)) (key : string) :
  dict_handle table key = None → key ∉ table.*1.
Proof.
  unfold dict_handle. intros Hh. apply htable_locate_None.
  by destruct (htable_locate table key).
Qed.

(** C7: two OPEN requests with the same table name and flags, for an
    approved table that opens, are both answered with status OK and the
    same flags; afterwards the handle cache holds exactly one entry
    under the key "type:name:octal-flags", and the second request opens
    no table. *)
Theorem proxymap_open_reuse (var_proxy_read_maps : string)
    (rq : proxy_request) (st : proxy_state) :
  proxy_read_maps st
  = proxy_read_maps (post_jail_init var_proxy_read_maps) →
  NoDup (dict_table st).*1 →
  prq_scan_args rq = 2 →
  canonical_map_name (prq_map rq) ∈ approved st →
  is_Some (dict_open (canonical_map_name (prq_map rq)) READ_OPEN_FLAGS
             (prq_flags rq)) →
  let run := proxymap_two_opens dict_open rq st in
  ∃ st2 reply_flags,
    run.1.1 = Some st2
    ∧ replies run.1.2
      = [[ATTR_NUM MAIL_ATTR_STATUS PROXY_STAT_OK;
          ATTR_NUM MAIL_ATTR_FLAGS reply_flags]]
    ∧ replies run.2
      = [[ATTR_NUM MAIL_ATTR_STATUS PROXY_STAT_OK;
          ATTR_NUM MAIL_ATTR_FLAGS reply_flags]]
    ∧ htable_count (dict_table st2)
        (handle_key (prq_map rq) (prq_flags rq)) = 1%nat
    ∧ dict_opens run.2 = []
    ∧ (length (dict_opens run.1.2) ≤ 1)%nat.
Proof.
  intros Hlist Hnd Hscan Hin [dict Hopen]. simpl.
  destruct (post_jail_init_wf var_proxy_read_maps) as [[_ Hwf] _].
  rewrite <- Hlist in Hwf. destruct (Hwf _ Hin) as [Hcolon _].
  unfold proxymap_two_opens, proxymap_open_service. rewrite Hscan. simpl.
  rewrite (proxy_map_find_pass _ _ st Hcolon Hin).
  destruct (dict_handle (dict_table st)
              (handle_key (prq_map rq) (prq_flags rq)))
    as [cached|] eqn:Hcache.
  - simpl. rewrite (proxy_map_find_pass _ _ st Hcolon Hin), Hcache. simpl.
    exists st, (dict_flags cached). split_and!; try done; [|simpl; lia].
    apply htable_count_NoDup; [done | by eapply dict_handle_Some].
  - rewrite Hopen. simpl.
    rewrite proxy_map_find_pass by done. simpl.
    rewrite dict_handle_enter. simpl.
    eexists _, (dict_flags dict). split_and!; try done.
    simpl. unfold htable_count, htable_enter.
    rewrite filter_cons_True by done. simpl. f_equal.
    by apply htable_count_absent, dict_handle_None.
Qed.

(** The table of handles never holds a key twice. *)
Lemma dict_register_NoDup (table : list (string * DICT)) (key : string)
    (dict : DICT) :
  NoDup table.*1 → NoDup (dict_register table key dict).*1.
Proof.
  intros Hnd. unfold dict_register.
  destruct (htable_locate table key) eqn:Hloc; [done |].
  simpl. apply NoDup_cons. split; [|done]. by apply htable_locate_None.
Qed.

Lemma proxy_map_find_NoDup (map_type_name : string) (request_flags : Z)
    (st : proxy_state) :
  NoDup (dict_table st).*1 →
  NoDup
    (dict_table
       (proxy_map_find dict_open map_type_name request_flags st).1.2).*1.
Proof.
  intros Hnd. unfold proxy_map_find.
  repeat case_match; simplify_eq; cbn [fst snd dict_table]; try done;
    by apply dict_register_NoDup.
Qed.

End handle_reuse.

Section proxymap_examples.
#[local] Existing Instance postfix_dict_proxy_h.
#[local] Existing Instance postfix_mail_proto_h.

Example post_jail_init_read_maps_a :
  approved (post_jail_init read_maps_a)
  = ["hash:/etc/a"; "unix:passwd.byname"].
Proof. reflexivity. Qed.

Lemma proxy_map_find_allow_list_witness :
  proxy_read_maps (post_jail_init read_maps_a)
  = proxy_read_maps (post_jail_init read_maps_a)
  ∧ canonical_map_name "hash:/etc/a" ∈ approved (post_jail_init read_maps_a)
  ∧ ∀ stat,
      (proxy_map_find dict_open_a (proxy_prefixes 3 "hash:/etc/a") 0
         (post_jail_init read_maps_a)).1.1
      ≠ FIND_ERROR stat.
Proof.
  assert (Hin :
    canonical_map_name "hash:/etc/a"
    ∈ approved (post_jail_init read_maps_a)).
  { apply (bool_decide_unpack _). vm_compute. exact I. }
  split; [reflexivity |]. split; [exact Hin |].
  destruct (proxy_map_find_allow_list dict_open_a read_maps_a
              (post_jail_init read_maps_a) 3 "hash:/etc/a" 0 eq_refl)
    as (_ & _ & Hpass & _).
  apply Hpass, Hin.
Defined.

Lemma proxymap_open_reuse_witness :
  proxy_read_maps (post_jail_init read_maps_a)
  = proxy_read_maps (post_jail_init read_maps_a)
  ∧ NoDup (dict_table (post_jail_init read_maps_a)).*1
  ∧ prq_scan_args (open_rq "proxy:hash:/etc/a" 0) = 2
  ∧ canonical_map_name (prq_map (open_rq "proxy:hash:/etc/a" 0))
    ∈ approved (post_jail_init read_maps_a)
  ∧ is_Some (dict_open_a
               (canonical_map_name (prq_map (open_rq "proxy:hash:/etc/a" 0)))
               READ_OPEN_FLAGS (prq_flags (open_rq "proxy:hash:/etc/a" 0)))
  ∧ ∃ st2 reply_flags,
      (proxymap_two_opens dict_open_a (open_rq "proxy:hash:/etc/a" 0)
         (post_jail_init read_maps_a)).1.1 = Some st2
      ∧ replies
          (proxymap_two_opens dict_open_a (open_rq "proxy:hash:/etc/a" 0)
             (post_jail_init read_maps_a)).1.2
        = [[ATTR_NUM MAIL_ATTR_STATUS PROXY_STAT_OK;
            ATTR_NUM MAIL_ATTR_FLAGS reply_flags]]
      ∧ replies
          (proxymap_two_opens dict_open_a (open_rq "proxy:hash:/etc/a" 0)
             (post_jail_init read_maps_a)).2
        = [[ATTR_NUM MAIL_ATTR_STATUS PROXY_STAT_OK;
            ATTR_NUM MAIL_ATTR_FLAGS reply_flags]]
      ∧ htable_count (dict_table st2)
          (handle_key (prq_map (open_rq "proxy:hash:/etc/a" 0))
             (prq_flags (open_rq "proxy:hash:/etc/a" 0))) = 1%nat
      ∧ dict_opens
          (proxymap_two_opens dict_open_a (open_rq "proxy:hash:/etc/a" 0)
             (post_jail_init read_maps_a)).2 = []
      ∧ (length
           (dict_opens
              (proxymap_two_opens dict_open_a
                 (open_rq "proxy:hash:/etc/a" 0)
                 (post_jail_init read_maps_a)).1.2) ≤ 1)%nat.
Proof.
  assert (Hnd : NoDup (dict_table (post_jail_init read_maps_a)).*1)
    by constructor.
  assert (Hin :
    canonical_map_name (prq_map (open_rq "proxy:hash:/etc/a" 0))
    ∈ approved (post_jail_init read_maps_a)).
  { apply (bool_decide_unpack _). vm_compute. exact I. }
  assert (Hopen :
    is_Some (dict_open_a
               (canonical_map_name (prq_map (open_rq "proxy:hash:/etc/a" 0)))
               READ_OPEN_FLAGS (prq_flags (open_rq "proxy:hash:/etc/a" 0))))
    by (eexists; reflexivity).
  split; [reflexivity |]. split; [exact Hnd |]. split; [reflexivity |].
  split; [exact Hin |]. split; [exact Hopen |].
  exact (proxymap_open_reuse dict_open_a read_maps_a
           (open_rq "proxy:hash:/etc/a" 0) (post_jail_init read_maps_a)
           eq_refl Hnd eq_refl Hin Hopen).
Defined.

(** Scenario "Proxy deny": cdb:/etc/b is not approved; nothing is
    opened. *)
Example proxy_deny :
  proxymap_lookup_service dict_open_a
    (lookup_rq "proxy:proxy:cdb:/etc/b" 0 "k") (post_jail_init read_maps_a)
  = (Some (post_jail_init read_maps_a),
     [Reply [ATTR_NUM "status" 4; ATTR_STR "value" ""]]).
Proof. reflexivity. Qed.

(** Scenario "Proxy lookup": the first request opens the table, the
    second finds the handle under "hash:/etc/a:0". *)
Example proxy_lookup :
  (proxymap_lookup_service dict_open_a
     (lookup_rq "proxy:hash:/etc/a" 0 "k") (post_jail_init read_maps_a)).2
  = [DictOpen "hash:/etc/a" 0 0;
     Reply [ATTR_NUM "status" 0; ATTR_STR "value" "v"]]
  ∧ ∀ st1,
      (proxymap_lookup_service dict_open_a
         (lookup_rq "proxy:hash:/etc/a" 0 "k")
         (post_jail_init read_maps_a)).1 = Some st1 →
      (dict_table st1).*1 = ["hash:/etc/a:0"]
      ∧ (proxymap_lookup_service dict_open_a
           (lookup_rq "proxy:hash:/etc/a" 0 "k") st1).2
        = [Reply [ATTR_NUM "status" 0; ATTR_STR "value" "v"]].
Proof. split; [reflexivity |]. intros st1 [= <-]. split; reflexivity. Qed.

(** A name without an inner colon is a malformed request. *)
Example proxy_bad :
  proxymap_open_service dict_open_a (open_rq "proxy:proxy:passwd" 0)
    (post_jail_init read_maps_a)
  = (Some (post_jail_init read_maps_a),
     [Reply [ATTR_NUM "status" 3; ATTR_NUM "flags" 0]]).
Proof. reflexivity. Qed.

Example fmt_o_examples :
  fmt_o 0 = "0" ∧ fmt_o 8 = "10" ∧ fmt_o 493 = "755"
  ∧ fmt_o (-1) = "37777777777".
Proof. repeat split; reflexivity. Qed.

End proxymap_examples.

(** ** Requests the proxy does not serve *)

Section proxy_bad_requests.
Context `{dict_proxy_h, mail_proto_h}.
Variable dict_open : string → Z → Z → option DICT.

(** The proxy answers BAD to an unknown request name and to OPEN and
    LOOKUP requests whose arguments do not scan; like the verifier it
    does not answer when the request name does not scan. *)
Lemma proxymap_service_bad_request (rq : proxy_request) (st : proxy_state) :
  (prq_scan_request rq = 1 →
   rq_known rq = false →
   proxymap_service dict_open rq st
   = (Some st, [Reply [ATTR_NUM MAIL_ATTR_STATUS PROXY_STAT_BAD]; Flush]))
  ∧ (prq_scan_request rq = 1 → prq_request rq = PROXY_REQ_LOOKUP →
     prq_scan_args rq ≠ 3 →
     proxymap_service dict_open rq st
     = (Some st, [Reply [ATTR_NUM MAIL_ATTR_STATUS PROXY_STAT_BAD;
                         ATTR_STR MAIL_ATTR_VALUE ""]; Flush]))
  ∧ (prq_scan_request rq = 1 → prq_request rq ≠ PROXY_REQ_LOOKUP →
     prq_request rq = PROXY_REQ_OPEN → prq_scan_args rq ≠ 2 →
     proxymap_service dict_open rq st
     = (Some st, [Reply [ATTR_NUM MAIL_ATTR_STATUS PROXY_STAT_BAD;
                         ATTR_NUM MAIL_ATTR_FLAGS 0]; Flush]))
  ∧ (prq_scan_request rq ≠ 1 →
     proxymap_service dict_open rq st = (Some st, [Flush])).
Proof.
  unfold proxymap_service, rq_known. split_and!.
  - intros -> [Hl Ho]%orb_false_elim. simpl. by rewrite Hl, Ho.
  - intros -> -> Hscan%Z.eqb_neq. simpl. rewrite String.eqb_refl.
    unfold proxymap_lookup_service. by rewrite Hscan.
  - intros -> Hl%String.eqb_neq Ho Hscan%Z.eqb_neq. simpl.
    rewrite Hl, Ho, String.eqb_refl.
    unfold proxymap_open_service. by rewrite Hscan.
  - intros Hreq%Z.eqb_neq. by rewrite Hreq.
Qed.

End proxy_bad_requests.

(* ===================================================================== *)
(** * Part III: further properties of the code *)
(* ===================================================================== *)

(** ** verify.c: what the parser rejects *)

Lemma split_at_count (s head rest : string) (c : ascii) :
  split_at s c = Some (head, rest) →
  count_char c s = S (count_char c rest).
Proof.
  revert head. induction s as [|a s IH]; simpl; intros head Hs; [done |].
  destruct (Ascii.eqb a c); [by simplify_eq |].
  destruct (split_at s c) as [[h t]|]; simplify_eq. by rewrite (IH h).
Qed.

Section parse_rejects.
Context `{deliver_request_h}.

Lemma verify_parse_entry_few_colons (raw : string)
    (status_p probed_p updated_p text_p : out_ptr) :
  non_null status_p = true → non_null probed_p = true →
  non_null updated_p = true → non_null text_p = true →
  (count_char ":" raw < 3)%nat →
  verify_parse_entry raw status_p probed_p updated_p text_p = PARSE_BAD.
Proof.
  intros Hs Hp Hu Ht Hn.
  unfold verify_parse_entry. rewrite Hs, Hp, Hu, Ht. simpl.
  destruct (split_at raw ":") as [[f0 r0]|] eqn:Hs0; [|done].
  destruct (split_at r0 ":") as [[f1 r1]|] eqn:Hs1; [|done].
  destruct (split_at r1 ":") as [[f2 r2]|] eqn:Hs2; [|done].
  apply split_at_count in Hs0, Hs1, Hs2. lia.
Qed.

(** X1: with result pointers that are not null, [verify_parse_entry]
    returns -1 exactly for an entry with fewer than three colons, or whose
    leading field does not read as one of the four status codes. *)
Theorem verify_parse_entry_rejects (raw : string)
    (status_p probed_p updated_p text_p : out_ptr) :
  non_null status_p = true → non_null probed_p = true →
  non_null updated_p = true → non_null text_p = true →
  verify_parse_entry raw status_p probed_p updated_p text_p = PARSE_BAD
  ↔ (count_char ":" raw < 3)%nat
    ∨ is_rcpt_stat (atoi (leading_field raw)) = false.
Proof.
  intros Hs Hp Hu Ht.
  destruct (decide (3 ≤ count_char ":" raw)%nat) as [Hn|Hn].
  - destruct (three_colons raw Hn)
      as (f0 & f1 & f2 & text & -> & H0 & H1 & H2).
    rewrite verify_parse_entry_fields by done.
    unfold leading_field. rewrite !app_char in Hn.
    rewrite !app_char, split_at_app by done.
    split; [|intros [?| ->]; [lia | done]].
    destruct (is_rcpt_stat (atoi f0)); [done | by right].
  - split; [intros _; left; lia | intros _].
    apply verify_parse_entry_few_colons; [done.. | lia].
Qed.

End parse_rejects.

Section parse_rejects_examples.
#[local] Existing Instance postfix_deliver_request_h.

Lemma verify_parse_entry_rejects_witness :
  non_null (ADDR_OF "addr_status") = true
  ∧ (count_char ":" "0:0:110" < 3)%nat
  ∧ parse_stored "0:0:110" = PARSE_BAD
  ∧ parse_stored "7:0:110:250 ok" = PARSE_BAD.
Proof.
  split; [reflexivity |]. split; [vm_compute; lia |]. split.
  - apply (verify_parse_entry_rejects "0:0:110"); try reflexivity.
    left. vm_compute. lia.
  - apply (verify_parse_entry_rejects "7:0:110:250 ok"); try reflexivity.
    right. reflexivity.
Defined.

End parse_rejects_examples.

(** ** verify.c: UPDATE *)

Section update_more.
Context `{deliver_request_h, verify_clnt_h, mail_proto_h}.
Variable params : verify_params.

Lemma verify_stat2name_Some (addr_status : Z) :
  is_Some (verify_stat2name addr_status) →
  is_rcpt_stat addr_status = true
  ∧ (rcpt_stat_wf → addr_status ≠ DEL_RCPT_STAT_TODO).
Proof.
  unfold verify_stat2name, is_rcpt_stat. intros Hsome. split.
  - repeat case_match; try done; by destruct Hsome.
  - intros Hwf ->. destruct (rcpt_stat_distinct Hwf) as (_ & _ & ? & ? & ?).
    rewrite !(proj2 (Z.eqb_neq _ _)) in Hsome by done. by destruct Hsome.
Qed.

(** X2: an UPDATE with status OK, DEFER or BOUNCE is applied when it says
    OK, when the address has no entry, or when the quick test does not read
    the stored entry as OK: the entry becomes (status, 0, now, text), the
    reply is OK, and the entry written is one the parser reads back. *)
Theorem verify_update_overwrites (now : Z) (rq : client_request)
    (verify_map : gmap string string) :
  rq_scan_args rq = 3 →
  is_int (rq_addr_status rq) → is_long now →
  is_Some (verify_stat2name (rq_addr_status rq)) →
  rq_addr_status rq = DEL_RCPT_STAT_OK
  ∨ dict_get verify_map (rq_addr rq) = None
  ∨ (∃ raw, dict_get verify_map (rq_addr rq) = Some raw
            ∧ STATUS_FROM_RAW_ENTRY raw ≠ DEL_RCPT_STAT_OK) →
  let entry :=
    verify_make_entry (rq_addr_status rq) 0 now (rq_text rq) in
  verify_update_service now rq verify_map
  = (dict_put verify_map (rq_addr rq) entry,
     [DictPut (rq_addr rq) entry;
      Reply [ATTR_NUM MAIL_ATTR_STATUS VRFY_STAT_OK]])
  ∧ parse_stored entry
    = PARSE_OK (rq_addr_status rq) 0 now (rq_text rq).
Proof.
  intros Hscan Hint Hnow Hname Hcase. simpl. split.
  - unfold verify_update_service. rewrite Hscan. simpl.
    destruct Hname as [name ->].
    destruct Hcase as [-> | [-> | (raw & -> & Hst%Z.eqb_neq)]].
    + by rewrite Z.eqb_refl.
    + by rewrite orb_true_r.
    + by rewrite Hst, orb_true_r.
  - apply parse_stored_make_entry; try done.
    by apply verify_stat2name_Some.
Qed.

(** X3: the protective rule looks at the leading number only.  An entry
    with fewer than three colons whose leading field reads as OK keeps a
    DEFER or BOUNCE update out, although a QUERY treats the same entry as
    missing. *)
Theorem verify_update_protects_unparseable (now now' : Z)
    (rq : client_request) (verify_map : gmap string string) (raw : string) :
  rcpt_stat_wf →
  dict_get verify_map (rq_addr rq) = Some raw →
  (count_char ":" raw < 3)%nat →
  atoi (leading_field raw) = DEL_RCPT_STAT_OK →
  rq_scan_args rq = 3 →
  rq_addr_status rq = DEL_RCPT_STAT_DEFER
  ∨ rq_addr_status rq = DEL_RCPT_STAT_BOUNCE →
  verify_update_service now rq verify_map
  = (verify_map, [Reply [ATTR_NUM MAIL_ATTR_STATUS VRFY_STAT_OK]])
  ∧ query_misses params now' (dict_get verify_map (rq_addr rq)).
Proof.
  intros Hwf Hget Hn Hok Hscan Hst. split.
  - destruct (rcpt_stat_distinct Hwf) as (Hd & Hb & _).
    unfold verify_update_service, STATUS_FROM_RAW_ENTRY.
    rewrite Hscan, Hget, <- atoi_leading_field, Hok, Z.eqb_refl. simpl.
    assert ((rq_addr_status rq =? DEL_RCPT_STAT_OK) = false) as ->
      by (apply Z.eqb_neq; destruct Hst; congruence).
    unfold verify_stat2name.
    destruct Hst as [-> | ->]; rewrite ?Z.eqb_refl; by repeat case_match.
  - right; left. exists raw. split; [done |].
    by apply verify_parse_entry_few_colons.
Qed.

End update_more.

Section update_more_examples.
#[local] Existing Instance postfix_deliver_request_h.
#[local] Existing Instance postfix_verify_clnt_h.
#[local] Existing Instance postfix_mail_proto_h.

Lemma verify_update_overwrites_witness :
  rq_scan_args (update_rq "u@x" 2 "550 5.1.1 unknown: u") = 3
  ∧ is_int 2 ∧ is_long 120
  ∧ is_Some (verify_stat2name 2)
  ∧ verify_update_service 120 (update_rq "u@x" 2 "550 5.1.1 unknown: u") ∅
    = ({[ "u@x" := "2:0:120:550 5.1.1 unknown: u" ]},
       [DictPut "u@x" "2:0:120:550 5.1.1 unknown: u";
        Reply [ATTR_NUM "status" 0]])
  ∧ parse_stored "2:0:120:550 5.1.1 unknown: u"
    = PARSE_OK 2 0 120 "550 5.1.1 unknown: u".
Proof.
  assert (Hi : is_int 2) by (unfold is_int, INT_MIN, INT_MAX; lia).
  assert (Hl : is_long 120) by (unfold is_long, LONG_MIN, LONG_MAX; lia).
  assert (Hn : is_Some (verify_stat2name 2)) by (eexists; reflexivity).
  split; [reflexivity |]. do 3 (split; [assumption |]).
  assert (Hcase :
    rq_addr_status (update_rq "u@x" 2 "550 5.1.1 unknown: u")
    = DEL_RCPT_STAT_OK
    ∨ dict_get (∅ : gmap string string)
        (rq_addr (update_rq "u@x" 2 "550 5.1.1 unknown: u")) = None
    ∨ (∃ raw,
         dict_get (∅ : gmap string string)
           (rq_addr (update_rq "u@x" 2 "550 5.1.1 unknown: u")) = Some raw
         ∧ STATUS_FROM_RAW_ENTRY raw ≠ DEL_RCPT_STAT_OK))
    by (right; left; reflexivity).
  destruct (verify_update_overwrites 120
              (update_rq "u@x" 2 "550 5.1.1 unknown: u") ∅ eq_refl Hi Hl Hn
              Hcase) as [Hrun Hparse].
  split; [rewrite Hrun; reflexivity | exact Hparse].
Defined.

Lemma verify_update_protects_unparseable_witness :
  rcpt_stat_wf
  ∧ dict_get ({[ "u@x" := "0:lost" ]} : gmap string string) "u@x"
    = Some "0:lost"
  ∧ (count_char ":" "0:lost" < 3)%nat
  ∧ atoi (leading_field "0:lost") = DEL_RCPT_STAT_OK
  ∧ verify_update_service 120 (update_rq "u@x" 1 "451 later")
      {[ "u@x" := "0:lost" ]}
    = ({[ "u@x" := "0:lost" ]}, [Reply [ATTR_NUM "status" 0]])
  ∧ query_misses (params_with 1) 1000000
      (dict_get ({[ "u@x" := "0:lost" ]} : gmap string string) "u@x").
Proof.
  assert (Hn : (count_char ":" "0:lost" < 3)%nat) by (vm_compute; lia).
  assert (Hget :
    dict_get ({[ "u@x" := "0:lost" ]} : gmap string string)
      (rq_addr (update_rq "u@x" 1 "451 later")) = Some "0:lost")
    by reflexivity.
  assert (Hok : atoi (leading_field "0:lost") = DEL_RCPT_STAT_OK)
    by reflexivity.
  assert (Hst :
    rq_addr_status (update_rq "u@x" 1 "451 later") = DEL_RCPT_STAT_DEFER
    ∨ rq_addr_status (update_rq "u@x" 1 "451 later") = DEL_RCPT_STAT_BOUNCE)
    by (left; reflexivity).
  split; [exact postfix_rcpt_stat_wf |]. split; [exact Hget |].
  split; [exact Hn |]. split; [exact Hok |].
  exact (verify_update_protects_unparseable (params_with 1) 120 1000000
           (update_rq "u@x" 1 "451 later") {[ "u@x" := "0:lost" ]} "0:lost"
           postfix_rcpt_stat_wf Hget Hn Hok eq_refl Hst).
Defined.

End update_more_examples.

(** ** verify.c: QUERY on an entry that is there *)

Section query_more.
Context `{deliver_request_h, verify_clnt_h, mail_proto_h}.
Variable params : verify_params.

(** The lookup step on an entry that parses and is not stale. *)
Lemma verify_query_lookup_hit (now : Z) (addr : string)
    (verify_map : gmap string string) (raw : string)
    (st pr up : Z) (tx : string) :
  dict_get verify_map addr = Some raw →
  parse_stored raw = PARSE_OK st pr up tx →
  ¬ entry_stale params now st pr up →
  verify_query_lookup params now addr verify_map
  = ({| addr_status := st; probed := pr; updated := up; text := tx |},
     verify_map, []).
Proof.
  intros Hget Hparse Hfresh. unfold verify_query_lookup, query_miss.
  rewrite Hget. fold (parse_stored raw). rewrite Hparse.
  destruct ((long_sub now pr >? PROBE_TTL)
            && (POSITIVE_ENTRY_EXPIRED params now st up
                || NEGATIVE_ENTRY_EXPIRED params now st up)) eqn:Hstale;
    [|done].
  destruct Hfresh. unfold entry_stale.
  unfold POSITIVE_ENTRY_EXPIRED, NEGATIVE_ENTRY_EXPIRED in Hstale.
  rewrite andb_true_iff, orb_true_iff, !andb_true_iff, negb_true_iff,
    Z.gtb_gt, !Z.ltb_lt, Z.eqb_eq, Z.eqb_neq in Hstale. done.
Qed.

(** X4: a QUERY that finds an entry which parses and is not stale replies
    with the stored status and text, never deletes, and leaves under the
    address either the entry as it was or the same entry with the probe
    time set to now. *)
Theorem verify_query_hit (now : Z) (post : post_mail) (rq : client_request)
    (verify_map : gmap string string) (raw : string)
    (st pr up : Z) (tx : string) :
  rq_scan_args rq = 1 →
  dict_get verify_map (rq_addr rq) = Some raw →
  parse_stored raw = PARSE_OK st pr up tx →
  ¬ entry_stale params now st pr up →
  let result := verify_query_service params now post rq verify_map in
  replies result.2
  = [[ATTR_NUM MAIL_ATTR_STATUS VRFY_STAT_OK;
      ATTR_NUM MAIL_ATTR_ADDR_STATUS st; ATTR_STR MAIL_ATTR_WHY tx]]
  ∧ dict_dels result.2 = []
  ∧ (dict_get result.1 (rq_addr rq) = Some raw
     ∨ dict_get result.1 (rq_addr rq)
       = Some (verify_make_entry st now up tx)).
Proof.
  intros Hscan Hget Hparse Hfresh. simpl.
  rewrite verify_query_service_steps by done. cbn zeta.
  rewrite (verify_query_lookup_hit now _ _ raw st pr up tx) by done.
  cbn [fst snd app addr_status text updated].
  destruct (verify_query_refresh_quiet params now post (rq_addr rq)
              {| addr_status := st; probed := pr; updated := up; text := tx |}
              verify_map) as [Hdel Hrep].
  rewrite replies_cons, dict_dels_cons, Hdel, Hrep.
  split_and!; [done.. |].
  unfold verify_query_refresh.
  destruct (refresh_needed params now _); [|by left].
  destruct (post_mail_queued post && _); [|by left].
  right. unfold dict_get, dict_put. apply lookup_insert_eq.
Qed.

(** X5: while less than [PROBE_TTL] seconds have passed since the probe
    time of the stored entry, a QUERY only replies: the table is left as it
    is and no probe is sent, whatever the expiry and refresh times and the
    negative-cache setting. *)
Theorem verify_query_gate (now : Z) (post : post_mail) (rq : client_request)
    (verify_map : gmap string string) (raw : string)
    (st pr up : Z) (tx : string) :
  rq_scan_args rq = 1 →
  dict_get verify_map (rq_addr rq) = Some raw →
  parse_stored raw = PARSE_OK st pr up tx →
  long_sub now pr ≤ PROBE_TTL →
  verify_query_service params now post rq verify_map
  = (verify_map,
     [Reply [ATTR_NUM MAIL_ATTR_STATUS VRFY_STAT_OK;
             ATTR_NUM MAIL_ATTR_ADDR_STATUS st;
             ATTR_STR MAIL_ATTR_WHY tx]]).
Proof.
  intros Hscan Hget Hparse Hgate.
  rewrite verify_query_service_steps by done. cbn zeta.
  rewrite (verify_query_lookup_hit now _ _ raw st pr up tx);
    [|done.. | intros [? _]; lia].
  cbn [fst snd app addr_status text updated].
  unfold verify_query_refresh, refresh_needed. simpl.
  assert ((long_sub now pr >? PROBE_TTL) = false) as ->; [|done].
  rewrite Z.gtb_ltb. by apply Z.ltb_ge.
Qed.

(** X6: an UPDATE that is applied at time [now1], then a QUERY for the
    address at a time when the new entry is not stale: the QUERY replies
    with the status and the text of the UPDATE. *)
Theorem verify_update_then_query (now1 now2 : Z) (post : post_mail)
    (upd qry : client_request) (verify_map : gmap string string) :
  rq_scan_args upd = 3 →
  is_int (rq_addr_status upd) → is_long now1 →
  is_Some (verify_stat2name (rq_addr_status upd)) →
  rq_addr_status upd = DEL_RCPT_STAT_OK
  ∨ dict_get verify_map (rq_addr upd) = None →
  rq_scan_args qry = 1 → rq_addr qry = rq_addr upd →
  ¬ entry_stale params now2 (rq_addr_status upd) 0 now1 →
  replies
    (verify_query_service params now2 post qry
       (verify_update_service now1 upd verify_map).1).2
  = [[ATTR_NUM MAIL_ATTR_STATUS VRFY_STAT_OK;
      ATTR_NUM MAIL_ATTR_ADDR_STATUS (rq_addr_status upd);
      ATTR_STR MAIL_ATTR_WHY (rq_text upd)]].
Proof.
  intros Hscan Hint Hnow Hname Hcase Hscan2 Haddr Hfresh.
  assert (Hput :
    (verify_update_service now1 upd verify_map).1
    = dict_put verify_map (rq_addr upd)
        (verify_make_entry (rq_addr_status upd) 0 now1 (rq_text upd))).
  { unfold verify_update_service. rewrite Hscan. simpl.
    destruct Hname as [name ->].
    destruct Hcase as [-> | ->]; [by rewrite Z.eqb_refl |].
    by rewrite orb_true_r. }
  rewrite Hput, verify_query_service_steps by done. cbn zeta.
  rewrite (verify_query_lookup_hit now2 _ _
             (verify_make_entry (rq_addr_status upd) 0 now1 (rq_text upd))
             (rq_addr_status upd) 0 now1 (rq_text upd)); [| | |done].
  - cbn [fst snd app addr_status text updated].
    destruct (verify_query_refresh_quiet params now2 post (rq_addr qry)
                {| addr_status := rq_addr_status upd; probed := 0;
                   updated := now1; text := rq_text upd |}
                (dict_put verify_map (rq_addr upd)
                   (verify_make_entry (rq_addr_status upd) 0 now1
                      (rq_text upd)))) as [_ Hrep].
    by rewrite replies_cons, Hrep.
  - rewrite Haddr. unfold dict_get, dict_put. apply lookup_insert_eq.
  - apply parse_stored_make_entry; try done.
    by apply verify_stat2name_Some.
Qed.

End query_more.

Section query_more_examples.
#[local] Existing Instance postfix_deliver_request_h.
#[local] Existing Instance postfix_verify_clnt_h.
#[local] Existing Instance postfix_mail_proto_h.

Lemma entry_110_fresh_at_700000 :
  ¬ entry_stale (params_with 1) 700000 0 0 110.
Proof.
  intros [_ [[_ Hlt]|[Hne _]]]; [|by destruct Hne].
  vm_compute in Hlt. discriminate.
Qed.

Lemma verify_query_hit_witness :
  rq_scan_args (query_rq "u@x") = 1
  ∧ dict_get map_with_ok "u@x" = Some "0:0:110:250 ok"
  ∧ parse_stored "0:0:110:250 ok" = PARSE_OK 0 0 110 "250 ok"
  ∧ ¬ entry_stale (params_with 1) 700000 0 0 110
  ∧ replies (verify_query_service (params_with 1) 700000 post_ok
               (query_rq "u@x") map_with_ok).2
    = [[ATTR_NUM MAIL_ATTR_STATUS VRFY_STAT_OK;
        ATTR_NUM MAIL_ATTR_ADDR_STATUS 0; ATTR_STR MAIL_ATTR_WHY "250 ok"]].
Proof.
  assert (Hget : dict_get map_with_ok (rq_addr (query_rq "u@x"))
                 = Some "0:0:110:250 ok") by reflexivity.
  assert (Hparse : parse_stored "0:0:110:250 ok" = PARSE_OK 0 0 110 "250 ok")
    by reflexivity.
  split; [reflexivity |]. split; [exact Hget |]. split; [exact Hparse |].
  split; [exact entry_110_fresh_at_700000 |].
  exact (proj1 (verify_query_hit (params_with 1) 700000 post_ok
                  (query_rq "u@x") map_with_ok "0:0:110:250 ok" 0 0 110
                  "250 ok" eq_refl Hget Hparse entry_110_fresh_at_700000)).
Defined.

Lemma verify_query_gate_witness :
  rq_scan_args (query_rq "u@x") = 1
  ∧ dict_get ({[ "u@x" := "0:699500:110:250 ok" ]} : gmap string string) "u@x"
    = Some "0:699500:110:250 ok"
  ∧ parse_stored "0:699500:110:250 ok" = PARSE_OK 0 699500 110 "250 ok"
  ∧ long_sub 700000 699500 ≤ PROBE_TTL
  ∧ verify_query_service (params_with 0) 700000 post_ok (query_rq "u@x")
      {[ "u@x" := "0:699500:110:250 ok" ]}
    = ({[ "u@x" := "0:699500:110:250 ok" ]},
       [Reply [ATTR_NUM MAIL_ATTR_STATUS VRFY_STAT_OK;
               ATTR_NUM MAIL_ATTR_ADDR_STATUS 0;
               ATTR_STR MAIL_ATTR_WHY "250 ok"]]).
Proof.
  assert (Hget :
    dict_get ({[ "u@x" := "0:699500:110:250 ok" ]} : gmap string string)
      (rq_addr (query_rq "u@x")) = Some "0:699500:110:250 ok")
    by reflexivity.
  assert (Hparse :
    parse_stored "0:699500:110:250 ok" = PARSE_OK 0 699500 110 "250 ok")
    by reflexivity.
  assert (Hgate : long_sub 700000 699500 ≤ PROBE_TTL)
    by (vm_compute; discriminate).
  split; [reflexivity |]. split; [exact Hget |]. split; [exact Hparse |].
  split; [exact Hgate |].
  exact (verify_query_gate (params_with 0) 700000 post_ok (query_rq "u@x")
           {[ "u@x" := "0:699500:110:250 ok" ]} "0:699500:110:250 ok"
           0 699500 110 "250 ok" eq_refl Hget Hparse Hgate).
Defined.

Lemma verify_update_then_query_witness :
  rq_scan_args (update_rq "u@x" 0 "250 ok") = 3
  ∧ is_int 0 ∧ is_long 110
  ∧ is_Some (verify_stat2name 0)
  ∧ rq_scan_args (query_rq "u@x") = 1
  ∧ ¬ entry_stale (params_with 1) 700000 0 0 110
  ∧ replies
      (verify_query_service (params_with 1) 700000 post_failed
         (query_rq "u@x")
         (verify_update_service 110 (update_rq "u@x" 0 "250 ok") ∅).1).2
    = [[ATTR_NUM MAIL_ATTR_STATUS VRFY_STAT_OK;
        ATTR_NUM MAIL_ATTR_ADDR_STATUS 0; ATTR_STR MAIL_ATTR_WHY "250 ok"]].
Proof.
  assert (Hi : is_int (rq_addr_status (update_rq "u@x" 0 "250 ok")))
    by (unfold is_int, INT_MIN, INT_MAX; simpl; lia).
  assert (Hl : is_long 110) by (unfold is_long, LONG_MIN, LONG_MAX; lia).
  assert (Hn : is_Some (verify_stat2name
                          (rq_addr_status (update_rq "u@x" 0 "250 ok"))))
    by (eexists; reflexivity).
  assert (Hcase :
    rq_addr_status (update_rq "u@x" 0 "250 ok") = DEL_RCPT_STAT_OK
    ∨ dict_get (∅ : gmap string string)
        (rq_addr (update_rq "u@x" 0 "250 ok")) = None)
    by (left; reflexivity).
  split; [reflexivity |]. split; [exact Hi |]. split; [exact Hl |].
  split; [exact Hn |]. split; [reflexivity |].
  split; [exact entry_110_fresh_at_700000 |].
  exact (verify_update_then_query (params_with 1) 110 700000 post_failed
           (update_rq "u@x" 0 "250 ok") (query_rq "u@x") ∅ eq_refl Hi Hl Hn
           Hcase eq_refl eq_refl entry_110_fresh_at_700000).
Defined.

End query_more_examples.

(** ** verify.c: what a request touches, and how it is answered *)

Section service_more.
Context `{deliver_request_h, verify_clnt_h, mail_proto_h}.
Variable params : verify_params.

Lemma verify_update_service_shape (now : Z) (rq : client_request)
    (verify_map : gmap string string) :
  let result := verify_update_service now rq verify_map in
  (result.1 = verify_map ∧ touched_keys result.2 = []
   ∨ (∃ value, result.1 = dict_put verify_map (rq_addr rq) value)
     ∧ touched_keys result.2 = [rq_addr rq])
  ∧ (length (replies result.2) ≤ 1)%nat
  ∧ probes result.2 = [] ∧ flushes result.2 = [].
Proof.
  simpl. unfold verify_update_service.
  destruct (rq_scan_args rq =? 3); [|simpl; auto].
  destruct (verify_stat2name (rq_addr_status rq)); [|simpl; auto].
  destruct ((rq_addr_status rq =? DEL_RCPT_STAT_OK) || _); simpl; eauto 10.
Qed.

Lemma verify_query_service_shape (now : Z) (post : post_mail)
    (rq : client_request) (verify_map : gmap string string) :
  let result := verify_query_service params now post rq verify_map in
  (∀ key, key ∈ touched_keys result.2 → key = rq_addr rq)
  ∧ (∀ key, key ≠ rq_addr rq →
       dict_get result.1 key = dict_get verify_map key)
  ∧ (length (replies result.2) ≤ 1)%nat
  ∧ (length (probes result.2) ≤ 1)%nat
  ∧ flushes result.2 = []
  ∧ (probes result.2 ≠ [] →
     ∃ st tx,
       replies result.2
       = [[ATTR_NUM MAIL_ATTR_STATUS VRFY_STAT_OK;
           ATTR_NUM MAIL_ATTR_ADDR_STATUS st; ATTR_STR MAIL_ATTR_WHY tx]]).
Proof.
  simpl. unfold verify_query_service.
  destruct (rq_scan_args rq =? 1);
    [|simpl; split_and!;
      first [done | lia | by intros ? ?%elem_of_nil]].
  unfold verify_query_lookup.
  destruct (query_miss params now (dict_get verify_map (rq_addr rq)))
    as [miss parsed].
  unfold verify_query_refresh, dict_get, dict_put, dict_del.
  repeat case_match; simplify_eq; cbn [fst snd app];
    unfold touched_keys; simpl;
    (split_and!;
     [ intros key Hkey;
       repeat (apply elem_of_cons in Hkey as [->|Hkey]; [done |]);
       by apply elem_of_nil in Hkey
     | intros key Hne;
       rewrite ?lookup_insert_ne, ?lookup_delete_ne by done; done
     | lia | lia | done | eauto ]).
Qed.

(** X7: a request to the verifier writes and deletes under the address it
    names only; every other entry of the table is what it was. *)
Theorem verify_service_frame (now : Z) (post : post_mail)
    (rq : client_request) (verify_map : gmap string string) :
  let result := verify_service params now post rq verify_map in
  (∀ key, key ∈ touched_keys result.2 → key = rq_addr rq)
  ∧ (∀ key, key ≠ rq_addr rq →
       dict_get result.1 key = dict_get verify_map key).
Proof.
  simpl. unfold verify_service.
  destruct (rq_scan_request rq =? 1);
    [|simpl; split; [by intros ? ?%elem_of_nil | done]].
  destruct (String.eqb (rq_request rq) VRFY_REQ_UPDATE).
  - destruct (verify_update_service_shape now rq verify_map)
      as ([[Hmap Hkeys]|[[value Hmap] Hkeys]] & _);
      destruct (verify_update_service now rq verify_map) as [map1 trace];
      cbn [fst snd] in *; subst map1;
      unfold touched_keys in *;
      rewrite dict_puts_app, dict_dels_app, fmap_app in *;
      simpl; rewrite !app_nil_r, Hkeys.
    + split; [by intros ? ?%elem_of_nil | done].
    + split; [by intros ? ->%list_elem_of_singleton |].
      intros key Hne. unfold dict_get, dict_put. by rewrite lookup_insert_ne.
  - destruct (String.eqb (rq_request rq) VRFY_REQ_QUERY);
      [|simpl; split; [by intros ? ?%elem_of_nil | done]].
    destruct (verify_query_service_shape now post rq verify_map)
      as (Hkeys & Hframe & _).
    destruct (verify_query_service params now post rq verify_map)
      as [map1 trace].
    cbn [fst snd] in *. split; [|done].
    intros key. unfold touched_keys in *.
    rewrite dict_puts_app, dict_dels_app, fmap_app. simpl.
    rewrite !app_nil_r. apply Hkeys.
Qed.

(** X8: a request to the verifier is answered at most once, causes at
    most one probe, and the stream is flushed once, after everything else;
    a probe is sent only for a request that was answered with status OK. *)
Theorem verify_service_one_reply (now : Z) (post : post_mail)
    (rq : client_request) (verify_map : gmap string string) :
  let trace := (verify_service params now post rq verify_map).2 in
  (length (replies trace) ≤ 1)%nat
  ∧ (length (probes trace) ≤ 1)%nat
  ∧ flushes trace = [()]
  ∧ last trace = Some Flush
  ∧ (probes trace ≠ [] →
     ∃ st tx,
       replies trace
       = [[ATTR_NUM MAIL_ATTR_STATUS VRFY_STAT_OK;
           ATTR_NUM MAIL_ATTR_ADDR_STATUS st; ATTR_STR MAIL_ATTR_WHY tx]]).
Proof.
  simpl. unfold verify_service.
  assert (Hgen : ∀ t : list event,
    (length (replies t) ≤ 1)%nat → (length (probes t) ≤ 1)%nat →
    flushes t = [] →
    (probes t ≠ [] →
     ∃ st tx,
       replies t
       = [[ATTR_NUM MAIL_ATTR_STATUS VRFY_STAT_OK;
           ATTR_NUM MAIL_ATTR_ADDR_STATUS st; ATTR_STR MAIL_ATTR_WHY tx]]) →
    (length (replies (t ++ [Flush])) ≤ 1)%nat
    ∧ (length (probes (t ++ [Flush])) ≤ 1)%nat
    ∧ flushes (t ++ [Flush]) = [()]
    ∧ last (t ++ [Flush]) = Some Flush
    ∧ (probes (t ++ [Flush]) ≠ [] →
       ∃ st tx,
         replies (t ++ [Flush])
         = [[ATTR_NUM MAIL_ATTR_STATUS VRFY_STAT_OK;
             ATTR_NUM MAIL_ATTR_ADDR_STATUS st;
             ATTR_STR MAIL_ATTR_WHY tx]])).
  { intros t Hr Hp Hf Hpr. unfold flushes in *.
    rewrite replies_app, probes_app, omap_app, Hf, last_snoc. simpl.
    rewrite !app_nil_r. done. }
  destruct (rq_scan_request rq =? 1);
    [|apply (Hgen []); simpl; first [lia | done]].
  destruct (String.eqb (rq_request rq) VRFY_REQ_UPDATE).
  - destruct (verify_update_service_shape now rq verify_map)
      as (_ & Hr & Hp & Hf).
    destruct (verify_update_service now rq verify_map) as [map1 trace].
    cbn [fst snd] in *. apply Hgen; [done | | done |];
      rewrite Hp; [simpl; lia | done].
  - destruct (String.eqb (rq_request rq) VRFY_REQ_QUERY).
    + destruct (verify_query_service_shape now post rq verify_map)
        as (_ & _ & Hr & Hp & Hf & Hpr).
      destruct (verify_query_service params now post rq verify_map)
        as [map1 trace].
      cbn [fst snd] in *. by apply Hgen.
    + apply Hgen; simpl; first [lia | done].
Qed.

End service_more.

(** ** verify.c: the table stays readable *)

Section table_invariant.
Context `{deliver_request_h, verify_clnt_h, mail_proto_h}.
Variable params : verify_params.

Lemma table_wf_put (verify_map : gmap string string) (key value : string) :
  table_wf verify_map → entry_wf value →
  table_wf (dict_put verify_map key value).
Proof.
  intros Hwf Hvalue k raw. unfold dict_get, dict_put.
  destruct (decide (key = k)) as [->|Hne].
  - rewrite lookup_insert_eq. by intros [= <-].
  - rewrite lookup_insert_ne by done. apply Hwf.
Qed.

Lemma table_wf_del (verify_map : gmap string string) (key : string) :
  table_wf verify_map → table_wf (dict_del verify_map key).
Proof.
  intros Hwf k raw. unfold dict_get, dict_del.
  intros [_ Hget]%lookup_delete_Some. by apply (Hwf k).
Qed.

Lemma entry_wf_make_entry (status probed updated : Z) (text : string) :
  is_rcpt_stat status = true → is_int status →
  is_long probed → is_long updated →
  (status = DEL_RCPT_STAT_TODO → updated = 0) →
  entry_wf (verify_make_entry status probed updated text).
Proof.
  intros. exists status, probed, updated, text.
  split; [by apply parse_stored_make_entry | done].
Qed.

(** The record of a QUERY on a readable table is a status code with its
    update time, and 0 for TODO. *)
Lemma verify_query_lookup_record (now : Z) (addr : string)
    (verify_map : gmap string string) :
  rcpt_stat_wf → table_wf verify_map →
  let r := (verify_query_lookup params now addr verify_map).1.1 in
  is_rcpt_stat (addr_status r) = true ∧ is_int (addr_status r)
  ∧ is_long (updated r)
  ∧ (addr_status r = DEL_RCPT_STAT_TODO → updated r = 0).
Proof.
  intros Hrc Hwf.
  destruct (verify_query_lookup_wf params now addr verify_map Hrc)
    as (Hcode & Hint & Hup).
  simpl in *. split_and!; [done.. |].
  unfold verify_query_lookup, query_miss.
  destruct (dict_get verify_map addr) as [raw|] eqn:Hget; simpl; [|done].
  destruct (Hwf addr raw Hget) as (st & pr & up & tx & Hparse & Htodo).
  fold (parse_stored raw). rewrite Hparse. simpl.
  by repeat case_match.
Qed.

(** X9: if every entry of the table parses, and has update time 0 when its
    status is TODO, the same holds after the verifier has served a
    request, whatever the request. *)
Theorem verify_service_keeps_table_wf (now : Z) (post : post_mail)
    (rq : client_request) (verify_map : gmap string string) :
  rcpt_stat_wf → is_long now → is_int (rq_addr_status rq) →
  table_wf verify_map →
  table_wf (verify_service params now post rq verify_map).1.
Proof.
  intros Hrc Hnow Hint Hwf. unfold verify_service.
  destruct (rq_scan_request rq =? 1); [|done].
  destruct (String.eqb (rq_request rq) VRFY_REQ_UPDATE).
  - unfold verify_update_service.
    destruct (rq_scan_args rq =? 3); [|done].
    destruct (verify_stat2name (rq_addr_status rq)) as [name|] eqn:Hname;
      [|done].
    destruct ((rq_addr_status rq =? DEL_RCPT_STAT_OK) || _); [|done].
    destruct (verify_stat2name_Some (rq_addr_status rq)) as [Hcode Htodo];
      [by rewrite Hname |].
    apply table_wf_put; [done |].
    apply entry_wf_make_entry; try done.
    intros Htd. by destruct (Htodo Hrc Htd).
  - destruct (String.eqb (rq_request rq) VRFY_REQ_QUERY); [|done].
    unfold verify_query_service.
    destruct (rq_scan_args rq =? 1); [|done].
    pose proof (verify_query_lookup_record now (rq_addr rq) verify_map Hrc Hwf)
      as (Hcode & Hi & Hup & Htodo).
    assert (Hmap1 :
      table_wf (verify_query_lookup params now (rq_addr rq) verify_map).1.2).
    { unfold verify_query_lookup.
      destruct (query_miss params now _) as [miss parsed].
      repeat case_match; simpl; auto using table_wf_del. }
    destruct (verify_query_lookup params now (rq_addr rq) verify_map)
      as [[r map1] purge]. cbn [fst snd] in *.
    unfold verify_query_refresh.
    destruct (refresh_needed params now r); [|done].
    destruct (post_mail_queued post && _); [|done].
    cbn [fst snd]. apply table_wf_put; [done |].
    by apply entry_wf_make_entry.
Qed.

End table_invariant.

Section table_invariant_examples.
#[local] Existing Instance postfix_deliver_request_h.
#[local] Existing Instance postfix_verify_clnt_h.
#[local] Existing Instance postfix_mail_proto_h.

Lemma table_wf_map_with_ok : table_wf map_with_ok.
Proof.
  intros key raw. unfold dict_get, map_with_ok.
  intros [<- <-]%lookup_singleton_Some.
  exists 0, 0, 110, "250 ok". split; [reflexivity | discriminate].
Qed.

Lemma verify_service_keeps_table_wf_witness :
  rcpt_stat_wf ∧ is_long 1000000
  ∧ is_int (rq_addr_status (query_rq "v@y"))
  ∧ table_wf map_with_ok
  ∧ table_wf
      (verify_service (params_with 1) 1000000 post_ok (query_rq "v@y")
         map_with_ok).1.
Proof.
  assert (Hl : is_long 1000000)
    by (unfold is_long, LONG_MIN, LONG_MAX; lia).
  assert (Hi : is_int (rq_addr_status (query_rq "v@y")))
    by (unfold is_int, INT_MIN, INT_MAX; simpl; lia).
  split; [exact postfix_rcpt_stat_wf |]. split; [exact Hl |].
  split; [exact Hi |]. split; [exact table_wf_map_with_ok |].
  exact (verify_service_keeps_table_wf (params_with 1) 1000000 post_ok
           (query_rq "v@y") map_with_ok postfix_rcpt_stat_wf Hl Hi
           table_wf_map_with_ok).
Defined.

End table_invariant_examples.

(** ** proxymap.c: what a request can open, and what it leaves behind *)

Section proxymap_more.
Context `{dict_proxy_h, mail_proto_h}.
Variable dict_open : string → Z → Z → option DICT.

Lemma dict_opens_app (t1 t2 : list event) :
  dict_opens (t1 ++ t2) = dict_opens t1 ++ dict_opens t2.
Proof. apply omap_app. Qed.

(** The four ways [proxy_map_find] ends: refused, served from the cache,
    opened and cached, or opened in vain. *)
Lemma proxy_map_find_cases (map_type_name : string) (request_flags : Z)
    (st : proxy_state) :
  let canon := canonical_map_name map_type_name in
  let key := handle_key map_type_name request_flags in
  let run := proxy_map_find dict_open map_type_name request_flags st in
  (∃ stat, run = (FIND_ERROR stat, st, []))
  ∨ (∃ dict,
       dict_handle (dict_table st) key = Some dict
       ∧ run = (FIND_DICT dict, st, []))
  ∨ (is_Some (strchr canon ":") ∧ canon ∈ approved st
     ∧ dict_handle (dict_table st) key = None
     ∧ ((∃ dict,
           dict_open canon READ_OPEN_FLAGS request_flags = Some dict
           ∧ run
             = (FIND_DICT dict,
                {| proxy_read_maps := proxy_read_maps st;
                   dict_table := htable_enter (dict_table st) key dict |},
                [DictOpen canon READ_OPEN_FLAGS request_flags]))
        ∨ (dict_open canon READ_OPEN_FLAGS request_flags = None
           ∧ run
             = (FIND_PANIC, st,
                [DictOpen canon READ_OPEN_FLAGS request_flags])))).
Proof.
  simpl.
  destruct (strchr (canonical_map_name map_type_name) ":") as [suffix|]
    eqn:Hcolon; [| left; exists PROXY_STAT_BAD; unfold proxy_map_find;
                   by rewrite Hcolon].
  destruct (htable_locate (proxy_read_maps st)
              (canonical_map_name map_type_name)) as [entry|] eqn:Hlist;
    [| left; exists PROXY_STAT_DENY; unfold proxy_map_find;
       by rewrite Hcolon, Hlist].
  assert (Hin : canonical_map_name map_type_name ∈ approved st).
  { apply htable_locate_Some. by rewrite Hlist. }
  assert (Hsome : is_Some (strchr (canonical_map_name map_type_name) ":"))
    by (by rewrite Hcolon).
  rewrite Hcolon in Hsome.
  pose proof (proxy_map_find_pass dict_open map_type_name request_flags st)
    as Hpass. simpl in Hpass. rewrite Hcolon in Hpass.
  rewrite (Hpass Hsome Hin).
  destruct (dict_handle (dict_table st)
              (handle_key map_type_name request_flags)) as [cached|];
    [right; left; by exists cached |].
  right; right. split_and!; [done.. |].
  destruct (dict_open _ _ _) as [dict|]; [left; by exists dict | by right].
Qed.

(** The trace of a request is that of [proxy_map_find], then at most one
    reply, then the flush unless the process died. *)
Lemma proxymap_service_dict_opens (rq : proxy_request) (st : proxy_state) :
  dict_opens (proxymap_service dict_open rq st).2 = []
  ∨ dict_opens (proxymap_service dict_open rq st).2
    = dict_opens
        (proxy_map_find dict_open (prq_map rq) (prq_flags rq) st).2.
Proof.
  unfold proxymap_service, proxymap_lookup_service, proxymap_open_service.
  destruct (prq_scan_request rq =? 1); [|by left].
  destruct (proxy_map_find dict_open (prq_map rq) (prq_flags rq) st)
    as [[found st1] trace].
  destruct (String.eqb (prq_request rq) PROXY_REQ_LOOKUP).
  - destruct (negb (prq_scan_args rq =? 3)); [by left |]. right.
    destruct found as [stat| |dict]; simpl.
    + by rewrite !dict_opens_app, !app_nil_r.
    + done.
    + destruct (dict_value dict (prq_key rq));
        [| destruct (dict_errno dict (prq_key rq) =? 0)];
        cbn [fst snd]; by rewrite !dict_opens_app, !app_nil_r.
  - destruct (String.eqb (prq_request rq) PROXY_REQ_OPEN); [|by left].
    destruct (negb (prq_scan_args rq =? 2)); [by left |]. right.
    destruct found as [stat| |dict]; simpl;
      [| done |]; by rewrite !dict_opens_app, !app_nil_r.
Qed.

(** X10: whatever the request, the proxy opens at most one table for it,
    and only a table that is on the approved list under its canonical name,
    that has no handle in the cache for these flags, read-only, and with
    the flags of the request. *)
Theorem proxymap_service_opens (rq : proxy_request) (st : proxy_state) :
  let opens := dict_opens (proxymap_service dict_open rq st).2 in
  (length opens ≤ 1)%nat
  ∧ ∀ type_name open_flags flags,
      (type_name, open_flags, flags) ∈ opens →
      type_name = canonical_map_name (prq_map rq)
      ∧ type_name ∈ approved st
      ∧ is_Some (strchr type_name ":")
      ∧ open_flags = O_RDONLY
      ∧ flags = prq_flags rq
      ∧ dict_handle (dict_table st)
          (handle_key (prq_map rq) (prq_flags rq)) = None.
Proof.
  simpl.
  destruct (proxymap_service_dict_opens rq st) as [-> | ->].
  { split; [simpl; lia |]. by intros ??? ?%elem_of_nil. }
  destruct (proxy_map_find_cases (prq_map rq) (prq_flags rq) st)
    as [[stat ->] | [(dict & _ & ->) |
        (Hcolon & Hin & Hcache & [(dict & _ & ->) | [_ ->]])]];
    simpl.
  1,2: split; [lia |]; by intros ??? ?%elem_of_nil.
  all: split; [lia |]; intros ??? [= -> -> ->]%list_elem_of_singleton; done.
Qed.

(** X11: a request that the process survives leaves the approved list as
    it was, and every handle of the cache under its key; the cache gains
    at most the handle that [dict_open] returned for this request, under
    the key of the request, and no key twice. *)
Theorem proxymap_service_state (rq : proxy_request) (st st' : proxy_state) :
  (proxymap_service dict_open rq st).1 = Some st' →
  proxy_read_maps st' = proxy_read_maps st
  ∧ (∀ key dict,
       dict_handle (dict_table st) key = Some dict →
       dict_handle (dict_table st') key = Some dict)
  ∧ (dict_table st' = dict_table st
     ∨ ∃ dict,
         dict_open (canonical_map_name (prq_map rq)) O_RDONLY (prq_flags rq)
         = Some dict
         ∧ dict_table st'
           = (handle_key (prq_map rq) (prq_flags rq), dict) :: dict_table st)
  ∧ (NoDup (dict_table st).*1 → NoDup (dict_table st').*1).
Proof.
  intros Hrun.
  assert (Hst : st' = st
                ∨ st' = (proxy_map_find dict_open (prq_map rq) (prq_flags rq)
                           st).1.2
                  ∧ (proxy_map_find dict_open (prq_map rq) (prq_flags rq)
                       st).1.1 ≠ FIND_PANIC).
  { revert Hrun.
    unfold proxymap_service, proxymap_lookup_service, proxymap_open_service.
    destruct (prq_scan_request rq =? 1);
      [| simpl; intros [= <-]; by left].
    destruct (proxy_map_find dict_open (prq_map rq) (prq_flags rq) st)
      as [[found st1] trace].
    destruct (String.eqb (prq_request rq) PROXY_REQ_LOOKUP).
    - destruct (negb (prq_scan_args rq =? 3));
        [simpl; intros [= <-]; by left |].
      destruct found as [stat| |dict]; simpl; [| done |].
      + intros [= <-]. by right.
      + destruct (dict_value dict (prq_key rq));
          [| destruct (dict_errno dict (prq_key rq) =? 0)];
          simpl; intros [= <-]; by right.
    - destruct (String.eqb (prq_request rq) PROXY_REQ_OPEN);
        [| simpl; intros [= <-]; by left].
      destruct (negb (prq_scan_args rq =? 2));
        [simpl; intros [= <-]; by left |].
      destruct found as [stat| |dict]; simpl; [| done |];
        intros [= <-]; by right. }
  destruct Hst as [-> | [-> Hlive]]; [split_and!; auto |].
  destruct (proxy_map_find_cases (prq_map rq) (prq_flags rq) st)
    as [[stat Hfind] | [(dict & _ & Hfind) |
        (Hcolon & Hin & Hcache & [(dict & Hopen & Hfind) | [_ Hfind]])]];
    simpl in Hfind; rewrite Hfind in Hlive |- *; simpl.
  1,2: split_and!; auto.
  - split_and!; [done | | right; by exists dict |].
    + intros key cached Hkey. unfold dict_handle, htable_enter. simpl.
      destruct (String.eqb_spec (handle_key (prq_map rq) (prq_flags rq)) key)
        as [<- | _]; [congruence | done].
    + intros Hnd. unfold htable_enter. cbn [fmap list_fmap fst].
      apply NoDup_cons. split; [by apply dict_handle_None | done].
  - by destruct Hlive.
Qed.

(** A LOOKUP request for an approved table whose handle is in the cache
    is answered from that handle. *)
Lemma proxymap_lookup_service_cached (rq : proxy_request) (st : proxy_state)
    (dict : DICT) :
  prq_scan_args rq = 3 →
  is_Some (strchr (canonical_map_name (prq_map rq)) ":") →
  canonical_map_name (prq_map rq) ∈ approved st →
  dict_handle (dict_table st) (handle_key (prq_map rq) (prq_flags rq))
  = Some dict →
  proxymap_lookup_service dict_open rq st
  = (Some st,
     [Reply
        match dict_value dict (prq_key rq) with
        | Some value =>
            [ATTR_NUM MAIL_ATTR_STATUS PROXY_STAT_OK;
             ATTR_STR MAIL_ATTR_VALUE value]
        | None =>
            [ATTR_NUM MAIL_ATTR_STATUS
               (if dict_errno dict (prq_key rq) =? 0
                then PROXY_STAT_NOKEY else PROXY_STAT_RETRY);
             ATTR_STR MAIL_ATTR_VALUE ""]
        end]).
Proof.
  intros Hscan Hcolon Hin Hcache.
  unfold proxymap_lookup_service. rewrite Hscan. simpl.
  pose proof (proxy_map_find_pass dict_open (prq_map rq) (prq_flags rq) st)
    as Hpass. simpl in Hpass.
  rewrite (Hpass Hcolon Hin), Hcache.
  destruct (dict_value dict (prq_key rq)); [done |].
  by destruct (dict_errno dict (prq_key rq) =? 0).
Qed.

(** X12: after an OPEN request has been served, a LOOKUP request for the
    same table and flags, under any number of prefixes, opens nothing:
    it is answered from the handle whose flags the OPEN reply carried,
    with the value of the key, or NOKEY, or RETRY when the table says that
    the lookup failed. *)
Theorem proxymap_open_then_lookup_shares (n m : nat) (type_name : string)
    (flags : Z) (rq1 rq2 : proxy_request) (st : proxy_state) :
  prq_scan_args rq1 = 2 → prq_map rq1 = proxy_prefixes n type_name →
  prq_flags rq1 = flags →
  prq_scan_args rq2 = 3 → prq_map rq2 = proxy_prefixes m type_name →
  prq_flags rq2 = flags →
  is_Some (strchr (canonical_map_name type_name) ":") →
  canonical_map_name type_name ∈ approved st →
  is_Some (handle_for dict_open st (canonical_map_name type_name) flags) →
  ∃ dict st2,
    handle_for dict_open st (canonical_map_name type_name) flags = Some dict
    ∧ (proxymap_open_then_lookup dict_open rq1 rq2 st).1.1 = Some st2
    ∧ replies (proxymap_open_then_lookup dict_open rq1 rq2 st).1.2
      = [[ATTR_NUM MAIL_ATTR_STATUS PROXY_STAT_OK;
          ATTR_NUM MAIL_ATTR_FLAGS (dict_flags dict)]]
    ∧ (proxymap_open_then_lookup dict_open rq1 rq2 st).2
      = [Reply
           match dict_value dict (prq_key rq2) with
           | Some value =>
               [ATTR_NUM MAIL_ATTR_STATUS PROXY_STAT_OK;
                ATTR_STR MAIL_ATTR_VALUE value]
           | None =>
               [ATTR_NUM MAIL_ATTR_STATUS
                  (if dict_errno dict (prq_key rq2) =? 0
                   then PROXY_STAT_NOKEY else PROXY_STAT_RETRY);
                ATTR_STR MAIL_ATTR_VALUE ""]
           end].
Proof.
  intros Hscan1 Hmap1 Hflags1 Hscan2 Hmap2 Hflags2 Hcolon Hin [dict Hdict].
  exists dict.
  assert (Hc1 : canonical_map_name (prq_map rq1)
                = canonical_map_name type_name)
    by (rewrite Hmap1; apply canonical_map_name_prefixes).
  assert (Hc2 : canonical_map_name (prq_map rq2)
                = canonical_map_name type_name)
    by (rewrite Hmap2; apply canonical_map_name_prefixes).
  assert (Hkey2 : handle_key (prq_map rq2) (prq_flags rq2)
                  = canonical_map_name type_name +:+ ":" +:+ fmt_o flags)
    by (unfold handle_key; by rewrite Hc2, Hflags2).
  pose proof (proxy_map_find_pass dict_open (prq_map rq1) (prq_flags rq1) st)
    as Hpass1. simpl in Hpass1. rewrite Hc1 in Hpass1.
  specialize (Hpass1 Hcolon Hin).
  unfold handle_key in Hpass1. rewrite Hc1, Hflags1 in Hpass1.
  unfold proxymap_open_then_lookup, proxymap_open_service.
  rewrite Hscan1, Hflags1. simpl. rewrite Hpass1. unfold handle_for in Hdict |- *.
  destruct (dict_handle (dict_table st)
              (canonical_map_name type_name +:+ ":" +:+ fmt_o flags))
    as [cached|] eqn:Hcache.
  - injection Hdict as ->. cbn [app].
    rewrite (proxymap_lookup_service_cached rq2 st dict);
      [by exists st | done | by rewrite Hc2 | by rewrite Hc2
      | by rewrite Hkey2].
  - rewrite Hdict. cbn [app].
    erewrite (proxymap_lookup_service_cached rq2 _ dict);
      [by eexists | done | by rewrite Hc2 | by rewrite Hc2 |].
    cbn [dict_table]. rewrite Hkey2. apply dict_handle_enter.
Qed.

End proxymap_more.

Section proxymap_more_examples.
#[local] Existing Instance postfix_dict_proxy_h.
#[local] Existing Instance postfix_mail_proto_h.

Lemma proxymap_service_state_witness :
  (proxymap_service dict_open_a (open_rq "proxy:hash:/etc/a" 0)
     (post_jail_init read_maps_a)).1 = Some state_a_opened
  ∧ proxy_read_maps state_a_opened
    = proxy_read_maps (post_jail_init read_maps_a)
  ∧ dict_table state_a_opened
    = [(handle_key "proxy:hash:/etc/a" 0, dict_a)].
Proof.
  assert (Hrun :
    (proxymap_service dict_open_a (open_rq "proxy:hash:/etc/a" 0)
       (post_jail_init read_maps_a)).1 = Some state_a_opened)
    by reflexivity.
  destruct (proxymap_service_state dict_open_a
              (open_rq "proxy:hash:/etc/a" 0) (post_jail_init read_maps_a)
              state_a_opened Hrun) as (Hlist & _).
  split; [exact Hrun |]. split; [exact Hlist | reflexivity].
Defined.

Lemma approved_a :
  canonical_map_name "hash:/etc/a" ∈ approved (post_jail_init read_maps_a).
Proof. apply (bool_decide_unpack _). vm_compute. exact I. Qed.

Lemma proxymap_open_then_lookup_shares_witness :
  prq_scan_args (open_rq "proxy:hash:/etc/a" 0) = 2
  ∧ prq_map (open_rq "proxy:hash:/etc/a" 0) = proxy_prefixes 1 "hash:/etc/a"
  ∧ prq_flags (open_rq "proxy:hash:/etc/a" 0) = 0
  ∧ prq_scan_args (lookup_rq "hash:/etc/a" 0 "k") = 3
  ∧ prq_map (lookup_rq "hash:/etc/a" 0 "k") = proxy_prefixes 0 "hash:/etc/a"
  ∧ prq_flags (lookup_rq "hash:/etc/a" 0 "k") = 0
  ∧ is_Some (strchr (canonical_map_name "hash:/etc/a") ":")
  ∧ canonical_map_name "hash:/etc/a" ∈ approved (post_jail_init read_maps_a)
  ∧ is_Some (handle_for dict_open_a (post_jail_init read_maps_a)
               (canonical_map_name "hash:/etc/a") 0)
  ∧ (proxymap_open_then_lookup dict_open_a (open_rq "proxy:hash:/etc/a" 0)
       (lookup_rq "hash:/etc/a" 0 "k") (post_jail_init read_maps_a)).2
    = [Reply [ATTR_NUM MAIL_ATTR_STATUS PROXY_STAT_OK;
              ATTR_STR MAIL_ATTR_VALUE "v"]].
Proof.
  assert (Hcolon : is_Some (strchr (canonical_map_name "hash:/etc/a") ":"))
    by (by eexists).
  assert (Hopen :
    is_Some (handle_for dict_open_a (post_jail_init read_maps_a)
               (canonical_map_name "hash:/etc/a") 0))
    by (by eexists).
  assert (Hmap1 : prq_map (open_rq "proxy:hash:/etc/a" 0)
                  = proxy_prefixes 1 "hash:/etc/a") by reflexivity.
  assert (Hmap2 : prq_map (lookup_rq "hash:/etc/a" 0 "k")
                  = proxy_prefixes 0 "hash:/etc/a") by reflexivity.
  split_and!; [reflexivity.. | exact Hcolon | exact approved_a | exact Hopen |].
  destruct (proxymap_open_then_lookup_shares dict_open_a 1 0 "hash:/etc/a" 0
              (open_rq "proxy:hash:/etc/a" 0) (lookup_rq "hash:/etc/a" 0 "k")
              (post_jail_init read_maps_a) eq_refl Hmap1 eq_refl eq_refl
              Hmap2 eq_refl Hcolon approved_a Hopen)
    as (dict & st2 & Hdict & _ & _ & Hlookup).
  rewrite Hlookup. injection Hdict as <-. reflexivity.
Defined.

End proxymap_more_examples.

(** ** proxymap.c: the key of the handle cache *)

Lemma digit_value_octal_digit (z : Z) : digit_value (octal_digit z) = z mod 8.
Proof.
  unfold digit_value, octal_digit.
  pose proof (Z.mod_pos_bound z 8 ltac:(lia)) as Hz.
  rewrite N_ascii_embedding; lia.
Qed.

Lemma octal_digit_no_colon (z : Z) : Ascii.eqb (octal_digit z) ":" = false.
Proof.
  apply Ascii.eqb_neq. intros Heq.
  pose proof (digit_value_octal_digit z) as Hd. rewrite Heq in Hd.
  pose proof (Z.mod_pos_bound z 8 ltac:(lia)) as Hz.
  unfold digit_value in Hd. simpl in Hd. lia.
Qed.

Lemma octal_digits_no_colon (fuel : nat) (z : Z) (acc : string) :
  strchr acc ":" = None → strchr (octal_digits fuel z acc) ":" = None.
Proof.
  revert z acc. induction fuel as [|fuel IH]; intros z acc Hacc; [done |].
  assert (Hacc' : strchr (String (octal_digit z) acc) ":" = None)
    by (simpl; by rewrite octal_digit_no_colon).
  simpl. destruct (z / 8 =? 0); [done | by apply IH].
Qed.

Lemma octal_value_digits (fuel : nat) (z a : Z) (acc : string) :
  0 ≤ z < 8 ^ Z.of_nat fuel →
  ∃ k, octal_value a (octal_digits fuel z acc)
       = octal_value (a * 8 ^ Z.of_nat k + z) acc.
Proof.
  revert z acc. induction fuel as [|fuel IH]; intros z acc Hz.
  - exists 0%nat. simpl in *. f_equal. lia.
  - simpl. destruct (z / 8 =? 0) eqn:Hq.
    + exists 1%nat. simpl. rewrite digit_value_octal_digit. f_equal.
      apply Z.eqb_eq in Hq. pose proof (Z.div_mod z 8 ltac:(lia)). lia.
    + assert (Hz' : 0 ≤ z / 8 < 8 ^ Z.of_nat fuel).
      { split; [apply Z.div_pos; lia |].
        apply Z.div_lt_upper_bound; [lia |].
        rewrite Nat2Z.inj_succ, Z.pow_succ_r in Hz; lia. }
      destruct (IH (z / 8) (String (octal_digit z) acc) Hz') as [k ->].
      exists (S k). simpl octal_value. rewrite digit_value_octal_digit.
      f_equal. rewrite Nat2Z.inj_succ, Z.pow_succ_r by lia.
      pose proof (Z.div_mod z 8 ltac:(lia)). lia.
Qed.

(** The digits of [%o] stand for the flags, taken as [unsigned int]. *)
Lemma octal_value_fmt_o (z : Z) : octal_value 0 (fmt_o z) = z mod 2 ^ 32.
Proof.
  unfold fmt_o.
  pose proof (Z.mod_pos_bound z (2 ^ 32) ltac:(lia)) as Hz.
  destruct (octal_value_digits 11 (z mod 2 ^ 32) 0 "") as [k ->];
    [simpl; lia | done].
Qed.

Lemma strchr_fmt_o (z : Z) : strchr (fmt_o z) ":" = None.
Proof. by apply octal_digits_no_colon. Qed.

Lemma app_empty_l (s : string) : "" +:+ s = s.
Proof. reflexivity. Qed.

Lemma strchr_app_colon (a d : string) : strchr (a +:+ ":" +:+ d) ":" ≠ None.
Proof.
  induction a as [|c a IH]; rewrite ?app_String, ?app_empty_l, ?app_char;
    simpl; [done | by destruct (Ascii.eqb c ":")].
Qed.

(** A string is cut at its last colon in one way only. *)
Lemma last_colon_unique (a b d1 d2 : string) :
  strchr d1 ":" = None → strchr d2 ":" = None →
  a +:+ ":" +:+ d1 = b +:+ ":" +:+ d2 → a = b ∧ d1 = d2.
Proof.
  intros Hd1 Hd2. revert b.
  induction a as [|c a IH]; intros [|c' b];
    rewrite ?app_String, ?app_empty_l, ?app_char.
  - by intros [= ->].
  - intros [= <- Heq]. rewrite Heq in Hd1. by apply strchr_app_colon in Hd1.
  - intros [= -> Heq]. rewrite <- Heq in Hd2.
    by apply strchr_app_colon in Hd2.
  - intros [= -> Heq]. by destruct (IH b Heq) as [-> ->].
Qed.

Section proxymap_handle_key.
Context `{dict_proxy_h}.

(** X13: two requests have the same key in the handle cache exactly when
    their table names are the same once stripped of the prefixes, and their
    flags are the same as [unsigned int]: a name with colons of its own and
    the flags after it are never confused. *)
Theorem handle_key_inj (map1 map2 : string) (flags1 flags2 : Z) :
  handle_key map1 flags1 = handle_key map2 flags2
  ↔ canonical_map_name map1 = canonical_map_name map2
    ∧ flags1 mod 2 ^ 32 = flags2 mod 2 ^ 32.
Proof.
  unfold handle_key. split.
  - intros [Hname Hflags]%last_colon_unique; [| apply strchr_fmt_o..].
    split; [done |]. by rewrite <- !octal_value_fmt_o, Hflags.
  - intros [-> Hflags]. unfold fmt_o. by rewrite Hflags.
Qed.

End proxymap_handle_key.

(** ** proxymap.c: from the setting to the approved list *)

Section proxymap_setting.
Context `{dict_proxy_h, mail_proto_h}.
Variable dict_open : string → Z → Z → option DICT.

Lemma approve_elem (type_name name : string) (table : list (string * unit)) :
  name ∈ (approve type_name table).*1
  ↔ name ∈ table.*1 ∨ approves type_name name.
Proof.
  unfold approve, approves.
  destruct (has_prefix PROXY_COLON type_name) eqn:Hprefix; simpl;
    [| split; [by left | by intros [? | [? _]]]].
  fold (canonical_map_name (advance PROXY_COLON_LEN type_name)).
  assert (Hcanon : canonical_map_name (advance PROXY_COLON_LEN type_name)
                   = canonical_map_name type_name).
  { rewrite (has_prefix_inv _ _ Hprefix) at 2.
    by rewrite canonical_map_name_strip. }
  rewrite Hcanon. set (canon := canonical_map_name type_name).
  destruct (bool_decide (is_Some (strchr canon ":"))) eqn:Hcolon; simpl.
  - apply bool_decide_eq_true in Hcolon.
    destruct (bool_decide (htable_locate table canon = None)) eqn:Hnew.
    + unfold htable_enter. cbn [fmap list_fmap fst]. rewrite elem_of_cons.
      split; [intros [-> | ?]; [by right | by left]
             | intros [? | (_ & <- & _)]; [by right | by left]].
    + apply bool_decide_eq_false in Hnew.
      split; [by left | intros [? | (_ & <- & _)]; [done |]].
      apply htable_locate_Some.
      by destruct (htable_locate table canon).
  - apply bool_decide_eq_false in Hcolon.
    split; [by left | intros [? | (_ & <- & ?)]; done].
Qed.

Lemma approve_tokens_elem (fuel : nat) (bp sep name : string)
    (table : list (string * unit)) :
  name ∈ (approve_tokens fuel bp sep table).*1
  ↔ name ∈ table.*1
    ∨ ∃ type_name,
        type_name ∈ mystrtok_all fuel bp sep ∧ approves type_name name.
Proof.
  revert bp table. induction fuel as [|fuel IH]; intros bp table; simpl.
  - split; [by left | intros [? | (? & ?%elem_of_nil & _)]; done].
  - destruct (mystrtok bp sep) as [[type_name bp']|].
    + rewrite IH, approve_elem. split.
      * intros [[? | ?] | (tok & ? & ?)]; [by left | right | right].
        -- exists type_name. split; [apply elem_of_cons; by left | done].
        -- exists tok. split; [apply elem_of_cons; by right | done].
      * intros [? | (tok & [-> | ?]%elem_of_cons & ?)];
          [left; by left | left; by right | right; by exists tok].
    + split; [by left | intros [? | (? & ?%elem_of_nil & _)]; done].
Qed.

(** X14: the tables that [post_jail_init] approves are the tokens of
    [proxy_read_maps] that start with the proxy prefix, stripped of all
    such prefixes, provided that a colon is left: a token without the
    prefix approves nothing, and neither does a bare type. *)
Theorem post_jail_init_approved (var_proxy_read_maps name : string) :
  name ∈ approved (post_jail_init var_proxy_read_maps)
  ↔ ∃ type_name,
      type_name ∈ read_maps_tokens var_proxy_read_maps
      ∧ has_prefix PROXY_COLON type_name = true
      ∧ canonical_map_name type_name = name
      ∧ is_Some (strchr name ":").
Proof.
  unfold approved, post_jail_init, read_maps_tokens. cbn [proxy_read_maps].
  rewrite approve_tokens_elem. fold read_maps_sep. split.
  - by intros [?%elem_of_nil | ?].
  - by right.
Qed.

(** X15: a table that is listed in [proxy_read_maps] behind the proxy
    prefix can be opened by that very name: the first OPEN request after
    start-up opens the stripped name read-only with the flags of the
    request, caches the handle under name and flags, and replies OK with
    the flags of the handle. *)
Theorem proxymap_open_listed (var_proxy_read_maps type_name : string)
    (rq : proxy_request) (dict : DICT) :
  type_name ∈ read_maps_tokens var_proxy_read_maps →
  has_prefix PROXY_COLON type_name = true →
  is_Some (strchr (canonical_map_name type_name) ":") →
  PROXY_REQ_OPEN ≠ PROXY_REQ_LOOKUP →
  prq_scan_request rq = 1 → prq_request rq = PROXY_REQ_OPEN →
  prq_scan_args rq = 2 → prq_map rq = type_name →
  dict_open (canonical_map_name type_name) O_RDONLY (prq_flags rq)
  = Some dict →
  proxymap_service dict_open rq (post_jail_init var_proxy_read_maps)
  = (Some
       {| proxy_read_maps :=
            proxy_read_maps (post_jail_init var_proxy_read_maps);
          dict_table := [(handle_key type_name (prq_flags rq), dict)] |},
     [DictOpen (canonical_map_name type_name) O_RDONLY (prq_flags rq);
      Reply [ATTR_NUM MAIL_ATTR_STATUS PROXY_STAT_OK;
             ATTR_NUM MAIL_ATTR_FLAGS (dict_flags dict)];
      Flush]).
Proof.
  intros Htok Hprefix Hcolon Hne Hscan Hreq Hargs Hmap Hopen.
  assert (Hin : canonical_map_name type_name
                ∈ approved (post_jail_init var_proxy_read_maps)).
  { unfold approved, post_jail_init. cbn [proxy_read_maps].
    apply approve_tokens_elem. right. by exists type_name. }
  unfold proxymap_service, proxymap_open_service.
  rewrite Hscan, Hreq, Hargs, Hmap. simpl.
  rewrite (proj2 (String.eqb_neq _ _) Hne), String.eqb_refl.
  pose proof (proxy_map_find_pass dict_open type_name (prq_flags rq)
                (post_jail_init var_proxy_read_maps)) as Hpass.
  simpl in Hpass. rewrite (Hpass Hcolon Hin).
  unfold READ_OPEN_FLAGS. by rewrite Hopen.
Qed.

End proxymap_setting.

Section proxymap_setting_examples.
#[local] Existing Instance postfix_dict_proxy_h.
#[local] Existing Instance postfix_mail_proto_h.

Lemma proxymap_open_listed_witness :
  "proxy:proxy:hash:/etc/a" ∈ read_maps_tokens read_maps_a
  ∧ has_prefix PROXY_COLON "proxy:proxy:hash:/etc/a" = true
  ∧ is_Some (strchr (canonical_map_name "proxy:proxy:hash:/etc/a") ":")
  ∧ PROXY_REQ_OPEN ≠ PROXY_REQ_LOOKUP
  ∧ proxymap_service dict_open_a (open_rq "proxy:proxy:hash:/etc/a" 8)
      (post_jail_init read_maps_a)
    = (Some
         {| proxy_read_maps := proxy_read_maps (post_jail_init read_maps_a);
            dict_table := [("hash:/etc/a:10", dict_a)] |},
       [DictOpen "hash:/etc/a" 0 8;
        Reply [ATTR_NUM "status" 0; ATTR_NUM "flags" 16];
        Flush]).
Proof.
  assert (Htok : "proxy:proxy:hash:/etc/a" ∈ read_maps_tokens read_maps_a).
  { apply (bool_decide_unpack _). vm_compute. exact I. }
  assert (Hprefix : has_prefix PROXY_COLON "proxy:proxy:hash:/etc/a" = true)
    by reflexivity.
  assert (Hcolon :
    is_Some (strchr (canonical_map_name "proxy:proxy:hash:/etc/a") ":"))
    by (by eexists).
  assert (Hne : PROXY_REQ_OPEN ≠ PROXY_REQ_LOOKUP) by discriminate.
  assert (Hopen :
    dict_open_a (canonical_map_name "proxy:proxy:hash:/etc/a") O_RDONLY
      (prq_flags (open_rq "proxy:proxy:hash:/etc/a" 8)) = Some dict_a)
    by reflexivity.
  split_and!; [done.. |].
  exact (proxymap_open_listed dict_open_a read_maps_a
           "proxy:proxy:hash:/etc/a" (open_rq "proxy:proxy:hash:/etc/a" 8)
           dict_a Htok Hprefix Hcolon Hne eq_refl eq_refl eq_refl eq_refl
           Hopen).
Defined.

End proxymap_setting_examples.

(** ** deliver_flock.c *)

Section deliver_flock_properties.
Context `{myflock_h}.
Variables var_flock_tries var_flock_delay : Z.
Variable myflock : Z → Z.

(** Up to any bound, a lock is either granted for the first time in some
    round, or in none. *)
Lemma myflock_first_or_never (bound : Z) :
  (∃ k, 0 ≤ k < bound ∧ myflock k = 0 ∧ ∀ j, 0 ≤ j < k → myflock j ≠ 0)
  ∨ (∀ j, 0 ≤ j < bound → myflock j ≠ 0).
Proof.
  destruct (Z.le_gt_cases bound 0) as [Hle | Hpos]; [right; intros; lia |].
  rewrite <- (Z2Nat.id bound) by lia. clear Hpos.
  induction (Z.to_nat bound) as [|n IH]; [right; intros; lia |].
  destruct IH as [(k & Hk & Hzero & Hfirst) | Hnever].
  - left. exists k. split; [lia | by split].
  - destruct (Z.eq_dec (myflock (Z.of_nat n)) 0) as [Hzero | Hne].
    + left. exists (Z.of_nat n). split; [lia | by split].
    + right. intros j Hj.
      destruct (Z.eq_dec j (Z.of_nat n)) as [-> | ?]; [done |].
      apply Hnever. lia.
Qed.

(** From a round after the first on, with no lock to be had. *)
Lemma deliver_flock_loop_gave_up (n fuel : nat) (fd lock_style i : Z) :
  is_int var_flock_tries → 0 < i →
  n = Z.to_nat (var_flock_tries - i) → (n < fuel)%nat →
  (∀ j, i ≤ j < var_flock_tries → myflock j ≠ 0) →
  deliver_flock_loop var_flock_tries var_flock_delay myflock fuel fd
    lock_style i
  = (GAVE_UP,
     concat (replicate n
               [Sleep (to_uint var_flock_delay); flock_call fd lock_style])).
Proof.
  intros Hint. revert fuel i.
  induction n as [|n IH]; intros [|fuel] i Hi Hn Hfuel Hnever; try lia;
    simpl.
  - destruct (Z.geb_spec i var_flock_tries); [done | lia].
  - destruct (Z.geb_spec i var_flock_tries); [lia |].
    destruct (Z.gtb_spec i 0); [|lia].
    rewrite (proj2 (Z.eqb_neq _ _)) by (apply Hnever; lia).
    rewrite to_int_id
      by (unfold is_int, INT_MIN, INT_MAX in *; lia).
    rewrite (IH fuel (i + 1)); [done | lia | lia | lia |].
    intros j Hj. apply Hnever. lia.
Qed.

(** From a round after the first on, with the lock granted in round [k]. *)
Lemma deliver_flock_loop_locked (n fuel : nat) (fd lock_style i k : Z) :
  is_int var_flock_tries → 0 < i → k < var_flock_tries →
  Z.of_nat n = k - i → (n < fuel)%nat →
  (∀ j, i ≤ j < k → myflock j ≠ 0) → myflock k = 0 →
  deliver_flock_loop var_flock_tries var_flock_delay myflock fuel fd
    lock_style i
  = (LOCKED,
     concat (replicate (S n)
               [Sleep (to_uint var_flock_delay); flock_call fd lock_style])).
Proof.
  intros Hint. revert fuel i.
  induction n as [|n IH]; intros [|fuel] i Hi Hk Hn Hfuel Hfirst Hzero;
    try lia; simpl.
  - assert (i = k) as -> by lia.
    destruct (Z.geb_spec k var_flock_tries); [lia |].
    destruct (Z.gtb_spec k 0); [|lia]. by rewrite Hzero.
  - destruct (Z.geb_spec i var_flock_tries); [lia |].
    destruct (Z.gtb_spec i 0); [|lia].
    rewrite (proj2 (Z.eqb_neq _ _)) by (apply Hfirst; lia).
    rewrite to_int_id
      by (unfold is_int, INT_MIN, INT_MAX in *; lia).
    rewrite (IH fuel (i + 1)); [done | lia | done | lia | lia | | done].
    intros j Hj. apply Hfirst. lia.
Qed.

(** The whole loop, with the lock granted for the first time in round
    [k]. *)
Lemma deliver_flock_loop_first (fd lock_style k : Z) :
  is_int var_flock_tries → 0 ≤ k < var_flock_tries →
  myflock k = 0 → (∀ j, 0 ≤ j < k → myflock j ≠ 0) →
  deliver_flock_loop var_flock_tries var_flock_delay myflock
    (S (Z.to_nat var_flock_tries)) fd lock_style 0
  = (LOCKED, flock_attempts var_flock_delay (S (Z.to_nat k)) fd lock_style).
Proof.
  intros Hint Hk Hzero Hfirst. simpl.
  destruct (Z.geb_spec 0 var_flock_tries); [lia |].
  destruct (Z.eq_dec k 0) as [-> | Hne].
  - by rewrite Hzero.
  - rewrite (proj2 (Z.eqb_neq _ _)) by (apply Hfirst; lia).
    change (to_int (0 + 1)) with 1.
    rewrite (deliver_flock_loop_locked (Z.to_nat (k - 1)) _ fd lock_style 1 k);
      try done; try lia.
    + replace (S (Z.to_nat (k - 1))) with (Z.to_nat k) by lia.
      by destruct (Z.to_nat k).
    + intros j Hj. apply Hfirst. lia.
Qed.

(** The whole loop, with no lock to be had. *)
Lemma deliver_flock_loop_never (fd lock_style : Z) :
  is_int var_flock_tries →
  (∀ j, 0 ≤ j < var_flock_tries → myflock j ≠ 0) →
  deliver_flock_loop var_flock_tries var_flock_delay myflock
    (S (Z.to_nat var_flock_tries)) fd lock_style 0
  = (GAVE_UP,
     flock_attempts var_flock_delay (Z.to_nat var_flock_tries) fd lock_style).
Proof.
  intros Hint Hnever. simpl.
  destruct (Z.geb_spec 0 var_flock_tries) as [Hle | Hpos].
  - by replace (Z.to_nat var_flock_tries) with 0%nat by lia.
  - rewrite (proj2 (Z.eqb_neq _ _)) by (apply Hnever; lia).
    change (to_int (0 + 1)) with 1.
    rewrite (deliver_flock_loop_gave_up (Z.to_nat (var_flock_tries - 1)) _
               fd lock_style 1); try done; try lia.
    + replace (Z.to_nat var_flock_tries)
        with (S (Z.to_nat (var_flock_tries - 1))) by lia.
      done.
    + intros j Hj. apply Hnever. lia.
Qed.

Lemma flock_attempts_counts (n : nat) (fd lock_style : Z) :
  length (myflock_calls (flock_attempts var_flock_delay n fd lock_style)) = n
  ∧ length (sleeps (flock_attempts var_flock_delay n fd lock_style)) = pred n.
Proof.
  destruct n as [|n]; [done |].
  unfold flock_attempts, myflock_calls, sleeps, flock_call. simpl.
  induction n as [|n [IH1 IH2]]; simpl; [done |].
  by rewrite IH1, IH2.
Qed.

(** X16: when the lock is granted for the first time in round [k], below
    the number of attempts allowed, [deliver_flock] returns 0 after [k + 1]
    non-blocking attempts at an exclusive lock, with a call of [sleep]
    before each but the first, and leaves [why] alone.  [sleep] gets
    [var_flock_delay] as [unsigned int]: the delay itself when it is not
    negative, and 2^32 more when it is. *)
Theorem deliver_flock_locks (fd lock_style k : Z) (why : out_ptr) :
  is_int var_flock_tries → 0 ≤ k < var_flock_tries →
  myflock k = 0 → (∀ j, 0 ≤ j < k → myflock j ≠ 0) →
  deliver_flock var_flock_tries var_flock_delay myflock fd lock_style why
  = (Some 0, flock_attempts var_flock_delay (S (Z.to_nat k)) fd lock_style).
Proof.
  intros Hint Hk Hzero Hfirst. unfold deliver_flock.
  by rewrite (deliver_flock_loop_first fd lock_style k).
Qed.

(** X17: when no attempt below the number allowed is granted the lock,
    [deliver_flock] returns -1 after that many attempts, none at all when
    the number is 0 or less, with a call of [sleep] on [var_flock_delay]
    as [unsigned int] before each attempt but the first, and then writes
    the reason to [why] unless [why] is the null pointer. *)
Theorem deliver_flock_gives_up (fd lock_style : Z) (why : out_ptr) :
  is_int var_flock_tries →
  (∀ j, 0 ≤ j < var_flock_tries → myflock j ≠ 0) →
  deliver_flock var_flock_tries var_flock_delay myflock fd lock_style why
  = (Some (-1),
     flock_attempts var_flock_delay (Z.to_nat var_flock_tries) fd lock_style
     ++ match why with
        | NULL => []
        | ADDR_OF _ =>
            [Vsprintf why "unable to lock for exclusive access: %m"]
        end).
Proof.
  intros Hint Hnever. unfold deliver_flock.
  rewrite (deliver_flock_loop_never fd lock_style) by done.
  by destruct why.
Qed.

(** X18: [deliver_flock] returns: 0 exactly when some attempt below the
    number allowed is granted the lock, and -1 otherwise.  It never tries
    more often than allowed, and pauses once less than it tries. *)
Theorem deliver_flock_returns (fd lock_style : Z) (why : out_ptr) :
  is_int var_flock_tries →
  ((deliver_flock var_flock_tries var_flock_delay myflock fd lock_style
      why).1 = Some 0
   ↔ ∃ k, 0 ≤ k < var_flock_tries ∧ myflock k = 0)
  ∧ ((deliver_flock var_flock_tries var_flock_delay myflock fd lock_style
        why).1 = Some (-1)
     ↔ ∀ k, 0 ≤ k < var_flock_tries → myflock k ≠ 0)
  ∧ (length
       (myflock_calls
          (deliver_flock var_flock_tries var_flock_delay myflock fd
             lock_style why).2) ≤ Z.to_nat var_flock_tries)%nat
  ∧ length
      (sleeps
         (deliver_flock var_flock_tries var_flock_delay myflock fd
            lock_style why).2)
    = pred
        (length
           (myflock_calls
              (deliver_flock var_flock_tries var_flock_delay myflock fd
                 lock_style why).2)).
Proof.
  intros Hint. unfold deliver_flock.
  destruct (myflock_first_or_never var_flock_tries)
    as [(k & Hk & Hzero & Hfirst) | Hnever].
  - rewrite (deliver_flock_loop_first fd lock_style k) by done.
    cbn [fst snd].
    destruct (flock_attempts_counts (S (Z.to_nat k)) fd lock_style)
      as [-> ->].
    split; [split; [intros _; by exists k | done] |].
    split; [split; [done | intros Hnever; by destruct (Hnever k Hk)] |].
    split; [lia | done].
  - rewrite (deliver_flock_loop_never fd lock_style) by done.
    cbn [fst snd].
    assert (Hwhy : ∀ tail,
      tail = (if non_null why
              then [Vsprintf why "unable to lock for exclusive access: %m"]
              else []) →
      myflock_calls tail = [] ∧ sleeps tail = []).
    { intros tail ->. by destruct why. }
    destruct (Hwhy _ eq_refl) as [Hcalls Hsleeps].
    unfold myflock_calls, sleeps in *. rewrite !omap_app, Hcalls, Hsleeps.
    rewrite !app_nil_r.
    destruct (flock_attempts_counts (Z.to_nat var_flock_tries) fd lock_style)
      as [Hc Hs]. unfold myflock_calls, sleeps in Hc, Hs. rewrite Hc, Hs.
    split; [split; [done | intros (k & Hk & Hzero); by destruct (Hnever k)] |].
    split; [done |]. split; [lia | done].
Qed.

End deliver_flock_properties.

Section deliver_flock_examples.
#[local] Existing Instance postfix_myflock_h.

Lemma deliver_flock_locks_witness :
  is_int 5 ∧ 0 ≤ 2 < 5 ∧ myflock_third 2 = 0
  ∧ (∀ j, 0 ≤ j < 2 → myflock_third j ≠ 0)
  ∧ deliver_flock 5 1 myflock_third 7 1 (ADDR_OF "why")
    = (Some 0,
       [Myflock 7 1 6; Sleep 1; Myflock 7 1 6; Sleep 1; Myflock 7 1 6]).
Proof.
  assert (Hint : is_int 5) by (unfold is_int, INT_MIN, INT_MAX; lia).
  assert (Hk : 0 ≤ 2 < 5) by lia.
  assert (Hfirst : ∀ j, 0 ≤ j < 2 → myflock_third j ≠ 0).
  { intros j Hj. unfold myflock_third.
    destruct (Z.eqb_spec j 2); [lia | done]. }
  split; [exact Hint |]. split; [exact Hk |]. split; [reflexivity |].
  split; [exact Hfirst |].
  exact (deliver_flock_locks 5 1 myflock_third 7 1 2 (ADDR_OF "why") Hint Hk
           eq_refl Hfirst).
Defined.

(** With a delay of -1 the pause asked for is 4294967295 seconds. *)
Lemma deliver_flock_gives_up_witness :
  is_int 2 ∧ (∀ j, 0 ≤ j < 2 → myflock_never j ≠ 0)
  ∧ deliver_flock 2 (-1) myflock_never 7 1 (ADDR_OF "why")
    = (Some (-1),
       [Myflock 7 1 6; Sleep 4294967295; Myflock 7 1 6;
        Vsprintf (ADDR_OF "why") "unable to lock for exclusive access: %m"]).
Proof.
  assert (Hint : is_int 2) by (unfold is_int, INT_MIN, INT_MAX; lia).
  assert (Hnever : ∀ j, 0 ≤ j < 2 → myflock_never j ≠ 0) by done.
  split; [exact Hint |]. split; [exact Hnever |].
  exact (deliver_flock_gives_up 2 (-1) myflock_never 7 1 (ADDR_OF "why") Hint
           Hnever).
Defined.

Lemma deliver_flock_returns_witness :
  is_int 5
  ∧ ((deliver_flock 5 1 myflock_third 7 1 NULL).1 = Some 0
     ↔ ∃ k, 0 ≤ k < 5 ∧ myflock_third k = 0).
Proof.
  assert (Hint : is_int 5) by (unfold is_int, INT_MIN, INT_MAX; lia).
  split; [exact Hint |].
  exact (proj1 (deliver_flock_returns 5 1 myflock_third 7 1 NULL Hint)).
Defined.

End deliver_flock_examples.

(** ** virtual8_maps_find.c *)

Lemma strrchr_None (s : string) (c : ascii) :
  strchr s c = None → strrchr s c = None.
Proof.
  induction s as [|a s IH]; simpl; [done |].
  destruct (Ascii.eqb a c); [done |]. by intros ->%IH.
Qed.

(** [strrchr] finds the last "@": what follows it has none. *)
Lemma strrchr_last (local domain : string) (c : ascii) :
  strchr domain c = None →
  strrchr (local +:+ String c domain) c = Some (String c domain).
Proof.
  intros Hdomain%strrchr_None.
  induction local as [|a local IH]; rewrite ?app_String, ?app_empty_l; simpl.
  - by rewrite Hdomain, Ascii.eqb_refl.
  - by rewrite IH.
Qed.

Section virtual8_maps_find_properties.
Variable DICT_FLAG_FIXED : Z.
Variable var_rcpt_delim : string.
Variable strip_addr : string → ascii → option string.
Variable maps_find : string → Z → option string * Z.

Lemma decided_false (found : option string * Z) :
  decided found = false ↔ found = (None, 0).
Proof.
  unfold decided. destruct found as [[value|] dict_errno]; cbn [fst snd].
  - rewrite bool_decide_eq_true_2 by done. done.
  - rewrite bool_decide_eq_false_2 by (by intros []). cbn [orb].
    destruct (Z.eqb_spec dict_errno 0) as [-> | Hne]; cbn [negb]; [done |].
    split; [done | by intros [= ?]].
Qed.

(** X19: the three stages of [virtual8_maps_find] are one search: the
    address without its extension, the address, and the part from the last
    "@" on are looked up in this order, up to the first lookup that finds
    a value or fails, and the result and [dict_errno] are those of that
    lookup; when there is none, the result is null with [dict_errno] 0. *)
Theorem virtual8_maps_find_first (recipient : string) :
  virtual8_maps_find DICT_FLAG_FIXED var_rcpt_delim strip_addr maps_find
    recipient
  = maps_find_first DICT_FLAG_FIXED maps_find
      (candidates var_rcpt_delim strip_addr recipient).
Proof.
  unfold virtual8_maps_find, candidates.
  destruct (match var_rcpt_delim with
            | String delim _ => strip_addr recipient delim
            | EmptyString => None
            end) as [bare|]; simpl.
  - destruct (decided (maps_find bare DICT_FLAG_FIXED)); [done |].
    destruct (decided (maps_find recipient DICT_FLAG_FIXED)) eqn:Hfull;
      [done |].
    apply decided_false in Hfull. rewrite Hfull.
    destruct (strrchr recipient "@") as [ratsign|]; simpl; [|done].
    destruct (decided (maps_find ratsign DICT_FLAG_FIXED)) eqn:Hdomain;
      [done |].
    apply decided_false in Hdomain. by rewrite Hdomain.
  - destruct (decided (maps_find recipient DICT_FLAG_FIXED)) eqn:Hfull;
      [done |].
    apply decided_false in Hfull. rewrite Hfull.
    destruct (strrchr recipient "@") as [ratsign|]; simpl; [|done].
    destruct (decided (maps_find ratsign DICT_FLAG_FIXED)) eqn:Hdomain;
      [done |].
    apply decided_false in Hdomain. by rewrite Hdomain.
Qed.

(** X20: [virtual8_maps_find] returns null with [dict_errno] 0, the user
    was not found, exactly when none of the keys it can look up has a
    value and no lookup of them fails. *)
Theorem virtual8_maps_find_not_found (recipient : string) :
  (virtual8_maps_find DICT_FLAG_FIXED var_rcpt_delim strip_addr maps_find
     recipient).1 = (None, 0)
  ↔ ∀ key, key ∈ candidates var_rcpt_delim strip_addr recipient →
           maps_find key DICT_FLAG_FIXED = (None, 0).
Proof.
  unfold virtual8_maps_find, candidates.
  assert (Hpair : ∀ found : option string * Z,
            decided found = true → (found.1, found.2) ≠ (None, 0)).
  { intros [value dict_errno] Hd Heq. simpl in Heq.
    apply decided_false in Heq. congruence. }
  assert (Hsame : ∀ found : option string * Z, (found.1, found.2) = found)
    by (by intros []).
  assert (Htail :
    ∀ looked,
      (let found := maps_find recipient DICT_FLAG_FIXED in
       if decided found then (found.1, found.2, looked ++ [recipient])
       else
         match strrchr recipient "@" with
         | None => (None, found.2, looked ++ [recipient])
         | Some ratsign =>
             let found := maps_find ratsign DICT_FLAG_FIXED in
             (found.1, found.2, looked ++ [recipient; ratsign])
         end).1 = (None, 0)
      ↔ ∀ key, key ∈ [recipient] ++ option_list (strrchr recipient "@") →
               maps_find key DICT_FLAG_FIXED = (None, 0)).
  { intros looked. simpl.
    destruct (decided (maps_find recipient DICT_FLAG_FIXED)) eqn:Hfull.
    - split; [intros Heq; by apply Hpair in Heq |].
      intros Hall.
      assert (Hnone : maps_find recipient DICT_FLAG_FIXED = (None, 0))
        by (apply Hall, elem_of_cons; by left).
      apply decided_false in Hnone. congruence.
    - apply decided_false in Hfull.
      destruct (strrchr recipient "@") as [ratsign|]; simpl.
      + rewrite Hsame. split.
        * intros Hdomain key [-> | ->%list_elem_of_singleton]%elem_of_cons;
            done.
        * intros Hall. apply Hall. apply elem_of_cons; right.
          by apply list_elem_of_singleton.
      + rewrite Hfull. simpl. split; [|done].
        by intros _ key ->%list_elem_of_singleton. }
  destruct (match var_rcpt_delim with
            | String delim _ => strip_addr recipient delim
            | EmptyString => None
            end) as [bare|]; [|apply Htail].
  simpl option_list. cbn [app].
  destruct (decided (maps_find bare DICT_FLAG_FIXED)) eqn:Hbare.
  - split; [intros Heq; by apply Hpair in Heq |].
    intros Hall.
    assert (Hnone : maps_find bare DICT_FLAG_FIXED = (None, 0))
      by (apply Hall, elem_of_cons; by left).
    apply decided_false in Hnone. congruence.
  - apply decided_false in Hbare. rewrite (Htail [bare]). split.
    + by intros Hall key [-> | Hkey]%elem_of_cons; [| apply Hall].
    + intros Hall key Hkey. apply Hall. apply elem_of_cons. by right.
Qed.

(** X21: the catch-all.  For a recipient local@domain, where the domain is
    what follows the last "@", the result and [dict_errno] are those of
    the lookup of "@domain" when every other key has no value and its
    lookup does not fail. *)
Theorem virtual8_maps_find_catch_all (local domain : string) :
  strchr domain "@" = None →
  (∀ key,
     key ∈ candidates var_rcpt_delim strip_addr (local +:+ String "@" domain) →
     key ≠ String "@" domain →
     maps_find key DICT_FLAG_FIXED = (None, 0)) →
  (virtual8_maps_find DICT_FLAG_FIXED var_rcpt_delim strip_addr maps_find
     (local +:+ String "@" domain)).1
  = maps_find (String "@" domain) DICT_FLAG_FIXED.
Proof.
  intros Hdomain. unfold virtual8_maps_find, candidates.
  rewrite (strrchr_last local domain "@" Hdomain).
  set (recipient := local +:+ String "@" domain).
  set (target := String "@" domain).
  assert (Hsame : ∀ found : option string * Z, (found.1, found.2) = found)
    by (by intros []).
  assert (Hstep : ∀ key,
    (key ≠ target → maps_find key DICT_FLAG_FIXED = (None, 0)) →
    decided (maps_find key DICT_FLAG_FIXED) = true → key = target).
  { intros key Hkey Hd. destruct (decide (key = target)) as [|Hne]; [done |].
    apply Hkey in Hne. apply decided_false in Hne. congruence. }
  assert (Htail : ∀ looked,
    (recipient ≠ target →
     maps_find recipient DICT_FLAG_FIXED = (None, 0)) →
    (let found := maps_find recipient DICT_FLAG_FIXED in
     if decided found then (found.1, found.2, looked ++ [recipient])
     else
       let found := maps_find target DICT_FLAG_FIXED in
       (found.1, found.2, looked ++ [recipient; target])).1
    = maps_find target DICT_FLAG_FIXED).
  { intros looked Hfull. simpl.
    destruct (decided (maps_find recipient DICT_FLAG_FIXED)) eqn:Hd; simpl.
    - rewrite Hsame. by rewrite (Hstep recipient Hfull Hd).
    - apply Hsame. }
  destruct (match var_rcpt_delim with
            | String delim _ => strip_addr recipient delim
            | EmptyString => None
            end) as [bare|]; simpl option_list; cbn [app]; intros Hall.
  - destruct (decided (maps_find bare DICT_FLAG_FIXED)) eqn:Hd.
    + cbn [fst snd]. rewrite Hsame.
      rewrite (Hstep bare); [done | | done].
      intros Hne. apply Hall; [|done]. apply elem_of_cons. by left.
    + apply (Htail [bare]). intros Hne. apply Hall; [|done].
      apply elem_of_cons; right. apply elem_of_cons. by left.
  - apply (Htail []). intros Hne. apply Hall; [|done].
    apply elem_of_cons. by left.
Qed.

End virtual8_maps_find_properties.

Section virtual8_maps_find_examples.

Lemma virtual8_maps_find_catch_all_witness :
  strchr "example.com" "@" = None
  ∧ (∀ key,
       key ∈ candidates "" strip_addr_off ("user+ext" +:+ "@example.com") →
       key ≠ "@example.com" →
       maps_find_a key 1 = (None, 0))
  ∧ (virtual8_maps_find 1 "" strip_addr_off maps_find_a
       ("user+ext" +:+ "@example.com")).1 = (Some "example.com/", 0).
Proof.
  assert (Hdomain : strchr "example.com" "@" = None) by reflexivity.
  assert (Hall : ∀ key,
    key ∈ candidates "" strip_addr_off ("user+ext" +:+ "@example.com") →
    key ≠ "@example.com" →
    maps_find_a key 1 = (None, 0)).
  { intros key _ Hne. unfold maps_find_a.
    by destruct (String.eqb_spec key "@example.com"). }
  split; [exact Hdomain |]. split; [exact Hall |].
  exact (virtual8_maps_find_catch_all 1 "" strip_addr_off maps_find_a
           "user+ext" "example.com" Hdomain Hall).
Defined.

End virtual8_maps_find_examples.
